(** * d3rlpy: online training orchestration and fitted Q evaluation

    A shallow embedding of [d3rlpy/online/iterators.py] ([scale_action],
    [unscale_action], [_setup_algo], [train_single_env], [collect]) and of
    the guard logic of [d3rlpy/ope/fqe.py] ([_FQEBase]).

    Conventions of the embedding:
    - Python [int] is [Z]; Python/NumPy floating point numbers are exact
      rationals [Q] (rounding is not modelled); a one-dimensional NumPy
      array of floats is a [list Q].
    - A Python exception is a value of [exn]; a computation that may raise
      returns a [result].
    - The collaborators of the orchestration loop (environment, algorithm,
      buffers, logger, frame stacker, explorer) are not part of these two
      files.  They act on an opaque world [W]; the loop is a program in a
      monad that threads [W], propagates exceptions and records every call
      made on a collaborator, with its outcome, in chronological order.
    - The [with logger.measure_time(...)] scopes only record wall-clock
      durations and leave the control flow as it is; they, the [LOG]
      messages and the [print] calls are left out. *)

From Stdlib Require Import ZArith QArith Qminmax Qabs Qfield Lqa.
From Stdlib Require Import List String Bool Lia.
Import ListNotations.

Set Implicit Arguments.
Open Scope Z_scope.

(* ================================================================== *)
(** * Python values and exceptions *)

Inductive exn : Type :=
| UnboundLocalError (name : string)
| ZeroDivisionError
| IndexError
| ValueError
| AssertionError (msg : string)
| Raised (what : string).

Inductive result (A : Type) : Type :=
| Ok (a : A)
| Raise (e : exn).
Arguments Ok {A} a.
Arguments Raise {A} e.

Definition is_ok {A} (r : result A) : bool :=
  match r with Ok _ => true | Raise _ => false end.

(** Sequencing of computations that may raise. *)
Definition and_then {A B} (r : result A) (k : A -> result B) : result B :=
  match r with
  | Ok a => k a
  | Raise e => Raise e
  end.

(** [a // b] and [a % b] on Python integers: floor division, the remainder
    takes the sign of the divisor, a zero divisor raises. *)
Definition py_floordiv (a b : Z) : result Z :=
  if b =? 0 then Raise ZeroDivisionError else Ok (a / b).

Definition py_mod (a b : Z) : result Z :=
  if b =? 0 then Raise ZeroDivisionError else Ok (a mod b).

(** [range(lo, hi)]. *)
Definition py_range (lo hi : Z) : list Z :=
  map (fun i => lo + Z.of_nat i) (seq 0 (Z.to_nat (hi - lo))).

(** [xs[0]]. *)
Definition index0 {A} (xs : list A) : result A :=
  match xs with
  | x :: _ => Ok x
  | [] => Raise IndexError
  end.

(** [xs[i]] for a non-negative position [i]. *)
Definition index {A} (xs : list A) (i : nat) : result A :=
  match nth_error xs i with
  | Some x => Ok x
  | None => Raise IndexError
  end.

(** A [dict] with string keys; [dict_contains k d] is [k in d]. *)
Definition dict (V : Type) : Type := list (string * V).

Definition dict_contains {V} (k : string) (d : dict V) : bool :=
  existsb (fun kv => String.eqb k (fst kv)) d.

(* ================================================================== *)
(** * ActionRescaler: [scale_action] and [unscale_action] *)

Definition vec : Type := list Q.

(** [gym.spaces.Box]: only the bounds are used. *)
Record Box : Type := { low : vec; high : vec }.

Module Np.
(** Elementwise binary operation on two arrays of the same shape.  A
    shape mismatch raises [ValueError]; NumPy broadcasting between
    arrays of different lengths is not modelled. *)
Fixpoint elementwise (f : Q -> Q -> Q) (x y : vec) : result vec :=
  match x, y with
  | [], [] => Ok []
  | a :: x', b :: y' =>
      match elementwise f x' y' with
      | Ok r => Ok (f a b :: r)
      | Raise e => Raise e
      end
  | _, _ => Raise ValueError
  end.

(** Array-with-scalar operation. *)
Definition scalar (f : Q -> Q) (x : vec) : vec := map f x.

(** [np.clip(a, a_min, a_max)], that is
    [np.minimum(a_max, np.maximum(a, a_min))]. *)
Definition clip (a a_min a_max : vec) : result vec :=
  and_then (elementwise Qmax a a_min) (fun m => elementwise Qmin m a_max).
End Np.

Definition eps : Q := 1 # 100000000.

(** iterators.py, lines 75-85.  The division is the total division of
    [Q]; its divisor is zero only when [high - low = -1e-8], where NumPy
    yields [inf] or [nan]. *)
Definition scale_action (action_space : Box) (action : vec) : result vec :=
  and_then (Np.clip action action_space.(low) action_space.(high))
    (fun action =>
  let low := action_space.(low) in
  let high := action_space.(high) in
  and_then (Np.elementwise Qminus action low) (fun num =>
  and_then (Np.elementwise Qminus high low) (fun width =>
  and_then (Np.elementwise Qdiv num (Np.scalar (fun d => d + eps)%Q width))
    (fun ratio =>
  Ok (Np.scalar (fun r => 2 * r - 1)%Q ratio))))).

(** iterators.py, lines 88-97. *)
Definition unscale_action (action_space : Box) (scaled_action : vec)
    : result vec :=
  let low := action_space.(low) in
  let high := action_space.(high) in
  and_then (Np.elementwise Qminus high low) (fun width =>
  and_then
    (Np.elementwise Qmult
       (Np.scalar (fun s => (1 # 2) * (s + 1))%Q scaled_action)
       (Np.scalar (fun d => d + eps)%Q width)) (fun span =>
  Np.elementwise Qplus low span)).




(* ================================================================== *)
(** * Data exchanged with the collaborators *)

(** The two buffer objects a run can hold: the [buffer] argument and the
    [demo_buffer] created when behaviour cloning is enabled. *)
Inductive buffer_ref : Type := Primary | Demo.

(** Keyword arguments of [Buffer.append]. *)
Record transition (Obs : Type) : Type := {
  t_observation : Obs;
  t_action : vec;
  t_reward : Q;
  t_terminal : bool;
  t_clip_episode : bool
}.

(** The keyword arguments [n_frames], [n_steps] and [gamma] shared by
    [sample], [sample_trainsitions] and [to_minibatch]. *)
Record sample_args : Type := {
  sa_n_frames : Z;
  sa_n_steps : Z;
  sa_gamma : Q
}.

(** One episode of the demonstration file: a mapping with the keys
    ['obs'], ['act'], ['rew'], ['done'], each a sequence. *)
Record demo (Obs : Type) : Type := {
  demo_obs : list Obs;
  demo_act : list vec;
  demo_rew : list Q;
  demo_done : list bool
}.

(** What [env.step] returns: [(next_observation, reward, terminal, info)]. *)
Definition step_result (Obs : Type) : Type := (Obs * Q * bool * dict bool)%type.

(** A call made on a collaborator, with its arguments and its outcome. *)
Inductive event (Obs Trans Batch : Type) : Type :=
| LoggerNew (experiment_name : string) (r : result unit)
| SetActiveLogger (r : result unit)
| ScalerFit (r : result unit)
| ActionScalerFit (r : result unit)
| BuildWithEnv (r : result unit)
| StackNew (n_frames : Z) (r : result unit)
| SaveParams (r : result unit)
| NpLoad (path : string) (r : result (list (demo Obs)))
| ReplayBufferNew (maxlen : Z) (r : result unit)
| BufferAppend (b : buffer_ref) (t : transition Obs) (r : result unit)
| EnvReset (r : result Obs)
| StackAppend (o : Obs) (r : result unit)
| StackEval (r : result Obs)
| StackClear (r : result unit)
| ActionSpaceSample (r : result vec)
| ExplorerSample (x : list Obs) (total_step : Z) (r : result (list vec))
| AlgoSampleAction (x : list Obs) (r : result (list vec))
| AlgoPredict (x : list Obs) (r : result (list vec))
| EnvStep (a : vec) (r : result (step_result Obs))
| BufferSampleTransitions (b : buffer_ref) (batch_size : Z)
    (args : sample_args) (r : result (list Trans))
| BufferToMinibatch (b : buffer_ref) (ts : list Trans) (args : sample_args)
    (r : result Batch)
| BufferSample (b : buffer_ref) (batch_size : Z) (args : sample_args)
    (r : result Batch)
| AlgoUpdate (batch : Batch) (demo_batch : option Batch) (utd : Z)
    (r : result (dict Q))
| AddMetric (name : string) (val : Q) (r : result unit)
| Callback (epoch total_step : Z) (r : result unit)
| EvalScorer (r : result Q)
| SaveModel (total_step : Z) (r : result unit)
| Commit (epoch total_step : Z) (r : result unit)
| BufferClipEpisode (b : buffer_ref) (r : result unit)
| LoggerClose (r : result unit).

(** The collaborators, as operations on the world [W].  Reading a
    hyper-parameter of the algorithm or the length of a buffer neither
    raises nor changes the world. *)
Record Collab (W Obs Trans Batch : Type) : Type := {
  (* gym.Env *)
  env_observation_shape : list Z;
  env_action_space : Box;
  env_action_space_sample : W -> result vec * W;
  env_reset : W -> result Obs * W;
  env_step : vec -> W -> result (step_result Obs) * W;
  (* observation.astype("f4") *)
  astype_f4 : Obs -> Obs;
  (* AlgoProtocol *)
  algo_class_name : string;
  algo_scaler : bool;
  scaler_fit_with_env : W -> result unit * W;
  algo_action_scaler : bool;
  action_scaler_fit_with_env : W -> result unit * W;
  algo_impl_is_none : W -> bool;
  algo_build_with_env : W -> result unit * W;
  algo_set_active_logger : W -> result unit * W;
  algo_save_params : W -> result unit * W;
  algo_n_frames : Z;
  algo_n_steps : Z;
  algo_gamma : Q;
  algo_batch_size : Z;
  algo_sample_action : list Obs -> W -> result (list vec) * W;
  algo_predict : list Obs -> W -> result (list vec) * W;
  algo_update : Batch -> option Batch -> Z -> W -> result (dict Q) * W;
  (* Buffer / ReplayBuffer *)
  replay_buffer_new : Z -> W -> result unit * W;
  buffer_len : buffer_ref -> W -> Z;
  buffer_append : buffer_ref -> transition Obs -> W -> result unit * W;
  buffer_sample : buffer_ref -> Z -> sample_args -> W -> result Batch * W;
  buffer_sample_trainsitions :
    buffer_ref -> Z -> sample_args -> W -> result (list Trans) * W;
  buffer_to_minibatch :
    buffer_ref -> list Trans -> sample_args -> W -> result Batch * W;
  buffer_clip_episode : buffer_ref -> W -> result unit * W;
  (* StackedObservation *)
  stack_new : Z -> W -> result unit * W;
  stack_append : Obs -> W -> result unit * W;
  stack_eval : W -> result Obs * W;
  stack_clear : W -> result unit * W;
  (* D3RLPyLogger *)
  logger_new : string -> W -> result unit * W;
  logger_add_metric : string -> Q -> W -> result unit * W;
  logger_save_model : Z -> W -> result unit * W;
  logger_commit : Z -> Z -> W -> result unit * W;
  logger_close : W -> result unit * W;
  (* np.load(path, allow_pickle=True) *)
  np_load : string -> W -> result (list (demo Obs)) * W
}.

(** The arguments of [train_single_env] that steer the control flow.  An
    [Explorer] is its [sample] method; [eval_env] is given as the scorer
    [evaluate_on_environment(eval_env, epsilon=eval_epsilon)] built from
    it; [callback] receives [(epoch, total_step)] next to the algorithm.
    [show_progress] only selects a progress bar; [save_metrics],
    [with_timestamp], [logdir], [verbose] and [tensorboard_dir] are handed
    to the logger; [dropout] and [layernorm] are never read. *)
Record train_args (W Obs : Type) : Type := {
  explorer : option (list Obs -> Z -> W -> result (list vec) * W);
  n_steps : Z;
  n_steps_per_epoch : Z;
  update_interval : Z;
  update_start_step : Z;
  random_steps : Z;
  eval_env : option (W -> result Q * W);
  save_interval : Z;
  experiment_name : option string;
  timelimit_aware : bool;
  callback : option (Z -> Z -> W -> result unit * W);
  load_demo : option string;
  bc_loss : bool;
  utd : Z
}.

(** The arguments of [collect]; [n_steps] is [c_n_steps] and so on. *)
Record collect_args (W Obs : Type) : Type := {
  c_explorer : option (list Obs -> Z -> W -> result (list vec) * W);
  c_deterministic : bool;
  c_n_steps : Z;
  c_timelimit_aware : bool
}.

(** Local variables of the training loop that live across iterations.
    [unscaled_action] is unbound until a branch assigns it. *)
Record locals (Obs : Type) : Type := {
  observation : Obs;
  rollout_return : Q;
  unscaled_action : option vec
}.

Arguments LoggerNew {Obs Trans Batch} experiment_name r.
Arguments SetActiveLogger {Obs Trans Batch} r.
Arguments ScalerFit {Obs Trans Batch} r.
Arguments ActionScalerFit {Obs Trans Batch} r.
Arguments BuildWithEnv {Obs Trans Batch} r.
Arguments StackNew {Obs Trans Batch} n_frames r.
Arguments SaveParams {Obs Trans Batch} r.
Arguments NpLoad {Obs Trans Batch} path r.
Arguments ReplayBufferNew {Obs Trans Batch} maxlen r.
Arguments BufferAppend {Obs Trans Batch} b t r.
Arguments EnvReset {Obs Trans Batch} r.
Arguments StackAppend {Obs Trans Batch} o r.
Arguments StackEval {Obs Trans Batch} r.
Arguments StackClear {Obs Trans Batch} r.
Arguments ActionSpaceSample {Obs Trans Batch} r.
Arguments ExplorerSample {Obs Trans Batch} x total_step r.
Arguments AlgoSampleAction {Obs Trans Batch} x r.
Arguments AlgoPredict {Obs Trans Batch} x r.
Arguments EnvStep {Obs Trans Batch} a r.
Arguments BufferSampleTransitions {Obs Trans Batch} b batch_size args r.
Arguments BufferToMinibatch {Obs Trans Batch} b ts args r.
Arguments BufferSample {Obs Trans Batch} b batch_size args r.
Arguments AlgoUpdate {Obs Trans Batch} batch demo_batch utd r.
Arguments AddMetric {Obs Trans Batch} name val r.
Arguments Callback {Obs Trans Batch} epoch total_step r.
Arguments EvalScorer {Obs Trans Batch} r.
Arguments SaveModel {Obs Trans Batch} total_step r.
Arguments Commit {Obs Trans Batch} epoch total_step r.
Arguments BufferClipEpisode {Obs Trans Batch} b r.
Arguments LoggerClose {Obs Trans Batch} r.

(* ================================================================== *)
(** * The orchestration monad *)

Section Monad.
Context {W Ev : Type}.

(** A program takes the world, and returns its outcome, the world it
    leaves behind and the calls it made, oldest first.  The world and
    the calls made so far survive an exception. *)
Definition M (A : Type) : Type := W -> result A * W * list Ev.

Definition ret {A} (a : A) : M A := fun w => (Ok a, w, []).

Definition bind {A B} (m : M A) (f : A -> M B) : M B :=
  fun w =>
    let '(r, w1, l1) := m w in
    match r with
    | Ok a => let '(r2, w2, l2) := f a w1 in (r2, w2, l1 ++ l2)
    | Raise e => (Raise e, w1, l1)
    end.

(** A pure computation that may raise. *)
Definition lift {A} (r : result A) : M A := fun w => (r, w, []).

(** Reading an attribute of a collaborator. *)
Definition reads {A} (f : W -> A) : M A := fun w => (Ok (f w), w, []).

(** Calling a collaborator: [mk] builds the record of the call from its
    outcome, [h] is the collaborator's operation. *)
Definition call {A} (mk : result A -> Ev) (h : W -> result A * W) : M A :=
  fun w => let (r, w') := h w in (r, w', [mk r]).

(** Reading a local variable that may still be unbound. *)
Definition read_local {A} (name : string) (v : option A) : M A :=
  match v with
  | Some a => ret a
  | None => lift (Raise (UnboundLocalError name))
  end.

(** [for x in xs: s = body(x, s)]. *)
Fixpoint for_each {A S} (xs : list A) (body : A -> S -> M S) (s : S) : M S :=
  match xs with
  | [] => ret s
  | x :: xs' => bind (body x s) (for_each xs' body)
  end.

Definition outcome {A} (x : result A * W * list Ev) : result A := fst (fst x).
Definition world_of {A} (x : result A * W * list Ev) : W := snd (fst x).
Definition calls {A} (x : result A * W * list Ev) : list Ev := snd x.
End Monad.

Arguments M W Ev A : clear implicits.

Declare Scope orch_scope.
Delimit Scope orch_scope with orch.
Notation "x <- m ;; k" := (bind m (fun x => k))
  (at level 61, m at next level, right associativity) : orch_scope.
Notation "' pat <- m ;; k" :=
  (bind m (fun x => match x with pat => k end))
  (at level 61, pat pattern, m at next level, right associativity)
  : orch_scope.
Notation "m ;; k" := (bind m (fun _ => k))
  (at level 61, right associativity) : orch_scope.
Open Scope orch_scope.

(* ================================================================== *)
(** * TrainingOrchestrator and CollectionOrchestrator *)

Section Orchestrator.
Context {W Obs Trans Batch : Type}.
Variable C : Collab W Obs Trans Batch.

Local Abbreviation Prog := (M W (event Obs Trans Batch)).

(** iterators.py, lines 98-118 ([LOG] messages are not calls on a
    collaborator). *)
Definition _setup_algo : Prog unit :=
  (if C.(algo_scaler)
   then call ScalerFit C.(scaler_fit_with_env) else ret tt) ;;
  (if C.(algo_action_scaler)
   then call ActionScalerFit C.(action_scaler_fit_with_env) else ret tt) ;;
  impl_is_none <- reads C.(algo_impl_is_none) ;;
  if impl_is_none
  then call BuildWithEnv C.(algo_build_with_env)
  else ret tt.

(** [is_image = len(observation_shape) == 3]. *)
Definition is_image : bool :=
  Nat.eqb (List.length C.(env_observation_shape)) 3.

(** The keyword arguments [n_frames=algo.n_frames, n_steps=algo.n_steps,
    gamma=algo.gamma]. *)
Definition algo_args : sample_args :=
  {| sa_n_frames := C.(algo_n_frames);
     sa_n_steps := C.(algo_n_steps);
     sa_gamma := C.(algo_gamma) |}.

(** Lines 283-288 and 455-460: stack observation if necessary.  Returns
    [(observation, fed_observation)]. *)
Definition feed_observation (observation : Obs) : Prog (Obs * Obs) :=
  if is_image then
    call (StackAppend observation) (C.(stack_append) observation) ;;
    fed_observation <- call StackEval C.(stack_eval) ;;
    ret (observation, fed_observation)
  else
    let observation := C.(astype_f4) observation in
    ret (observation, observation).

(** Lines 318-322 and 476-480: special case for the TimeLimit wrapper.
    Returns [(clip_episode, terminal)]. *)
Definition timelimit_case (timelimit_aware terminal : bool)
    (info : dict bool) : bool * bool :=
  if timelimit_aware && dict_contains "TimeLimit.truncated" info
  then (true, false)
  else (terminal, terminal).

Section Train.
Variable a : train_args W Obs.

(** Lines 228-236 and 239-247: the keyword arguments of one
    [append] of a demonstration step, evaluated left to right. *)
Definition demo_transition (d : demo Obs) (i : nat)
    : result (transition Obs) :=
  and_then (index d.(demo_obs) i) (fun obs =>
  and_then (index d.(demo_act) i) (fun act =>
  and_then (scale_action C.(env_action_space) act) (fun action =>
  and_then (index d.(demo_rew) i) (fun rew =>
  and_then (index d.(demo_done) i) (fun done =>
  Ok {| t_observation := obs;
        t_action := action;
        t_reward := rew;
        t_terminal := done;
        t_clip_episode := done |}))))).

(** The two [for demo in demos] loops differ in the buffer only. *)
Definition append_demo (b : buffer_ref) (d : demo Obs) (i : nat)
    (_ : unit) : Prog unit :=
  t <- lift (demo_transition d i) ;;
  call (BufferAppend b t) (C.(buffer_append) b t).

Definition append_demos (b : buffer_ref) (demos : list (demo Obs))
    : Prog unit :=
  for_each demos
    (fun d _ =>
       for_each (seq 0 (List.length d.(demo_obs))) (append_demo b d) tt)
    tt.

(** Lines 219-276: load demo.  Returns the binding of the local
    [demo_buffer], if one was created. *)
Definition load_demos : Prog (option buffer_ref) :=
  match a.(load_demo) with
  | Some path =>
      demos <- call (NpLoad path) (C.(np_load) path) ;;
      if a.(bc_loss) then
        call (ReplayBufferNew 1000000) (C.(replay_buffer_new) 1000000) ;;
        append_demos Demo demos ;;
        ret (Some Demo)
      else
        append_demos Primary demos ;;
        ret None
  | None => ret None
  end.

(** Lines 291-311: sample exploration action.  Returns [action] and
    the binding of [unscaled_action] after the branch. *)
Definition sample_exploration_action (total_step : Z)
    (fed_observation : Obs) (unscaled : option vec)
    : Prog (vec * option vec) :=
  if total_step <? a.(random_steps) then
    unscaled_action <- call ActionSpaceSample C.(env_action_space_sample) ;;
    action <- lift (scale_action C.(env_action_space) unscaled_action) ;;
    ret (action, Some unscaled_action)
  else
    match a.(explorer) with
    | Some explorer_sample =>
        let x := [fed_observation] in
        actions <- call (ExplorerSample x total_step)
                     (explorer_sample x total_step) ;;
        action <- lift (index0 actions) ;;
        ret (action, unscaled)
    | None =>
        actions <- call (AlgoSampleAction [fed_observation])
                     (C.(algo_sample_action) [fed_observation]) ;;
        action <- lift (index0 actions) ;;
        unscaled_action <-
          lift (unscale_action C.(env_action_space) action) ;;
        ret (action, Some unscaled_action)
    end.

(** Lines 332-341: reset if terminated. *)
Definition reset_if_terminated (clip_episode : bool)
    (next_observation : Obs) (rollout_return : Q)
    (unscaled : option vec) : Prog (locals Obs) :=
  if clip_episode then
    observation <- call EnvReset C.(env_reset) ;;
    call (AddMetric "rollout_return" rollout_return)
      (C.(logger_add_metric) "rollout_return" rollout_return) ;;
    (if is_image then call StackClear C.(stack_clear) else ret tt) ;;
    ret {| observation := observation;
           rollout_return := 0;
           unscaled_action := unscaled |}
  else
    ret {| observation := next_observation;
           rollout_return := rollout_return;
           unscaled_action := unscaled |}.

(** Lines 282-344: from the stacking of the observation to the pseudo
    epoch count.  Returns the locals and [epoch]. *)
Definition interaction (total_step : Z) (st : locals Obs)
    : Prog (locals Obs * Z) :=
  '(observation, fed_observation) <- feed_observation st.(observation) ;;
  '(action, unscaled) <-
    sample_exploration_action total_step fed_observation
      st.(unscaled_action) ;;
  unscaled_action <- read_local "unscaled_action" unscaled ;;
  '(next_observation, reward, terminal, info) <-
    call (EnvStep unscaled_action) (C.(env_step) unscaled_action) ;;
  let rollout_return := (st.(rollout_return) + reward)%Q in
  let '(clip_episode, terminal) :=
    timelimit_case a.(timelimit_aware) terminal info in
  let t := {| t_observation := observation;
              t_action := action;
              t_reward := reward;
              t_terminal := terminal;
              t_clip_episode := clip_episode |} in
  call (BufferAppend Primary t) (C.(buffer_append) Primary t) ;;
  st' <- reset_if_terminated clip_episode next_observation rollout_return
           unscaled ;;
  epoch <- lift (py_floordiv total_step a.(n_steps_per_epoch)) ;;
  ret (st', epoch).

(** Lines 348-381: sample mini-batch.  Returns [(batch, demo_batch)]. *)
Definition sample_batch (demo_buffer : option buffer_ref)
    : Prog (Batch * option Batch) :=
  if a.(bc_loss) then
    buffer_t <-
      call (BufferSampleTransitions Primary C.(algo_batch_size) algo_args)
        (C.(buffer_sample_trainsitions) Primary C.(algo_batch_size)
           algo_args) ;;
    demo_buffer <- read_local "demo_buffer" demo_buffer ;;
    demo_t <-
      call (BufferSampleTransitions demo_buffer 128 algo_args)
        (C.(buffer_sample_trainsitions) demo_buffer 128 algo_args) ;;
    batch <-
      call (BufferToMinibatch Primary (buffer_t ++ demo_t) algo_args)
        (C.(buffer_to_minibatch) Primary (buffer_t ++ demo_t) algo_args) ;;
    demo_batch <-
      call (BufferToMinibatch demo_buffer demo_t algo_args)
        (C.(buffer_to_minibatch) demo_buffer demo_t algo_args) ;;
    ret (batch, Some demo_batch)
  else
    batch <-
      call (BufferSample Primary C.(algo_batch_size) algo_args)
        (C.(buffer_sample) Primary C.(algo_batch_size) algo_args) ;;
    ret (batch, None).

(** Lines 382-389: update parameters (the [range(1)] loop runs once)
    and record metrics. *)
Definition update_parameters (demo_buffer : option buffer_ref)
    : Prog unit :=
  '(batch, demo_batch) <- sample_batch demo_buffer ;;
  loss <- call (AlgoUpdate batch demo_batch a.(utd))
            (C.(algo_update) batch demo_batch a.(utd)) ;;
  for_each loss
    (fun '(name, val) _ =>
       call (AddMetric name val) (C.(logger_add_metric) name val))
    tt.

(** Lines 345-346: the update trigger.  [len(buffer)] is a read without
    effect, so reading it before the first conjunct is tested does not
    change what [and] computes; [%] is evaluated only when both
    conjuncts hold. *)
Definition update_step (demo_buffer : option buffer_ref)
    (total_step : Z) : Prog unit :=
  len_buffer <- reads (C.(buffer_len) Primary) ;;
  if (total_step >? a.(update_start_step))
     && (len_buffer >? C.(algo_batch_size))
  then
    m <- lift (py_mod total_step a.(update_interval)) ;;
    if m =? 0 then update_parameters demo_buffer else ret tt
  else ret tt.

(** Lines 391-393: call callback if given. *)
Definition call_callback (epoch total_step : Z) : Prog unit :=
  match a.(callback) with
  | Some f => call (Callback epoch total_step) (f epoch total_step)
  | None => ret tt
  end.

(** Lines 395-404: evaluation, checkpoint and commit at an epoch
    boundary. *)
Definition end_of_epoch (epoch total_step : Z) : Prog unit :=
  if epoch >? 0 then
    m <- lift (py_mod total_step a.(n_steps_per_epoch)) ;;
    if m =? 0 then
      match a.(eval_env) with
      | Some eval_scorer =>
          score <- call EvalScorer eval_scorer ;;
          call (AddMetric "evaluation" score)
            (C.(logger_add_metric) "evaluation" score)
      | None => ret tt
      end ;;
      s <- lift (py_mod epoch a.(save_interval)) ;;
      (if s =? 0
       then call (SaveModel total_step) (C.(logger_save_model) total_step)
       else ret tt) ;;
      call (Commit epoch total_step) (C.(logger_commit) epoch total_step)
    else ret tt
  else ret tt.

(** Lines 280-404: one iteration of the training loop. *)
Definition train_step (demo_buffer : option buffer_ref) (total_step : Z)
    (st : locals Obs) : Prog (locals Obs) :=
  '(st', epoch) <- interaction total_step st ;;
  update_step demo_buffer total_step ;;
  call_callback epoch total_step ;;
  end_of_epoch epoch total_step ;;
  ret st'.

(** Lines 278-404: start training loop. *)
Definition training_loop (demo_buffer : option buffer_ref)
    : Prog (locals Obs) :=
  observation <- call EnvReset C.(env_reset) ;;
  for_each (py_range 1 (a.(n_steps) + 1)) (train_step demo_buffer)
    {| observation := observation;
       rollout_return := 0;
       unscaled_action := None |}.

(** Lines 183-218: logger, algorithm, frame stack, hyper-parameters. *)
Definition train_setup : Prog unit :=
  let experiment_name :=
    match a.(experiment_name) with
    | None => (C.(algo_class_name) ++ "_online")%string
    | Some name => name
    end in
  call (LoggerNew experiment_name) (C.(logger_new) experiment_name) ;;
  call SetActiveLogger C.(algo_set_active_logger) ;;
  _setup_algo ;;
  (if is_image
   then call (StackNew C.(algo_n_frames)) (C.(stack_new) C.(algo_n_frames))
   else ret tt) ;;
  call SaveParams C.(algo_save_params).

(** Lines 183-404: everything before the shutdown. *)
Definition train_run : Prog unit :=
  train_setup ;;
  demo_buffer <- load_demos ;;
  training_loop demo_buffer ;;
  ret tt.

(** Lines 406-410: clip the last episode, close logger. *)
Definition train_shutdown : Prog unit :=
  call (BufferClipEpisode Primary) (C.(buffer_clip_episode) Primary) ;;
  call LoggerClose C.(logger_close).

(** iterators.py, lines 121-410. *)
Definition train_single_env : Prog unit :=
  train_run ;;
  train_shutdown.
End Train.

Section Collect.
Variable a : collect_args W Obs.

(** Lines 462-470: sample exploration action. *)
Definition collect_action (total_step : Z) (fed_observation : Obs)
    : Prog vec :=
  if a.(c_deterministic) then
    actions <- call (AlgoPredict [fed_observation])
                 (C.(algo_predict) [fed_observation]) ;;
    lift (index0 actions)
  else
    match a.(c_explorer) with
    | Some explorer_sample =>
        let x := [fed_observation] in
        actions <- call (ExplorerSample x total_step)
                     (explorer_sample x total_step) ;;
        lift (index0 actions)
    | None =>
        actions <- call (AlgoSampleAction [fed_observation])
                     (C.(algo_sample_action) [fed_observation]) ;;
        lift (index0 actions)
    end.

(** Lines 453-498: one iteration of the collection loop. *)
Definition collect_step (total_step : Z) (observation : Obs) : Prog Obs :=
  '(observation, fed_observation) <- feed_observation observation ;;
  action <- collect_action total_step fed_observation ;;
  '(next_observation, reward, terminal, info) <-
    call (EnvStep action) (C.(env_step) action) ;;
  let '(clip_episode, terminal) :=
    timelimit_case a.(c_timelimit_aware) terminal info in
  let t := {| t_observation := observation;
              t_action := action;
              t_reward := reward;
              t_terminal := terminal;
              t_clip_episode := clip_episode |} in
  call (BufferAppend Primary t) (C.(buffer_append) Primary t) ;;
  if clip_episode then
    observation <- call EnvReset C.(env_reset) ;;
    (if is_image then call StackClear C.(stack_clear) else ret tt) ;;
    ret observation
  else
    ret next_observation.

(** iterators.py, lines 413-501. *)
Definition collect : Prog unit :=
  _setup_algo ;;
  (if is_image
   then call (StackNew C.(algo_n_frames)) (C.(stack_new) C.(algo_n_frames))
   else ret tt) ;;
  observation <- call EnvReset C.(env_reset) ;;
  for_each (py_range 1 (a.(c_n_steps) + 1)) collect_step observation ;;
  call (BufferClipEpisode Primary) (C.(buffer_clip_episode) Primary).
End Collect.
End Orchestrator.

(* ================================================================== *)
(** * Fitted Q evaluation: the guards of [_FQEBase] *)

Module FQE.
(** [assert cond, msg]. *)
Definition py_assert (cond : bool) (msg : string) : result unit :=
  if cond then Ok tt else Raise (AssertionError msg).

Definition is_not_none {A} (o : option A) : bool :=
  match o with Some _ => true | None => false end.

(** Attribute access through a reference that may be [None]. *)
Definition deref {A} (o : option A) : result A :=
  match o with
  | Some v => Ok v
  | None => Raise (Raised "AttributeError")
  end.

Section Base.
(** [Observation], [np.ndarray] of actions, torch tensor, the state of
    an [FQEBaseImpl]. *)
Variables X Act Tensor Impl : Type.

(** [d3rlpy.constants]. *)
Variable ALGO_NOT_GIVEN_ERROR : string.
Variable IMPL_NOT_INITIALIZED_ERROR : string.

(** [convert_to_torch(array, device)] at the device of the object. *)
Variable convert_to_torch : Act -> Tensor.

(** The methods of the wrapped [QLearningAlgoBase] that are used. *)
Record wrapped_algo : Type := {
  algo_predict_ : X -> result Act;
  algo_sample_action_ : X -> result Act;
  algo_save_policy_ : string -> result unit
}.

(** [TorchMiniBatch]: only [numpy_batch.next_observations] is read. *)
Record numpy_batch_t : Type := { next_observations : X }.
Record TorchMiniBatch : Type := { numpy_batch : option numpy_batch_t }.

(** [FQEBaseImpl.update] and [FQEBaseImpl.update_target]. *)
Variable impl_update :
  TorchMiniBatch -> Tensor -> Impl -> result Q * Impl.
Variable impl_update_target : Impl -> result unit * Impl.

Record FQEBase : Type := {
  _algo : option wrapped_algo;
  _impl : option Impl;
  _grad_step : Z;
  target_update_interval : Z
}.

Definition set_impl (self : FQEBase) (i : Impl) : FQEBase :=
  {| _algo := self.(_algo);
     _impl := Some i;
     _grad_step := self.(_grad_step);
     target_update_interval := self.(target_update_interval) |}.

(** fqe.py, lines 100-102. *)
Definition save_policy (self : FQEBase) (fname : string) : result unit :=
  and_then (py_assert (is_not_none self.(_algo)) ALGO_NOT_GIVEN_ERROR)
    (fun _ =>
  and_then (deref self.(_algo)) (fun algo => algo.(algo_save_policy_) fname)).

(** fqe.py, lines 104-106. *)
Definition predict (self : FQEBase) (x : X) : result Act :=
  and_then (py_assert (is_not_none self.(_algo)) ALGO_NOT_GIVEN_ERROR)
    (fun _ =>
  and_then (deref self.(_algo)) (fun algo => algo.(algo_predict_) x)).

(** fqe.py, lines 108-110. *)
Definition sample_action (self : FQEBase) (x : X) : result Act :=
  and_then (py_assert (is_not_none self.(_algo)) ALGO_NOT_GIVEN_ERROR)
    (fun _ =>
  and_then (deref self.(_algo)) (fun algo => algo.(algo_sample_action_) x)).

(** Sequencing for a method that updates the object. *)
Definition seq_self {A B} (self : FQEBase) (r : result A)
    (k : A -> result B * FQEBase) : result B * FQEBase :=
  match r with
  | Ok v => k v
  | Raise e => (Raise e, self)
  end.

(** fqe.py, lines 112-122.  Returns the loss dictionary and the
    object after the call. *)
Definition inner_update (self : FQEBase) (batch : TorchMiniBatch)
    : result (dict Q) * FQEBase :=
  seq_self self (py_assert (is_not_none self.(_algo)) ALGO_NOT_GIVEN_ERROR)
    (fun _ =>
  seq_self self
    (py_assert (is_not_none self.(_impl)) IMPL_NOT_INITIALIZED_ERROR)
    (fun _ =>
  seq_self self (py_assert (is_not_none batch.(numpy_batch)) "") (fun _ =>
  seq_self self (deref self.(_algo)) (fun algo =>
  seq_self self (deref batch.(numpy_batch)) (fun nb =>
  seq_self self (algo.(algo_predict_) nb.(next_observations))
    (fun next_actions =>
  seq_self self (deref self.(_impl)) (fun impl =>
  let '(r, impl1) :=
    impl_update batch (convert_to_torch next_actions) impl in
  let self1 := set_impl self impl1 in
  seq_self self1 r (fun loss =>
  seq_self self1
    (py_mod self.(_grad_step) self.(target_update_interval)) (fun m =>
  if m =? 0 then
    let '(r2, impl2) := impl_update_target impl1 in
    let self2 := set_impl self impl2 in
    seq_self self2 r2 (fun _ => (Ok [("loss"%string, loss)], self2))
  else (Ok [("loss"%string, loss)], self1)))))))))).
End Base.
End FQE.

(* ================================================================== *)
(** * Observations on the record of calls *)

Section Observations.
Context {Obs Trans Batch : Type}.
Local Abbreviation Ev := (event Obs Trans Batch).

(** [algo.update] was called. *)
Definition is_update (ev : Ev) : bool :=
  match ev with AlgoUpdate _ _ _ _ => true | _ => false end.


(** A call of the shutdown: [clip_episode()] or [logger.close()]. *)
Definition is_cleanup (ev : Ev) : bool :=
  match ev with
  | BufferClipEpisode _ _ | LoggerClose _ => true
  | _ => false
  end.


(** A call on the logger, or one that hands the logger to the
    algorithm. *)
Definition is_logging (ev : Ev) : bool :=
  match ev with
  | LoggerNew _ _ | SetActiveLogger _ | SaveParams _ | AddMetric _ _ _
  | SaveModel _ _ | Commit _ _ _ | LoggerClose _ => true
  | _ => false
  end.

(** A call made while the action of a step is selected: on the frame
    stack, the action space, the explorer or the policy. *)
Definition is_selection_call (ev : Ev) : bool :=
  match ev with
  | StackAppend _ _ | StackEval _ | ActionSpaceSample _
  | ExplorerSample _ _ _ | AlgoSampleAction _ _ | AlgoPredict _ _ => true
  | _ => false
  end.

(** [buffer.append] or [demo_buffer.append] was called. *)
Definition is_append (ev : Ev) : bool :=
  match ev with BufferAppend _ _ _ => true | _ => false end.

(** [env.step] was called. *)
Definition is_env_step (ev : Ev) : bool :=
  match ev with EnvStep _ _ => true | _ => false end.





(** The transitions appended to buffer [b], in order. *)
Fixpoint appended (b : buffer_ref) (evs : list Ev) : list (transition Obs) :=
  match evs with
  | [] => []
  | BufferAppend b' t _ :: evs' =>
      match b, b' with
      | Primary, Primary | Demo, Demo => t :: appended b evs'
      | _, _ => appended b evs'
      end
  | _ :: evs' => appended b evs'
  end.

(** The arguments given to [env.step], in order. *)
Fixpoint stepped_with (evs : list Ev) : list vec :=
  match evs with
  | [] => []
  | EnvStep a _ :: evs' => a :: stepped_with evs'
  | _ :: evs' => stepped_with evs'
  end.

Definition count (p : Ev -> bool) (evs : list Ev) : nat :=
  List.length (filter p evs).
End Observations.

(** The transition a training or collection step stores: [obs] and
    [action] of the step, and what [env.step] returned, after the
    TimeLimit case. *)
Definition stored {Obs : Type} (timelimit_aware : bool) (obs : Obs)
    (action : vec) (rw : Q) (term : bool) (info : dict bool)
    : transition Obs :=
  {| t_observation := obs;
     t_action := action;
     t_reward := rw;
     t_terminal := snd (timelimit_case timelimit_aware term info);
     t_clip_episode := fst (timelimit_case timelimit_aware term info) |}.

(** Every call made by program [m], from any world, satisfies [P]. *)
Definition emits {W Ev A : Type} (P : Ev -> Prop) (m : M W Ev A) : Prop :=
  forall w, Forall P (calls (m w)).

(** The update trigger in the words of the specification:
    [total_step > update_start_step], [len(buffer) > batch_size] and
    [total_step % update_interval == 0]. *)
Definition update_due (update_start_step update_interval batch_size : Z)
    (total_step len_buffer : Z) : bool :=
  (total_step >? update_start_step)
  && (len_buffer >? batch_size)
  && (total_step mod update_interval =? 0).




(* ================================================================== *)
(** * A small concrete world

    A deterministic environment with a one-dimensional action space
    [[-2, 2]], list buffers and a logger without effect on the world.  It
    is used to run the orchestrators on concrete inputs. *)

Module Toy.
Record world : Type := {
  env_time : Z;
  primary : list (transition Z);
  demonstration : list (transition Z);
  built : bool
}.

Definition init : world :=
  {| env_time := 0; primary := []; demonstration := []; built := false |}.

Definition set_time (t : Z) (w : world) : world :=
  {| env_time := t; primary := w.(primary);
     demonstration := w.(demonstration); built := w.(built) |}.

Definition push (b : buffer_ref) (t : transition Z) (w : world) : world :=
  match b with
  | Primary =>
      {| env_time := w.(env_time); primary := w.(primary) ++ [t];
         demonstration := w.(demonstration); built := w.(built) |}
  | Demo =>
      {| env_time := w.(env_time); primary := w.(primary);
         demonstration := w.(demonstration) ++ [t]; built := w.(built) |}
  end.

Definition set_built (w : world) : world :=
  {| env_time := w.(env_time); primary := w.(primary);
     demonstration := w.(demonstration); built := true |}.

Definition contents (b : buffer_ref) (w : world) : list (transition Z) :=
  match b with Primary => w.(primary) | Demo => w.(demonstration) end.

Definition nop (w : world) : result unit * world := (Ok tt, w).

Section Knobs.
(** Shape of the observations, the time at which [env.step] raises
    (never if negative), the content of the demonstration file. *)
Variable shape : list Z.
Variable fail_at : Z.
Variable file : list (demo Z).

(** The environment counts its steps; the observation is the count.
    Every third step is terminal, every fourth is truncated by the
    time limit. *)
Definition step (a : vec) (w : world) : result (step_result Z) * world :=
  if w.(env_time) =? fail_at then (Raise (Raised "EnvError"), w)
  else
    let t := w.(env_time) + 1 in
    (Ok (t, 1%Q, t mod 3 =? 0,
         if t mod 4 =? 0 then [("TimeLimit.truncated"%string, true)]
         else []),
     set_time t w).

Definition collab : Collab world Z (transition Z) (list (transition Z)) :=
  {| env_observation_shape := shape;
     env_action_space := {| low := [-2 # 1]; high := [2 # 1] |};
     env_action_space_sample := fun w => (Ok [1 # 1], w);
     env_reset := fun w => (Ok 0, w);
     env_step := step;
     astype_f4 := fun o => o;
     algo_class_name := "SAC";
     algo_scaler := false;
     scaler_fit_with_env := nop;
     algo_action_scaler := false;
     action_scaler_fit_with_env := nop;
     algo_impl_is_none := fun w => negb w.(built);
     algo_build_with_env := fun w => (Ok tt, set_built w);
     algo_set_active_logger := nop;
     algo_save_params := nop;
     algo_n_frames := 1;
     algo_n_steps := 1;
     algo_gamma := 99 # 100;
     algo_batch_size := 1;
     algo_sample_action := fun _ w => (Ok [[1 # 2]], w);
     algo_predict := fun _ w => (Ok [[0 # 1]], w);
     algo_update := fun _ _ _ w => (Ok [("loss"%string, 1 # 1)], w);
     replay_buffer_new := fun _ => nop;
     buffer_len := fun b w => Z.of_nat (List.length (contents b w));
     buffer_append := fun b t w => (Ok tt, push b t w);
     buffer_sample :=
       fun b n _ w => (Ok (firstn (Z.to_nat n) (contents b w)), w);
     buffer_sample_trainsitions :=
       fun b n _ w => (Ok (firstn (Z.to_nat n) (contents b w)), w);
     buffer_to_minibatch := fun _ ts _ w => (Ok ts, w);
     buffer_clip_episode := fun _ => nop;
     stack_new := fun _ => nop;
     stack_append := fun _ => nop;
     stack_eval := fun w => (Ok w.(env_time), w);
     stack_clear := nop;
     logger_new := fun _ => nop;
     logger_add_metric := fun _ _ => nop;
     logger_save_model := fun _ => nop;
     logger_commit := fun _ _ => nop;
     logger_close := nop;
     np_load := fun _ w => (Ok file, w) |}.
End Knobs.

(** An explorer that always proposes [0.25]. *)
Definition quarter (x : list Z) (total_step : Z) (w : world)
    : result (list vec) * world :=
  (Ok [[1 # 4]], w).

(** [train_single_env] arguments with the defaults of the source, for
    [n_steps] steps. *)
Definition defaults (n : Z) : train_args world Z :=
  {| explorer := None;
     n_steps := n;
     n_steps_per_epoch := 10000;
     update_interval := 1;
     update_start_step := 0;
     random_steps := 0;
     eval_env := None;
     save_interval := 1;
     experiment_name := None;
     timelimit_aware := true;
     callback := None;
     load_demo := None;
     bc_loss := false;
     utd := 1 |}.

Definition with_explorer (n random : Z) : train_args world Z :=
  {| explorer := Some quarter;
     n_steps := n;
     n_steps_per_epoch := 10000;
     update_interval := 1;
     update_start_step := 0;
     random_steps := random;
     eval_env := None;
     save_interval := 1;
     experiment_name := None;
     timelimit_aware := true;
     callback := None;
     load_demo := None;
     bc_loss := false;
     utd := 1 |}.

Definition with_random (n random : Z) : train_args world Z :=
  {| explorer := None;
     n_steps := n;
     n_steps_per_epoch := 10000;
     update_interval := 1;
     update_start_step := 0;
     random_steps := random;
     eval_env := None;
     save_interval := 1;
     experiment_name := None;
     timelimit_aware := true;
     callback := None;
     load_demo := None;
     bc_loss := false;
     utd := 1 |}.


(** A demonstration file of two episodes of three steps. *)
Definition episode (o : Z) : demo Z :=
  {| demo_obs := [o; o + 1; o + 2];
     demo_act := [[1 # 1]; [0 # 1]; [2 # 1]];
     demo_rew := [0 # 1; 0 # 1; 1 # 1];
     demo_done := [false; false; true] |}.

Definition two_episodes : list (demo Z) := [episode 10; episode 20].

Definition with_bc (n : Z) : train_args world Z :=
  {| explorer := None;
     n_steps := n;
     n_steps_per_epoch := 10000;
     update_interval := 1;
     update_start_step := 0;
     random_steps := 0;
     eval_env := None;
     save_interval := 1;
     experiment_name := None;
     timelimit_aware := true;
     callback := None;
     load_demo := Some "demo.npy"%string;
     bc_loss := true;
     utd := 1 |}.

Definition collect_defaults (n : Z) : collect_args world Z :=
  {| c_explorer := None;
     c_deterministic := false;
     c_n_steps := n;
     c_timelimit_aware := true |}.
End Toy.

(* ================================================================== *)
(** * Further observations on the record of calls *)

Section MoreObservations.
Context {Obs Trans Batch : Type}.
Local Abbreviation Ev := (event Obs Trans Batch).

(** [algo.build_with_env] was called. *)
Definition is_build (ev : Ev) : bool :=
  match ev with BuildWithEnv _ => true | _ => false end.

(** [callback] was called. *)
Definition is_callback (ev : Ev) : bool :=
  match ev with Callback _ _ _ => true | _ => false end.

(** [logger.commit] was called. *)
Definition is_commit (ev : Ev) : bool :=
  match ev with Commit _ _ _ => true | _ => false end.

(** [logger.save_model] or [logger.commit] was called. *)
Definition is_checkpoint (ev : Ev) : bool :=
  match ev with SaveModel _ _ | Commit _ _ _ => true | _ => false end.

(** A call that belongs to learning: loading demonstrations, creating a
    buffer, drawing a batch, updating the algorithm, the callback and
    the evaluation. *)
Definition is_learning_call (ev : Ev) : bool :=
  match ev with
  | NpLoad _ _ | ReplayBufferNew _ _ | BufferSampleTransitions _ _ _ _
  | BufferToMinibatch _ _ _ _ | BufferSample _ _ _ _ | AlgoUpdate _ _ _ _
  | Callback _ _ _ | EvalScorer _ => true
  | _ => false
  end.

(** A call on the demonstration buffer. *)
Definition on_demo_buffer (ev : Ev) : bool :=
  match ev with
  | BufferAppend Demo _ _ | BufferSampleTransitions Demo _ _ _
  | BufferToMinibatch Demo _ _ _ | BufferSample Demo _ _ _
  | BufferClipEpisode Demo _ => true
  | _ => false
  end.

(** The record of [logger.add_metric(name, val)] for an entry of the
    loss dictionary, when the call returned. *)
Definition metric_logged (entry : string * Q) : Ev :=
  AddMetric (fst entry) (snd entry) (Ok tt).
End MoreObservations.

(** A second set of [train_single_env] arguments for the concrete world:
    the epoch length, the two intervals, a callback without effect and
    the demonstration switches are free. *)
Module Scenario.
Definition quiet (epoch total_step : Z) (w : Toy.world)
    : result unit * Toy.world :=
  (Ok tt, w).

Definition args (n per_epoch interval save : Z) (with_callback : bool)
    (demo_file : option string) (bc : bool) : train_args Toy.world Z :=
  {| explorer := None;
     n_steps := n;
     n_steps_per_epoch := per_epoch;
     update_interval := interval;
     update_start_step := 0;
     random_steps := 0;
     eval_env := None;
     save_interval := save;
     experiment_name := None;
     timelimit_aware := true;
     callback := if with_callback then Some quiet else None;
     load_demo := demo_file;
     bc_loss := bc;
     utd := 1 |}.
End Scenario.

(* ================================================================== *)
(** * Facts about the orchestration monad *)

Section MonadFacts.
Context {W Ev : Type}.
Local Abbreviation Prog := (M W Ev).

Lemma calls_bind A B (m : Prog A) (f : A -> Prog B) w :
  calls (bind m f w) =
  calls (m w) ++
  match outcome (m w) with
  | Ok x => calls (f x (world_of (m w)))
  | Raise _ => []
  end.
Proof.
  unfold bind, calls, outcome, world_of.
  destruct (m w) as [[[x | e] w1] l1]; simpl.
  - destruct (f x w1) as [[r2 w2] l2]; reflexivity.
  - now rewrite app_nil_r.
Qed.

Lemma bind_ok A B (m : Prog A) (f : A -> Prog B) w x w1 l1 :
  m w = (Ok x, w1, l1) ->
  bind m f w =
  (outcome (f x w1), world_of (f x w1), l1 ++ calls (f x w1)).
Proof.
  intros H. unfold bind, outcome, world_of, calls. rewrite H.
  destruct (f x w1) as [[r2 w2] l2]; reflexivity.
Qed.

Lemma bind_raise A B (m : Prog A) (f : A -> Prog B) w e w1 l1 :
  m w = (Raise e, w1, l1) -> bind m f w = (Raise e, w1, l1).
Proof. intros H. unfold bind. now rewrite H. Qed.

Lemma bind_inv A B (m : Prog A) (f : A -> Prog B) w r w2 evs :
  bind m f w = (r, w2, evs) ->
  (exists e, m w = (Raise e, w2, evs) /\ r = Raise e) \/
  (exists x w1 l1 l2,
     m w = (Ok x, w1, l1) /\ f x w1 = (r, w2, l2) /\ evs = l1 ++ l2).
Proof.
  unfold bind. destruct (m w) as [[[x | e] w1] l1].
  - destruct (f x w1) as [[r2 w2'] l2] eqn:E. intros H.
    inversion H; subst. right. now exists x, w1, l1, l2.
  - intros H. inversion H; subst. left. now exists e.
Qed.

Lemma call_inv A (mk : result A -> Ev) (h : W -> result A * W) w r w' evs :
  call mk h w = (r, w', evs) -> h w = (r, w') /\ evs = [mk r].
Proof.
  unfold call. destruct (h w) as [r0 w0]. intros H. now inversion H.
Qed.

Lemma ret_inv A (x : A) w r w' (evs : list Ev) :
  (ret x : Prog A) w = (r, w', evs) -> r = Ok x /\ w' = w /\ evs = [].
Proof. unfold ret. intros H. now inversion H. Qed.

Lemma lift_inv A (x : result A) w r w' (evs : list Ev) :
  (lift x : Prog A) w = (r, w', evs) -> r = x /\ w' = w /\ evs = [].
Proof. unfold lift. intros H. now inversion H. Qed.

Lemma triple_eta A (x : result A * W * list Ev) :
  x = (outcome x, world_of x, calls x).
Proof. now destruct x as [[r w] l]. Qed.

Lemma bind_ret A B (x : A) (f : A -> Prog B) w : bind (ret x) f w = f x w.
Proof. unfold bind, ret. now destruct (f x w) as [[r2 w2] l2]. Qed.

Lemma bind_reads A B (g : W -> A) (f : A -> Prog B) w :
  bind (reads g) f w = f (g w) w.
Proof. unfold bind, reads. now destruct (f (g w) w) as [[r2 w2] l2]. Qed.

Lemma bind_lift_ok A B (x : A) (f : A -> Prog B) w :
  bind (lift (Ok x)) f w = f x w.
Proof. apply bind_ret. Qed.

Lemma bind_lift_raise A B e (f : A -> Prog B) w :
  bind (lift (Raise e)) f w = (Raise e, w, []).
Proof. reflexivity. Qed.


(** ** Properties of all calls of a program *)

Variable P : Ev -> Prop.

Lemma emits_ret A (x : A) : emits P (ret x : Prog A).
Proof. intros w. constructor. Qed.

Lemma emits_lift A (r : result A) : emits P (lift r : Prog A).
Proof. intros w. constructor. Qed.

Lemma emits_reads A (f : W -> A) : emits P (reads f : Prog A).
Proof. intros w. constructor. Qed.

Lemma emits_read_local A name (v : option A) :
  emits P (read_local name v : Prog A).
Proof. destruct v; [apply emits_ret | apply emits_lift]. Qed.

Lemma emits_call A (mk : result A -> Ev) (h : W -> result A * W) :
  (forall r, P (mk r)) -> emits P (call mk h).
Proof.
  intros H w. unfold call, calls. destruct (h w) as [r w']. simpl.
  constructor; [apply H | constructor].
Qed.

Lemma emits_bind A B (m : Prog A) (f : A -> Prog B) :
  emits P m -> (forall x, emits P (f x)) -> emits P (bind m f).
Proof.
  intros Hm Hf w. rewrite calls_bind. apply Forall_app. split.
  - apply Hm.
  - destruct (outcome (m w)); [apply Hf | constructor].
Qed.

Lemma emits_at A (m : Prog A) w r w' l :
  emits P m -> m w = (r, w', l) -> Forall P l.
Proof. intros H E. specialize (H w). now rewrite E in H. Qed.

Lemma emits_for_each A S (xs : list A) (body : A -> S -> Prog S) :
  (forall x, In x xs -> forall s, emits P (body x s)) ->
  forall s, emits P (for_each xs body s).
Proof.
  induction xs as [|x xs IH]; intros H s; simpl.
  - apply emits_ret.
  - apply emits_bind.
    + apply H. now left.
    + intros s'. apply IH. intros y Hy. apply H. now right.
Qed.
End MonadFacts.

Section CountFacts.
Context {Obs Trans Batch : Type}.
Local Abbreviation Ev := (event Obs Trans Batch).

Lemma count_app (p : Ev -> bool) l1 l2 :
  count p (l1 ++ l2) = (count p l1 + count p l2)%nat.
Proof. unfold count. now rewrite filter_app, length_app. Qed.

Lemma count_none (p : Ev -> bool) l :
  Forall (fun ev => p ev = false) l -> count p l = 0%nat.
Proof.
  unfold count. induction 1 as [|ev l H _ IH]; simpl; [reflexivity|].
  now rewrite H.
Qed.

Lemma count_bind_head W A B (p : Ev -> bool) (m : M W Ev A)
    (f : A -> M W Ev B) w :
  emits (fun ev => p ev = false) m ->
  count p (calls (bind m f w)) =
  match outcome (m w) with
  | Ok x => count p (calls (f x (world_of (m w))))
  | Raise _ => 0%nat
  end.
Proof.
  intros H. rewrite calls_bind, count_app, (count_none _ (H w)).
  now destruct (outcome (m w)).
Qed.

Lemma count_bind_tail W A B (p : Ev -> bool) (m : M W Ev A)
    (f : A -> M W Ev B) w :
  (forall x, emits (fun ev => p ev = false) (f x)) ->
  count p (calls (bind m f w)) = count p (calls (m w)).
Proof.
  intros H. rewrite calls_bind, count_app.
  destruct (outcome (m w)) as [x|e]; simpl.
  - now rewrite (count_none _ (H x _)), Nat.add_0_r.
  - now rewrite Nat.add_0_r.
Qed.

Lemma appended_app b (l1 l2 : list Ev) :
  appended b (l1 ++ l2) = appended b l1 ++ appended b l2.
Proof.
  induction l1 as [|ev l1 IH]; simpl; [reflexivity|].
  destruct ev; simpl; try apply IH.
  destruct b, b0; simpl; now rewrite IH.
Qed.
End CountFacts.

(* ================================================================== *)
(** * ActionRescaler *)

Section Rescaler.
Local Open Scope Q_scope.









End Rescaler.

(* ================================================================== *)
(** * Fitted Q evaluation *)

Section FQEGuards.
Context {X Act Tensor Impl : Type}.
Variable ALGO_NOT_GIVEN_ERROR : string.
Variable IMPL_NOT_INITIALIZED_ERROR : string.
Variable convert_to_torch : Act -> Tensor.
Variable impl_update :
  FQE.TorchMiniBatch X -> Tensor -> Impl -> result Q * Impl.
Variable impl_update_target : Impl -> result unit * Impl.

(** C9.  Without a wrapped algorithm, [predict], [sample_action],
    [save_policy] and [inner_update] raise the assertion error that
    carries [ALGO_NOT_GIVEN_ERROR], before anything is dereferenced and
    leaving the object as it was; with one, [predict] and
    [sample_action] return what the wrapped algorithm returns. *)
Theorem fqe_requires_algorithm
    (self : FQE.FQEBase X Act Impl) (x : X) (fname : string)
    (batch : FQE.TorchMiniBatch X) :
  (FQE._algo self = None ->
     FQE.predict ALGO_NOT_GIVEN_ERROR self x
     = Raise (AssertionError ALGO_NOT_GIVEN_ERROR) /\
     FQE.sample_action ALGO_NOT_GIVEN_ERROR self x
     = Raise (AssertionError ALGO_NOT_GIVEN_ERROR) /\
     FQE.save_policy ALGO_NOT_GIVEN_ERROR self fname
     = Raise (AssertionError ALGO_NOT_GIVEN_ERROR) /\
     FQE.inner_update ALGO_NOT_GIVEN_ERROR IMPL_NOT_INITIALIZED_ERROR
       convert_to_torch impl_update impl_update_target self batch
     = (Raise (AssertionError ALGO_NOT_GIVEN_ERROR), self)) /\
  (forall algo, FQE._algo self = Some algo ->
     FQE.predict ALGO_NOT_GIVEN_ERROR self x = FQE.algo_predict_ algo x /\
     FQE.sample_action ALGO_NOT_GIVEN_ERROR self x
     = FQE.algo_sample_action_ algo x).
Proof.
  split.
  - intros H.
    unfold FQE.predict, FQE.sample_action, FQE.save_policy,
      FQE.inner_update.
    rewrite H. simpl. auto.
  - intros algo H. unfold FQE.predict, FQE.sample_action.
    rewrite H. simpl. auto.
Qed.
End FQEGuards.

Lemma fqe_requires_algorithm_witness :
  let greedy : FQE.wrapped_algo Z Z :=
    {| FQE.algo_predict_ := fun x => Ok (x + 1);
       FQE.algo_sample_action_ := fun x => Ok (x + 2);
       FQE.algo_save_policy_ := fun _ => Ok tt |} in
  let bare : FQE.FQEBase Z Z unit :=
    {| FQE._algo := None; FQE._impl := Some tt; FQE._grad_step := 0;
       FQE.target_update_interval := 100 |} in
  let full : FQE.FQEBase Z Z unit :=
    {| FQE._algo := Some greedy; FQE._impl := Some tt; FQE._grad_step := 0;
       FQE.target_update_interval := 100 |} in
  FQE.predict "not given" bare 5 = Raise (AssertionError "not given") /\
  FQE.predict "not given" full 5 = Ok 6 /\
  FQE.sample_action "not given" full 5 = Ok 7.
Proof.
  intros greedy bare full.
  pose (upd := fun (_ : FQE.TorchMiniBatch Z) (_ : Z) (i : unit) =>
                 (Ok (1 # 1), i)).
  pose (tgt := fun i : unit => (Ok tt, i)).
  pose (b := {| FQE.numpy_batch := Some {| FQE.next_observations := 5 |} |}).
  destruct (fqe_requires_algorithm "not given" "not initialized"
              (fun v : Z => v) upd tgt bare 5 "policy.pt" b) as [Hnone _].
  destruct (fqe_requires_algorithm "not given" "not initialized"
              (fun v : Z => v) upd tgt full 5 "policy.pt" b) as [_ Hsome].
  destruct (Hnone eq_refl) as [Hp _].
  destruct (Hsome greedy eq_refl) as [Hq Hs].
  exact (conj Hp (conj Hq Hs)).
Defined.

(* ================================================================== *)
(** * The training loop: calls that never happen in a phase *)

Ltac emits_step :=
  match goal with
  | |- emits _ (bind _ _) => apply emits_bind; [|intros]
  | |- emits _ (ret _) => apply emits_ret
  | |- emits _ (lift _) => apply emits_lift
  | |- emits _ (reads _) => apply emits_reads
  | |- emits _ (read_local _ _) => apply emits_read_local
  | |- emits _ (call _ _) => apply emits_call; intros; simpl
  | |- emits _ (for_each _ _ _) => apply emits_for_each; intros
  | |- emits _ (match (if ?c then _ else _) with _ => _ end) =>
      destruct c; cbv beta iota
  | |- emits _ (if ?c then _ else _) => destruct c
  | |- emits _ (match ?x with _ => _ end) => destruct x
  | |- emits _ ((let '(_, _) := ?x in _) _) => destruct x
  end.

Ltac unfold_train :=
  unfold train_run, train_setup, training_loop, train_step, interaction,
    update_step, update_parameters, sample_batch, call_callback,
    end_of_epoch, reset_if_terminated, sample_exploration_action,
    load_demos, append_demos, append_demo, feed_observation, _setup_algo,
    timelimit_case.

Ltac solve_emits := unfold_train; repeat emits_step; try reflexivity.

Section Phases.
Context {W Obs Trans Batch : Type}.
Variable C : Collab W Obs Trans Batch.
Variable a : train_args W Obs.
Local Abbreviation Ev := (event Obs Trans Batch).

Lemma train_run_no_cleanup :
  emits (fun ev : Ev => is_cleanup ev = false) (train_run C a).
Proof. solve_emits. Qed.

Lemma interaction_no_update total_step st :
  emits (fun ev : Ev => is_update ev = false) (interaction C a total_step st).
Proof. solve_emits. Qed.

Lemma sample_batch_no_update demo_buffer :
  emits (fun ev : Ev => is_update ev = false) (sample_batch C a demo_buffer).
Proof. solve_emits. Qed.

End Phases.

(* ================================================================== *)
(** * Update scheduling *)

Section UpdateTrigger.
Context {W Obs Trans Batch : Type}.
Variable C : Collab W Obs Trans Batch.
Variable a : train_args W Obs.
Local Abbreviation Ev := (event Obs Trans Batch).

Lemma update_parameters_count demo_buffer w :
  count is_update (calls (update_parameters C a demo_buffer w)) =
  (if is_ok (outcome (sample_batch C a demo_buffer w)) then 1 else 0)%nat.
Proof.
  unfold update_parameters.
  rewrite count_bind_head by apply sample_batch_no_update.
  destruct (outcome (sample_batch C a demo_buffer w)) as [[batch db]|e];
    simpl; [|reflexivity].
  rewrite count_bind_tail by (intros; solve_emits).
  unfold call. now destruct (C.(algo_update) batch db a.(utd) _).
Qed.

Lemma update_step_skipped demo_buffer total_step w :
  update_due a.(update_start_step) a.(update_interval) C.(algo_batch_size)
    total_step (C.(buffer_len) Primary w) = false ->
  a.(update_interval) <> 0 ->
  update_step C a demo_buffer total_step w = (Ok tt, w, []).
Proof.
  unfold update_due, update_step. intros Hdue Hz. rewrite bind_reads.
  destruct ((total_step >? a.(update_start_step))
            && (C.(buffer_len) Primary w >? C.(algo_batch_size)));
    [|reflexivity].
  simpl in Hdue. unfold py_mod.
  destruct (Z.eqb_spec a.(update_interval) 0) as [|_]; [contradiction|].
  rewrite bind_lift_ok, Hdue. reflexivity.
Qed.

Lemma update_step_fires demo_buffer total_step w :
  update_due a.(update_start_step) a.(update_interval) C.(algo_batch_size)
    total_step (C.(buffer_len) Primary w) = true ->
  a.(update_interval) <> 0 ->
  update_step C a demo_buffer total_step w
  = update_parameters C a demo_buffer w.
Proof.
  unfold update_due, update_step. intros Hdue Hz. rewrite bind_reads.
  apply andb_true_iff in Hdue as [Hcond Hmod]. rewrite Hcond.
  unfold py_mod.
  destruct (Z.eqb_spec a.(update_interval) 0) as [|_]; [contradiction|].
  rewrite bind_lift_ok, Hmod. reflexivity.
Qed.

Lemma update_step_short_circuit demo_buffer total_step w :
  total_step <= a.(update_start_step) \/
  C.(buffer_len) Primary w <= C.(algo_batch_size) ->
  update_step C a demo_buffer total_step w = (Ok tt, w, []).
Proof.
  intros H. unfold update_step. rewrite bind_reads.
  assert (E : (total_step >? a.(update_start_step))
              && (C.(buffer_len) Primary w >? C.(algo_batch_size)) = false)
    by (apply andb_false_iff; lia).
  now rewrite E.
Qed.

End UpdateTrigger.


(* ================================================================== *)
(** * The shape of one interaction with the environment *)

Tactic Notation "inv_bind" hyp(H) "as" simple_intropattern(x) ident(w)
    ident(l) ident(R) :=
  apply bind_inv in H;
  destruct H as [(? & H & ?) | (x & w & l & ? & R & H & ?)];
  subst; cbv beta iota in H.

Ltac inv_call H :=
  let E := fresh "E" in
  apply call_inv in H; destruct H as [H E]; subst.

Ltac inv_ret H :=
  first [apply ret_inv in H | apply lift_inv in H];
  destruct H as (? & ? & ?); subst.

Section InteractionShape.
Context {W Obs Trans Batch : Type}.
Variable C : Collab W Obs Trans Batch.
Variable a : train_args W Obs.
Local Abbreviation Ev := (event Obs Trans Batch).

Lemma feed_observation_selects o :
  emits (fun ev : Ev => is_selection_call ev = true) (feed_observation C o).
Proof. solve_emits. Qed.

Lemma sample_exploration_action_selects total_step fed un :
  emits (fun ev : Ev => is_selection_call ev = true)
    (sample_exploration_action C a total_step fed un).
Proof. solve_emits. Qed.

Lemma feed_observation_stored o w obs fed w1 l :
  feed_observation C o w = (Ok (obs, fed), w1, l) ->
  obs = if is_image C then o else C.(astype_f4) o.
Proof.
  unfold feed_observation. destruct (is_image C); intros H.
  - inv_bind H as [] w2 l2 R2; [discriminate|].
    inv_bind H as fed' w3 l3 R3; [discriminate|].
    inv_ret H. congruence.
  - inv_ret H. congruence.
Qed.

Lemma read_local_inv A name (v : option A) (w : W) r w' (l : list Ev) :
  read_local name v w = (r, w', l) ->
  w' = w /\ l = [] /\
  match v with
  | Some x => r = Ok x
  | None => r = Raise (UnboundLocalError name)
  end.
Proof. destruct v; simpl; intros H; inv_ret H; auto. Qed.

(** Every run of [interaction] has one of three shapes: it raised while
    the action was selected; [env.step] raised; or [env.step] returned,
    the transition was appended, and the episode reset ran if the
    append returned. *)
Lemma interaction_inv total_step st w r w' evs :
  interaction C a total_step st w = (r, w', evs) ->
  exists l0 : list Ev,
    Forall (fun ev => is_selection_call ev = true) l0 /\
    ((exists e, r = Raise e /\ evs = l0) \/
     (exists u e, r = Raise e /\ evs = l0 ++ [EnvStep u (Raise e)]) \/
     (exists action u o rw term info w3 ra w4,
        let obs := if is_image C then st.(observation)
                   else C.(astype_f4) st.(observation) in
        let t := stored a.(timelimit_aware) obs action rw term info in
        C.(buffer_append) Primary t w3 = (ra, w4) /\
        match ra with
        | Raise e =>
            r = Raise e /\ w' = w4 /\
            evs = l0 ++ [EnvStep u (Ok (o, rw, term, info));
                         BufferAppend Primary t ra]
        | Ok _ =>
            exists r5 l5,
              reset_if_terminated C t.(t_clip_episode) o
                (st.(rollout_return) + rw)%Q (Some u) w4 = (r5, w', l5) /\
              evs = l0 ++ [EnvStep u (Ok (o, rw, term, info));
                           BufferAppend Primary t ra] ++ l5 /\
              r = match r5 with
                  | Ok st' =>
                      match py_floordiv total_step a.(n_steps_per_epoch) with
                      | Ok epoch => Ok (st', epoch)
                      | Raise e => Raise e
                      end
                  | Raise e => Raise e
                  end
        end)).
Proof.
  intros H. unfold interaction in H.
  inv_bind H as [obs fed] w1 l1 R1.
  { exists evs. split;
      [eapply emits_at; [apply feed_observation_selects|eassumption]|].
    left. eauto. }
  assert (S1 : Forall (fun ev : Ev => is_selection_call ev = true) l1)
    by (eapply emits_at; [apply feed_observation_selects|exact R1]).
  apply feed_observation_stored in R1. subst obs.
  inv_bind H as [action unscaled] w2 l2 R2.
  { eexists. split; [apply Forall_app; split; [exact S1|];
      eapply emits_at; [apply sample_exploration_action_selects|eassumption]|].
    left. eauto. }
  assert (S2 : Forall (fun ev : Ev => is_selection_call ev = true) l2)
    by (eapply emits_at;
        [apply sample_exploration_action_selects|exact R2]).
  exists (l1 ++ l2). split; [now apply Forall_app|].
  inv_bind H as u w3 l3 R3.
  { apply read_local_inv in H as (-> & -> & _).
    left. rewrite app_nil_r. eauto. }
  apply read_local_inv in R3 as (-> & -> & Hu).
  destruct unscaled as [u'|]; [|discriminate]. injection Hu as <-.
  simpl.
  inv_bind H as [[[o rw] term] info] w4 l4 R4.
  { inv_call H. right. left. do 2 eexists. split; [reflexivity|].
    now rewrite app_assoc. }
  inv_call R4. right. right.
  destruct (C.(buffer_append) Primary
              (stored a.(timelimit_aware)
                      (if is_image C then observation st
                       else astype_f4 C (observation st))
                      action rw term info) w4)
    as [ra w5] eqn:EA.
  exists action, u, o, rw, term, info, w4, ra, w5. cbv zeta.
  split; [exact EA|].
  unfold stored in *.
  destruct (timelimit_case _ _ _) as [clip terminal] eqn:TL.
  simpl in *.
  inv_bind H as [] w6 l6 R6.
  { inv_call H. rewrite EA in H. injection H as -> ->.
    repeat split. now rewrite <- app_assoc. }
  inv_call R6. rewrite EA in R6. injection R6 as -> ->.
  inv_bind H as st' w7 l7 R7.
  { do 2 eexists. split; [exact H|]. split; [|reflexivity].
    now rewrite <- !app_assoc. }
  exists (Ok st'), l7.
  inv_bind H as epoch w8 l8 R8.
  { apply lift_inv in H as (Hr & -> & ->). split; [exact R7|]. split.
    - rewrite <- !app_assoc. simpl. now rewrite app_nil_r.
    - now rewrite <- Hr. }
  apply lift_inv in R8 as (Hr & -> & ->).
  apply ret_inv in H as (-> & -> & ->). split; [exact R7|]. split.
  - rewrite <- !app_assoc. simpl. now rewrite !app_nil_r.
  - now rewrite <- Hr.
Qed.
End InteractionShape.

(* ================================================================== *)
(** * Episode boundaries of the training loop *)

Section EpisodeBoundary.
Context {W Obs Trans Batch : Type}.
Variable C : Collab W Obs Trans Batch.
Variable a : train_args W Obs.
Local Abbreviation Ev := (event Obs Trans Batch).

Lemma reset_if_terminated_no_append clip o rr un :
  emits (fun ev : Ev => is_append ev = false)
    (reset_if_terminated C clip o rr un).
Proof. solve_emits. Qed.

Lemma after_interaction_no_append demo_buffer total_step epoch
    (st' : locals Obs) :
  emits (fun ev : Ev => is_append ev = false)
    (update_step C a demo_buffer total_step ;;
     call_callback a epoch total_step ;;
     end_of_epoch C a epoch total_step ;;
     ret st').
Proof. solve_emits. Qed.

Lemma selection_is_no_append (l : list Ev) b t ra :
  Forall (fun ev => is_selection_call ev = true) l ->
  ~ In (BufferAppend b t ra) l.
Proof.
  intros F I. rewrite Forall_forall in F. apply F in I. discriminate.
Qed.

Lemma no_append_not_in (l : list Ev) b t ra :
  Forall (fun ev => is_append ev = false) l ->
  ~ In (BufferAppend b t ra) l.
Proof.
  intros F I. rewrite Forall_forall in F. apply F in I. discriminate.
Qed.

(** The only [append] of an interaction is the one that follows a
    successful [env.step], with the transition [stored]. *)
Lemma interaction_append total_step st w b t ra :
  In (BufferAppend b t ra) (calls (interaction C a total_step st w)) ->
  b = Primary /\
  exists action u o rw term info,
    In (EnvStep u (Ok (o, rw, term, info)))
      (calls (interaction C a total_step st w)) /\
    t = stored a.(timelimit_aware)
          (if is_image C then st.(observation)
           else C.(astype_f4) st.(observation))
          action rw term info.
Proof.
  intros I.
  pose proof (triple_eta (interaction C a total_step st w)) as T.
  apply interaction_inv in T
    as (l0 & S0 & [(e & _ & E) | [(u & e & _ & E) | H]]).
  - rewrite E in I. now apply selection_is_no_append in I.
  - rewrite E in I. apply in_app_iff in I as [I | [I | []]].
    + now apply selection_is_no_append in I.
    + discriminate.
  - destruct H as (action & u & o & rw & term & info & w3 & r0 & w4 & H).
    cbv zeta in H. destruct H as (EA & H).
    assert (forall l5,
               Forall (fun ev : Ev => is_append ev = false) l5 ->
               calls (interaction C a total_step st w) =
               l0 ++ [EnvStep u (Ok (o, rw, term, info));
                      BufferAppend Primary
                        (stored a.(timelimit_aware)
                           (if is_image C then st.(observation)
                            else C.(astype_f4) st.(observation))
                           action rw term info) r0] ++ l5 ->
               b = Primary /\
               exists action u o rw term info,
                 In (EnvStep u (Ok (o, rw, term, info)))
                   (calls (interaction C a total_step st w)) /\
                 t = stored a.(timelimit_aware)
                       (if is_image C then st.(observation)
                        else C.(astype_f4) st.(observation))
                       action rw term info) as K.
    { intros l5 F5 E. rewrite E in I.
      apply in_app_iff in I as [I | [I | [I | I]]].
      - now apply selection_is_no_append in I.
      - discriminate.
      - injection I as <- <- <-. split; [reflexivity|].
        exists action, u, o, rw, term, info. split; [|reflexivity].
        rewrite E. apply in_app_iff. right. now left.
      - now apply no_append_not_in in I. }
    destruct r0 as [[]|e].
    + destruct H as (r5 & l5 & R5 & E & _). apply (K l5); [|exact E].
      eapply emits_at; [apply reset_if_terminated_no_append | exact R5].
    + destruct H as (_ & _ & E). apply (K []); [constructor|].
      now rewrite E.
Qed.

Lemma training_loop_boundary demo_buffer :
  emits (fun ev : Ev =>
           match ev with
           | BufferAppend Primary t _ =>
               t_terminal t = true -> t_clip_episode t = true
           | _ => True
           end)
    (training_loop C a demo_buffer).
Proof. unfold_train; repeat emits_step; auto. Qed.

Lemma appended_boundary (evs : list Ev) :
  Forall (fun ev : Ev =>
            match ev with
            | BufferAppend Primary t _ =>
                t_terminal t = true -> t_clip_episode t = true
            | _ => True
            end) evs ->
  Forall (fun t => t_terminal t = true -> t_clip_episode t = true)
    (appended Primary evs).
Proof.
  induction 1 as [|ev evs H _ IH]; simpl; [constructor|].
  destruct ev; try exact IH. destruct b; [|exact IH].
  now constructor.
Qed.

(** C3.  A transition appended by a step of the training loop goes to
    the primary buffer and is built from what [env.step] returned in
    that step: with [timelimit_aware] and the truncation flag in [info],
    [terminal] is false and [clip_episode] is true; otherwise both equal
    the returned [terminal].  Hence every transition appended by the
    loop has [clip_episode] whenever it has [terminal]. *)
Theorem appended_transition_flags (demo_buffer : option buffer_ref)
    (total_step : Z) (st : locals Obs) (w : W) :
  (forall b t ra,
     In (BufferAppend b t ra)
       (calls (train_step C a demo_buffer total_step st w)) ->
     b = Primary /\
     exists u o rw term info,
       In (EnvStep u (Ok (o, rw, term, info)))
         (calls (train_step C a demo_buffer total_step st w)) /\
       if a.(timelimit_aware) && dict_contains "TimeLimit.truncated" info
       then t_terminal t = false /\ t_clip_episode t = true
       else t_terminal t = term /\ t_clip_episode t = term) /\
  Forall (fun t => t_terminal t = true -> t_clip_episode t = true)
    (appended Primary (calls (training_loop C a demo_buffer w))).
Proof.
  split.
  - intros b t ra I. unfold train_step in *. rewrite calls_bind in *.
    apply in_app_iff in I as [I | I].
    + apply interaction_append in I
        as (-> & action & u & o & rw & term & info & IE & ->).
      split; [reflexivity|]. exists u, o, rw, term, info. split.
      * apply in_app_iff. now left.
      * unfold stored, timelimit_case.
        now destruct (a.(timelimit_aware) && dict_contains _ info).
    + exfalso. destruct (outcome _) as [[st' epoch]|e]; [|exact I].
      eapply no_append_not_in; [|exact I].
      apply after_interaction_no_append.
  - apply appended_boundary, training_loop_boundary.
Qed.
End EpisodeBoundary.

Lemma appended_transition_flags_witness :
  let C0 := Toy.collab [4] (-1) [] in
  let a0 := Toy.defaults 4 in
  let st := {| observation := 0; rollout_return := 0;
               unscaled_action := None |} in
  let w3 := Toy.set_time 3 Toy.init in
  let t := {| t_observation := 0; t_action := [1 # 2]; t_reward := 1;
              t_terminal := false; t_clip_episode := true |} in
  In (BufferAppend Primary t (Ok tt)) (calls (train_step C0 a0 None 4 st w3)) /\
  (Primary = Primary /\
   exists u o rw term info,
     In (EnvStep u (Ok (o, rw, term, info)))
       (calls (train_step C0 a0 None 4 st w3)) /\
     if a0.(timelimit_aware) && dict_contains "TimeLimit.truncated" info
     then t_terminal t = false /\ t_clip_episode t = true
     else t_terminal t = term /\ t_clip_episode t = term).
Proof.
  intros C0 a0 st w3 t.
  assert (I : In (BufferAppend Primary t (Ok tt))
                (calls (train_step C0 a0 None 4 st w3)))
    by (vm_compute; auto 10).
  split; [exact I|].
  exact (proj1 (appended_transition_flags C0 a0 None 4 st w3)
           Primary t (Ok tt) I).
Defined.

Section EpisodeReset.
Context {W Obs Trans Batch : Type}.
Variable C : Collab W Obs Trans Batch.
Variable a : train_args W Obs.
Local Abbreviation Ev := (event Obs Trans Batch).

Lemma reset_if_terminated_ok clip o rr un w (st' : locals Obs) w'
    (l : list Ev) :
  reset_if_terminated C clip o rr un w = (Ok st', w', l) ->
  if clip then
    exists o0,
      l = [EnvReset (Ok o0); AddMetric "rollout_return" rr (Ok tt)]
          ++ (if is_image C then [StackClear (Ok tt)] else []) /\
      st' = {| observation := o0; rollout_return := 0;
               unscaled_action := un |}
  else
    l = [] /\ w' = w /\
    st' = {| observation := o; rollout_return := rr;
             unscaled_action := un |}.
Proof.
  unfold reset_if_terminated. destruct clip; intros H.
  - inv_bind H as o0 w1 l1 R1; [discriminate|]. inv_call R1.
    inv_bind H as [] w2 l2 R2; [discriminate|]. inv_call R2.
    inv_bind H as [] w3 l3 R3; [discriminate|].
    apply ret_inv in H as (E & -> & ->). injection E as ->.
    exists o0. split; [|reflexivity]. simpl. do 2 f_equal.
    destruct (is_image C).
    + inv_call R3. now rewrite app_nil_r.
    + now apply ret_inv in R3 as (_ & _ & ->).
  - apply ret_inv in H as (E & -> & ->). now injection E as ->.
Qed.


End EpisodeReset.


(* ================================================================== *)
(** * Demonstrations and behaviour cloning *)

Section DemoBlender.
Context {W Obs Trans Batch : Type}.
Variable C : Collab W Obs Trans Batch.
Variable a : train_args W Obs.
Local Abbreviation Ev := (event Obs Trans Batch).

(** What one appended demonstration step holds. *)
Lemma demo_transition_ok (d : demo Obs) i t :
  demo_transition C d i = Ok t ->
  index d.(demo_obs) i = Ok t.(t_observation) /\
  (exists act, index d.(demo_act) i = Ok act /\
               scale_action C.(env_action_space) act = Ok t.(t_action)) /\
  index d.(demo_rew) i = Ok t.(t_reward) /\
  index d.(demo_done) i = Ok t.(t_terminal) /\
  t.(t_clip_episode) = t.(t_terminal).
Proof.
  unfold demo_transition.
  destruct (index d.(demo_obs) i) as [obs|]; [simpl|discriminate].
  destruct (index d.(demo_act) i) as [act|]; [simpl|discriminate].
  destruct (scale_action _ act) as [action|] eqn:S; [simpl|discriminate].
  destruct (index d.(demo_rew) i) as [rew|]; [simpl|discriminate].
  destruct (index d.(demo_done) i) as [done|]; [simpl|discriminate].
  intros E. injection E as <-. simpl. eauto 10.
Qed.

Lemma append_demo_steps b (d : demo Obs) (ixs : list nat) w w' (l : list Ev) :
  for_each ixs (append_demo C b d) tt w = (Ok tt, w', l) ->
  map Ok (appended b l) = map (demo_transition C d) ixs.
Proof.
  revert w l. induction ixs as [|i ixs IH]; intros w l H; simpl in H.
  - now apply ret_inv in H as (_ & _ & ->).
  - inv_bind H as [] w1 l1 R1; [discriminate|].
    unfold append_demo in R1.
    inv_bind R1 as t w2 l2 R2; [discriminate|].
    apply lift_inv in R2 as (E & -> & ->). inv_call R1.
    rewrite appended_app, map_app, (IH _ _ H).
    destruct b; simpl; now rewrite E.
Qed.

Lemma append_demos_steps b (demos : list (demo Obs)) w w' (l : list Ev) :
  append_demos C b demos w = (Ok tt, w', l) ->
  map Ok (appended b l) =
  flat_map (fun d => map (demo_transition C d)
                       (seq 0 (List.length d.(demo_obs)))) demos.
Proof.
  unfold append_demos. revert w l.
  induction demos as [|d demos IH]; intros w l H; simpl in H.
  - now apply ret_inv in H as (_ & _ & ->).
  - inv_bind H as [] w1 l1 R1; [discriminate|].
    rewrite appended_app, map_app. simpl.
    now rewrite (append_demo_steps _ _ _ _ R1), (IH _ _ H).
Qed.

Lemma no_primary_append (l : list Ev) :
  Forall (fun ev : Ev =>
            match ev with
            | BufferAppend Primary _ _ => False
            | _ => True
            end) l ->
  appended Primary l = [].
Proof.
  induction 1 as [|ev l H _ IH]; simpl; [reflexivity|].
  destruct ev; try exact IH. now destruct b.
Qed.

Lemma append_demos_demo_only (demos : list (demo Obs)) :
  emits (fun ev : Ev =>
           match ev with
           | BufferAppend Primary _ _ => False
           | _ => True
           end)
    (append_demos C Demo demos).
Proof. unfold_train; repeat emits_step; exact I. Qed.

Lemma update_parameters_bc w r w' (evs : list Ev) :
  a.(bc_loss) = true ->
  update_parameters C a (Some Demo) w = (r, w', evs) ->
  forall batch db n ru,
    In (AlgoUpdate batch db n ru) evs ->
    exists buffer_t demo_t demo_batch rest,
      evs =
      [BufferSampleTransitions Primary C.(algo_batch_size) (algo_args C)
         (Ok buffer_t);
       BufferSampleTransitions Demo 128 (algo_args C) (Ok demo_t);
       BufferToMinibatch Primary (buffer_t ++ demo_t) (algo_args C)
         (Ok batch);
       BufferToMinibatch Demo demo_t (algo_args C) (Ok demo_batch);
       AlgoUpdate batch (Some demo_batch) a.(utd) ru] ++ rest /\
      db = Some demo_batch /\ n = a.(utd).
Proof.
  intros Hbc H batch db n ru I.
  unfold update_parameters, sample_batch in H. rewrite Hbc in H.
  simpl in H.
  inv_bind H as [batch' db'] w1 l1 R1.
  { exfalso.
    inv_bind H as buffer_t w2 l2 R2; [inv_call H; now destruct I|].
    inv_call R2.
    inv_bind H as b' w3 l3 R3; [discriminate|].
    apply ret_inv in R3 as (E & -> & ->). injection E as ->.
    inv_bind H as demo_t w4 l4 R4;
      [inv_call H; simpl in I; intuition discriminate|].
    inv_call R4.
    inv_bind H as bb w5 l5 R5;
      [inv_call H; simpl in I; intuition discriminate|].
    inv_call R5.
    inv_bind H as dd w6 l6 R6;
      [inv_call H; simpl in I; intuition discriminate|].
    discriminate. }
  inv_bind R1 as buffer_t w2 l2 R2; [discriminate|]. inv_call R2.
  inv_bind R1 as b' w3 l3 R3; [discriminate|].
  apply ret_inv in R3 as (E & -> & ->). injection E as ->.
  inv_bind R1 as demo_t w4 l4 R4; [discriminate|]. inv_call R4.
  inv_bind R1 as bb w5 l5 R5; [discriminate|]. inv_call R5.
  inv_bind R1 as dd w6 l6 R6; [discriminate|]. inv_call R6.
  apply ret_inv in R1 as (E & -> & ->). injection E as -> ->.
  assert (forall rest,
             Forall (fun ev : Ev => is_update ev = false) rest ->
             forall ru',
             In (AlgoUpdate batch db n ru)
               ([BufferSampleTransitions Primary C.(algo_batch_size)
                   (algo_args C) (Ok buffer_t)] ++
                ([] ++
                 [BufferSampleTransitions Demo 128 (algo_args C)
                    (Ok demo_t)] ++
                 [BufferToMinibatch Primary (buffer_t ++ demo_t)
                    (algo_args C) (Ok bb)] ++
                 [BufferToMinibatch Demo demo_t (algo_args C) (Ok dd)] ++
                 []) ++ [AlgoUpdate bb (Some dd) a.(utd) ru'] ++ rest) ->
             batch = bb /\ db = Some dd /\ n = a.(utd) /\ ru = ru') as K.
  { intros rest F ru' I'. simpl in I'.
    destruct I' as [I' | [I' | [I' | [I' | [I' | I']]]]];
      try discriminate.
    - now injection I' as <- <- <- <-.
    - rewrite Forall_forall in F. apply F in I'. discriminate. }
  inv_bind H as loss w7 l7 R7.
  { inv_call H. destruct (K [] (Forall_nil _) _ I) as (-> & -> & -> & ->).
    exists buffer_t, demo_t, dd, []. auto. }
  inv_call R7.
  match type of H with
  | _ = (_, _, ?rest) =>
      assert (F : Forall (fun ev : Ev => is_update ev = false) rest)
        by (eapply emits_at; [|exact H]; solve_emits);
      destruct (K _ F _ I) as (-> & -> & -> & ->);
      exists buffer_t, demo_t, dd, rest; auto
  end.
Qed.

(** C6.  With [bc_loss] and a demonstration file: loading appends every
    demonstration step, in order, to the demonstration buffer and none
    to the primary buffer; a step holds the recorded observation and
    reward, the recorded action after [scale_action], and the recorded
    [done] flag as both [terminal] and [clip_episode].  Every call of
    [algo.update] is preceded by a sample of [algo.batch_size] from the
    primary and of 128 from the demonstration buffer, receives as
    [demo_batch] the minibatch of that demonstration sample, and as
    [batch] the minibatch of the two samples concatenated. *)
Theorem behaviour_cloning_blend (path : string) :
  a.(bc_loss) = true ->
  a.(load_demo) = Some path ->
  (forall w db w' evs,
     load_demos C a w = (Ok db, w', evs) ->
     db = Some Demo /\
     appended Primary evs = [] /\
     exists demos,
       In (NpLoad path (Ok demos)) evs /\
       map Ok (appended Demo evs) =
       flat_map (fun d => map (demo_transition C d)
                            (seq 0 (List.length d.(demo_obs)))) demos) /\
  (forall d i t,
     demo_transition C d i = Ok t ->
     index d.(demo_obs) i = Ok t.(t_observation) /\
     (exists act, index d.(demo_act) i = Ok act /\
                  scale_action C.(env_action_space) act = Ok t.(t_action)) /\
     index d.(demo_rew) i = Ok t.(t_reward) /\
     index d.(demo_done) i = Ok t.(t_terminal) /\
     t.(t_clip_episode) = t.(t_terminal)) /\
  (forall total_step w batch db n ru,
     In (AlgoUpdate batch db n ru)
       (calls (update_step C a (Some Demo) total_step w)) ->
     exists buffer_t demo_t demo_batch rest,
       calls (update_step C a (Some Demo) total_step w) =
       [BufferSampleTransitions Primary C.(algo_batch_size) (algo_args C)
          (Ok buffer_t);
        BufferSampleTransitions Demo 128 (algo_args C) (Ok demo_t);
        BufferToMinibatch Primary (buffer_t ++ demo_t) (algo_args C)
          (Ok batch);
        BufferToMinibatch Demo demo_t (algo_args C) (Ok demo_batch);
        AlgoUpdate batch (Some demo_batch) a.(utd) ru] ++ rest /\
       db = Some demo_batch).
Proof.
  intros Hbc Hpath. split; [|split].
  - intros w db w' evs H. unfold load_demos in H.
    rewrite Hpath, Hbc in H.
    inv_bind H as demos w1 l1 R1; [discriminate|]. inv_call R1.
    inv_bind H as [] w2 l2 R2; [discriminate|]. inv_call R2.
    inv_bind H as [] w3 l3 R3; [discriminate|].
    apply ret_inv in H as (E & -> & ->). injection E as ->.
    split; [reflexivity|]. split.
    + simpl. rewrite appended_app. simpl. rewrite app_nil_r.
      apply no_primary_append.
      eapply emits_at; [apply append_demos_demo_only | exact R3].
    + exists demos. split; [now left|].
      simpl. rewrite appended_app. simpl. rewrite app_nil_r.
      eapply append_demos_steps; exact R3.
  - apply demo_transition_ok.
  - intros total_step w batch db n ru I.
    unfold update_step in *. rewrite bind_reads in *.
    destruct ((total_step >? _) && _); [|now destruct I].
    destruct (py_mod total_step a.(update_interval)) as [m|e];
      [rewrite bind_lift_ok in *|now destruct I].
    destruct (m =? 0); [|now destruct I].
    pose proof (triple_eta (update_parameters C a (Some Demo) w)) as T.
    destruct (update_parameters_bc _ Hbc T _ _ _ _ I)
      as (buffer_t & demo_t & demo_batch & rest & E & -> & _).
    exists buffer_t, demo_t, demo_batch, rest. now split.
Qed.
End DemoBlender.

Lemma behaviour_cloning_blend_witness :
  let C0 := Toy.collab [4] (-1) Toy.two_episodes in
  let a0 := Toy.with_bc 3 in
  let loaded := load_demos C0 a0 Toy.init in
  let t := {| t_observation := 0; t_action := [1 # 2]; t_reward := 1;
              t_terminal := false; t_clip_episode := false |} in
  let w2 := Toy.push Primary t (Toy.push Primary t (world_of loaded)) in
  let updated := update_step C0 a0 (Some Demo) 2 w2 in
  a0.(bc_loss) = true /\
  a0.(load_demo) = Some "demo.npy"%string /\
  outcome loaded = Ok (Some Demo) /\
  List.length (appended Demo (calls loaded)) = 6%nat /\
  appended Primary (calls loaded) = [] /\
  (exists demos,
     In (NpLoad "demo.npy" (Ok demos)) (calls loaded) /\
     map Ok (appended Demo (calls loaded)) =
     flat_map (fun d => map (demo_transition C0 d)
                          (seq 0 (List.length d.(demo_obs)))) demos) /\
  exists batch buffer_t demo_t demo_batch ru rest,
    calls updated =
    [BufferSampleTransitions Primary C0.(algo_batch_size) (algo_args C0)
       (Ok buffer_t);
     BufferSampleTransitions Demo 128 (algo_args C0) (Ok demo_t);
     BufferToMinibatch Primary (buffer_t ++ demo_t) (algo_args C0)
       (Ok batch);
     BufferToMinibatch Demo demo_t (algo_args C0) (Ok demo_batch);
     AlgoUpdate batch (Some demo_batch) a0.(utd) ru] ++ rest /\
    List.length demo_t = 6%nat.
Proof.
  intros C0 a0 loaded t w2 updated. unfold updated.
  assert (Hbc : a0.(bc_loss) = true) by reflexivity.
  assert (Hpath : a0.(load_demo) = Some "demo.npy"%string) by reflexivity.
  destruct (@behaviour_cloning_blend _ _ _ _ C0 a0 "demo.npy" Hbc Hpath)
    as (L & _ & U).
  eassert (E : load_demos C0 a0 Toy.init = (Ok _, _, _))
    by (vm_compute; reflexivity).
  destruct (L _ _ _ _ E) as (_ & Hp & Hd).
  eassert (I : In (AlgoUpdate _ _ _ _)
                 (calls (update_step C0 a0 (Some Demo) 2 w2)))
    by (vm_compute; do 4 right; left; reflexivity).
  destruct (U _ _ _ _ _ _ I)
    as (buffer_t & demo_t & demo_batch & rest & Hu & _).
  split; [exact Hbc|]. split; [exact Hpath|].
  split; [vm_compute; reflexivity|].
  split; [vm_compute; reflexivity|].
  split; [exact Hp|]. split; [exact Hd|].
  eexists _, buffer_t, demo_t, demo_batch, _, rest. split; [exact Hu|].
  assert (Hc : nth_error (calls (update_step C0 a0 (Some Demo) 2 w2)) 1 =
               Some (BufferSampleTransitions Demo 128 (algo_args C0)
                       (Ok demo_t)))
    by (rewrite Hu; reflexivity).
  vm_compute in Hc. injection Hc as <-. reflexivity.
Defined.

(* ================================================================== *)
(** * Shutdown *)

Section Shutdown.
Context {W Obs Trans Batch : Type}.
Variable C : Collab W Obs Trans Batch.
Variable a : train_args W Obs.
Local Abbreviation Ev := (event Obs Trans Batch).

(** C4, as the code has it.  The shutdown is the plain continuation of
    the step loop.  When setup and loop complete, the next call is
    [buffer.clip_episode()], followed by [logger.close()] if it
    returned, and the function returns what [close] returned.  When an
    exception leaves the setup or the loop, the function ends with that
    exception and the calls made so far; neither [clip_episode] nor
    [close] is among the calls of setup and loop. *)
Theorem cleanup_on_completion (w : W) :
  Forall (fun ev : Ev => is_cleanup ev = false) (calls (train_run C a w)) /\
  (forall e,
     outcome (train_run C a w) = Raise e ->
     train_single_env C a w = train_run C a w) /\
  (outcome (train_run C a w) = Ok tt ->
   exists rc,
     calls (train_single_env C a w) =
     calls (train_run C a w) ++
     BufferClipEpisode Primary rc ::
     match rc with
     | Ok _ => [LoggerClose (outcome (train_single_env C a w))]
     | Raise _ => []
     end /\
     match rc with
     | Ok _ => True
     | Raise e => outcome (train_single_env C a w) = Raise e
     end).
Proof.
  split; [apply train_run_no_cleanup|].
  unfold train_single_env.
  destruct (train_run C a w) as [[[[]|e] w1] l1] eqn:E; split.
  - intros e H. discriminate H.
  - intros _. erewrite bind_ok by exact E.
    unfold train_shutdown, bind, call, outcome, world_of, calls. simpl.
    destruct (C.(buffer_clip_episode) Primary w1) as [[[]|e] w2].
    + destruct (C.(logger_close) w2) as [r3 w3]. simpl.
      exists (Ok tt). auto.
    + simpl. exists (Raise e). auto.
  - intros e' _. now erewrite bind_raise by exact E.
  - intros H. discriminate H.
Qed.
End Shutdown.

Lemma cleanup_on_completion_witness :
  let C0 := Toy.collab [4] (-1) [] in
  let a0 := Toy.defaults 2 in
  outcome (train_run C0 a0 Toy.init) = Ok tt /\
  exists rc,
    calls (train_single_env C0 a0 Toy.init) =
    calls (train_run C0 a0 Toy.init) ++
    BufferClipEpisode Primary rc ::
    match rc with
    | Ok _ => [LoggerClose (outcome (train_single_env C0 a0 Toy.init))]
    | Raise _ => []
    end /\
    match rc with
    | Ok _ => True
    | Raise e => outcome (train_single_env C0 a0 Toy.init) = Raise e
    end.
Proof.
  intros C0 a0.
  assert (E : outcome (train_run C0 a0 Toy.init) = Ok tt)
    by (vm_compute; reflexivity).
  split; [exact E|].
  exact (proj2 (proj2 (cleanup_on_completion C0 a0 Toy.init)) E).
Defined.

(** C4, as stated, fails: when [env.step] raises in the first step, the
    run ends with that exception and without a call of [clip_episode] or
    of [logger.close]. *)
Lemma cleanup_skipped_on_exception :
  let run := train_single_env (Toy.collab [4] 0 []) (Toy.defaults 3) Toy.init in
  outcome run = Raise (Raised "EnvError") /\
  In (EnvStep [400000003 # 400000000] (Raise (Raised "EnvError")))
    (calls run) /\
  (forall b r, ~ In (BufferClipEpisode b r) (calls run)) /\
  (forall r, ~ In (LoggerClose r) (calls run)).
Proof.
  vm_compute. repeat split; auto 20; intros; intuition discriminate.
Qed.

(* ================================================================== *)
(** * The random phase *)

Section RandomPhase.
Context {W Obs Trans Batch : Type}.
Variable C : Collab W Obs Trans Batch.
Variable a : train_args W Obs.
Local Abbreviation Ev := (event Obs Trans Batch).

Lemma in_py_range x lo hi : In x (py_range lo hi) <-> lo <= x < hi.
Proof.
  unfold py_range. rewrite in_map_iff. split.
  - intros (i & <- & I). apply in_seq in I. lia.
  - intros H. exists (Z.to_nat (x - lo)). split; [lia|].
    apply in_seq. lia.
Qed.


Lemma for_each_count (p : Ev -> bool) (g : Z -> nat)
    (body : Z -> locals Obs -> M W Ev (locals Obs)) :
  (forall x s w s' w' l,
     body x s w = (Ok s', w', l) -> count p l = g x) ->
  forall xs s w s' w' l,
    for_each xs body s w = (Ok s', w', l) ->
    count p l = list_sum (map g xs).
Proof.
  intros Hbody. induction xs as [|x xs IH]; intros s w s' w' l H;
    simpl in H.
  - now apply ret_inv in H as (_ & _ & ->).
  - inv_bind H as s1 w1 l1 R1; [discriminate|].
    rewrite count_app, (Hbody _ _ _ _ _ _ R1), (IH _ _ _ _ _ H).
    reflexivity.
Qed.





End RandomPhase.



(* ================================================================== *)
(** * The action that reaches the environment *)

(** C2 fails in the Explore mode.  The branch of the explorer assigns
    [action] only, and [env.step] receives [unscaled_action]: with the
    default [random_steps = 0] the first step raises [UnboundLocalError]
    before the environment is stepped; with [random_steps = 2] the
    explorer proposes [0.25] at steps 2 and 3, which is stored, while the
    environment is stepped three times with the random action [1] of
    step 1. *)
Theorem explorer_action_never_reaches_env :
  let C0 := Toy.collab [4] (-1) [] in
  let run0 := train_single_env C0 (Toy.with_explorer 3 0) Toy.init in
  let run2 := train_single_env C0 (Toy.with_explorer 3 2) Toy.init in
  outcome run0 = Raise (UnboundLocalError "unscaled_action") /\
  In (ExplorerSample [0] 1 (Ok [[1 # 4]])) (calls run0) /\
  stepped_with (calls run0) = [] /\
  outcome run2 = Ok tt /\
  In (ExplorerSample [1] 2 (Ok [[1 # 4]])) (calls run2) /\
  In (ExplorerSample [2] 3 (Ok [[1 # 4]])) (calls run2) /\
  stepped_with (calls run2) = [[1 # 1]; [1 # 1]; [1 # 1]] /\
  map (@t_action Z) (appended Primary (calls run2)) =
  [[199999999 # 400000001]; [1 # 4]; [1 # 4]].
Proof. vm_compute. repeat split; auto 20. Qed.

(* ================================================================== *)
(** * [collect] against [train_single_env] *)

Section Agreement.
Context {W Obs Trans Batch : Type}.
Local Abbreviation Ev := (event Obs Trans Batch).
Local Abbreviation Prog := (M W Ev).






End Agreement.

Section CollectRefines.
Context {W Obs Trans Batch : Type}.
Variable C : Collab W Obs Trans Batch.
Variable a : train_args W Obs.
Local Abbreviation Ev := (event Obs Trans Batch).

Hypothesis no_explorer : a.(explorer) = None.
Hypothesis no_random_phase : a.(random_steps) <= 1.
Hypothesis no_callback : a.(callback) = None.
Hypothesis no_demo : a.(load_demo) = None.
Hypothesis no_update : a.(n_steps) <= a.(update_start_step).
Hypothesis no_epoch_end : a.(n_steps) < a.(n_steps_per_epoch).
Hypothesis silent_logger_new :
  forall name w, C.(logger_new) name w = (Ok tt, w).
Hypothesis silent_set_active_logger :
  forall w, C.(algo_set_active_logger) w = (Ok tt, w).
Hypothesis silent_save_params :
  forall w, C.(algo_save_params) w = (Ok tt, w).
Hypothesis silent_add_metric :
  forall name v w, C.(logger_add_metric) name v w = (Ok tt, w).
Hypothesis silent_close : forall w, C.(logger_close) w = (Ok tt, w).





End CollectRefines.

Section CollectSelection.
Context {W Obs Trans Batch : Type}.
Variable C : Collab W Obs Trans Batch.
Variable ca : collect_args W Obs.
Local Abbreviation Ev := (event Obs Trans Batch).





End CollectSelection.




(* ================================================================== *)
(** * ActionRescaler: ranges, clipping and the reverse round trip *)

Section RescalerRange.
Local Open Scope Q_scope.





















End RescalerRange.

(* ================================================================== *)
(** * Fitted Q evaluation: [inner_update] *)

Section FQEUpdate.
Context {X Act Tensor Impl : Type}.
Variable ALGO_NOT_GIVEN_ERROR : string.
Variable IMPL_NOT_INITIALIZED_ERROR : string.
Variable convert_to_torch : Act -> Tensor.
Variable impl_update :
  FQE.TorchMiniBatch X -> Tensor -> Impl -> result Q * Impl.
Variable impl_update_target : Impl -> result unit * Impl.

Local Abbreviation inner_update :=
  (FQE.inner_update ALGO_NOT_GIVEN_ERROR IMPL_NOT_INITIALIZED_ERROR
     convert_to_torch impl_update impl_update_target).

(** When [inner_update] returns, the algorithm, the implementation and
    the batch's [numpy_batch] were present, the wrapped algorithm
    predicted the actions for [numpy_batch.next_observations],
    [impl.update] returned the loss for the batch and these actions, and
    the result is the dictionary with the single key ["loss"].
    [update_target] ran, and returned, exactly when
    [grad_step % target_update_interval == 0]; the object is the old one
    apart from the state of its implementation. *)
Theorem inner_update_returns (self self' : FQE.FQEBase X Act Impl)
    (batch : FQE.TorchMiniBatch X) (d : dict Q) :
  inner_update self batch = (Ok d, self') ->
  exists algo impl nb next_actions loss impl1,
    FQE._algo self = Some algo /\
    FQE._impl self = Some impl /\
    FQE.numpy_batch batch = Some nb /\
    FQE.algo_predict_ algo (FQE.next_observations nb) = Ok next_actions /\
    impl_update batch (convert_to_torch next_actions) impl = (Ok loss, impl1) /\
    d = [("loss"%string, loss)] /\
    FQE.target_update_interval self <> 0 /\
    if FQE._grad_step self mod FQE.target_update_interval self =? 0
    then exists impl2,
           impl_update_target impl1 = (Ok tt, impl2) /\
           self' = FQE.set_impl self impl2
    else self' = FQE.set_impl self impl1.
Proof.
  unfold FQE.inner_update. intros H.
  destruct (FQE._algo self) as [algo|] eqn:EA; [|discriminate].
  destruct (FQE._impl self) as [impl|] eqn:EI; [|discriminate].
  destruct (FQE.numpy_batch batch) as [nb|] eqn:EB; [|discriminate].
  simpl in H.
  destruct (FQE.algo_predict_ algo (FQE.next_observations nb))
    as [next_actions|] eqn:EP; [|discriminate].
  simpl in H.
  destruct (impl_update batch (convert_to_torch next_actions) impl)
    as [[loss|] impl1] eqn:EU; [|discriminate].
  simpl in H. unfold py_mod in H.
  destruct (Z.eqb_spec (FQE.target_update_interval self) 0) as [|Hz];
    [discriminate|].
  simpl in H.
  exists algo, impl, nb, next_actions, loss, impl1.
  repeat (split; [reflexivity || assumption|]).
  destruct (FQE._grad_step self mod FQE.target_update_interval self =? 0).
  - destruct (impl_update_target impl1) as [[[]|] impl2] eqn:ET;
      [|discriminate].
    simpl in H. injection H as <- <-.
    split; [reflexivity|]. split; [exact Hz|]. now exists impl2.
  - injection H as <- <-. auto.
Qed.


End FQEUpdate.

Lemma inner_update_returns_witness :
  let greedy : FQE.wrapped_algo Z Z :=
    {| FQE.algo_predict_ := fun x => Ok (x + 1);
       FQE.algo_sample_action_ := fun x => Ok (x + 2);
       FQE.algo_save_policy_ := fun _ => Ok tt |} in
  let self : FQE.FQEBase Z Z Z :=
    {| FQE._algo := Some greedy; FQE._impl := Some 0; FQE._grad_step := 200;
       FQE.target_update_interval := 100 |} in
  let batch := {| FQE.numpy_batch := Some {| FQE.next_observations := 5 |} |} in
  let upd := fun (_ : FQE.TorchMiniBatch Z) (t : Z) (i : Z) =>
               (Ok (inject_Z t), i + 1) in
  let tgt := fun i : Z => (Ok tt, i + 10) in
  FQE.inner_update "not given" "not initialized" (fun v : Z => v) upd tgt
    self batch
  = (Ok [("loss"%string, inject_Z 6)], FQE.set_impl self 11) /\
  exists algo impl nb next_actions loss impl1,
    FQE._algo self = Some algo /\
    FQE._impl self = Some impl /\
    FQE.numpy_batch batch = Some nb /\
    FQE.algo_predict_ algo (FQE.next_observations nb) = Ok next_actions /\
    upd batch next_actions impl = (Ok loss, impl1) /\
    [("loss"%string, inject_Z 6)] = [("loss"%string, loss)] /\
    FQE.target_update_interval self <> 0 /\
    exists impl2,
      tgt impl1 = (Ok tt, impl2) /\
      FQE.set_impl self 11 = FQE.set_impl self impl2.
Proof.
  intros greedy self batch upd tgt.
  assert (E : FQE.inner_update "not given" "not initialized"
                (fun v : Z => v) upd tgt self batch
              = (Ok [("loss"%string, inject_Z 6)], FQE.set_impl self 11))
    by reflexivity.
  split; [exact E|].
  exact (inner_update_returns "not given" "not initialized"
           (fun v : Z => v) upd tgt self batch E).
Defined.



(* ================================================================== *)
(** * [_setup_algo]: when the model is built *)

Section SetupAlgo.
Context {W Obs Trans Batch : Type}.
Variable C : Collab W Obs Trans Batch.
Local Abbreviation Ev := (event Obs Trans Batch).

Hypothesis scaler_keeps_impl :
  C.(algo_scaler) = true ->
  forall w, C.(algo_impl_is_none) (snd (C.(scaler_fit_with_env) w))
            = C.(algo_impl_is_none) w.
Hypothesis action_scaler_keeps_impl :
  C.(algo_action_scaler) = true ->
  forall w, C.(algo_impl_is_none) (snd (C.(action_scaler_fit_with_env) w))
            = C.(algo_impl_is_none) w.

(** Every run of [_setup_algo] is a sequence of scaler fits, followed
    by [build_with_env] when the fits returned and found no
    implementation. *)
Lemma setup_algo_inv w r w' (evs : list Ev) :
  _setup_algo C w = (r, w', evs) ->
  exists fits w1,
    Forall (fun ev : Ev => is_build ev = false) fits /\
    C.(algo_impl_is_none) w1 = C.(algo_impl_is_none) w /\
    ((exists e, r = Raise e /\ evs = fits) \/
     (C.(algo_impl_is_none) w = false /\ r = Ok tt /\ w' = w1 /\ evs = fits) \/
     (C.(algo_impl_is_none) w = true /\
      C.(algo_build_with_env) w1 = (r, w') /\
      evs = fits ++ [BuildWithEnv r])).
Proof.
  intros H. unfold _setup_algo in H.
  inv_bind H as [] w1 l1 R1.
  { exists evs, w. split; [|split; [reflexivity|left; eauto]].
    destruct C.(algo_scaler); [inv_call H; now repeat constructor|].
    inv_ret H. constructor. }
  assert (K1 : C.(algo_impl_is_none) w1 = C.(algo_impl_is_none) w /\
               Forall (fun ev : Ev => is_build ev = false) l1).
  { destruct C.(algo_scaler) eqn:S.
    - inv_call R1. rewrite <- (scaler_keeps_impl eq_refl w), R1.
      split; [reflexivity | now repeat constructor].
    - inv_ret R1. split; [reflexivity | constructor]. }
  destruct K1 as [K1 F1].
  inv_bind H as [] w2 l2 R2.
  { match type of H with
    | _ = (_, _, ?l) => exists (l1 ++ l), w1
    end.
    split; [|split; [exact K1|left; eauto]].
    apply Forall_app. split; [exact F1|].
    destruct C.(algo_action_scaler); [inv_call H; now repeat constructor|].
    inv_ret H. constructor. }
  assert (K2 : C.(algo_impl_is_none) w2 = C.(algo_impl_is_none) w1 /\
               Forall (fun ev : Ev => is_build ev = false) l2).
  { destruct C.(algo_action_scaler) eqn:S.
    - inv_call R2. rewrite <- (action_scaler_keeps_impl eq_refl w1), R2.
      split; [reflexivity | now repeat constructor].
    - inv_ret R2. split; [reflexivity | constructor]. }
  destruct K2 as [K2 F2].
  rewrite bind_reads in H.
  exists (l1 ++ l2), w2.
  split; [now apply Forall_app|]. split; [congruence|].
  rewrite K2, K1 in H. right.
  destruct (C.(algo_impl_is_none) w).
  - right. inv_call H. split; [reflexivity|]. split; [exact H|].
    now rewrite app_assoc.
  - left. inv_ret H. rewrite !app_nil_r. auto.
Qed.

Lemma setup_algo_keeps_model w :
  C.(algo_impl_is_none) w = false ->
  Forall (fun ev : Ev => is_build ev = false) (calls (_setup_algo C w)).
Proof.
  intros N.
  pose proof (triple_eta (_setup_algo C w)) as T.
  apply setup_algo_inv in T
    as (fits & w1 & F & _ & [(e & _ & ->) | [(_ & _ & _ & ->) | (B & _)]]);
    try exact F.
  congruence.
Qed.

(** [build_with_env] is called exactly when the algorithm has no
    implementation, provided that fitting a scaler neither creates nor
    removes one.  With an implementation, no run of [_setup_algo] calls
    it.  Without one, a run that returns has called it once, as its last
    call.  Hence, when a build that returns leaves an implementation
    behind, a second [_setup_algo] on the same algorithm, as made by a
    later [train_single_env] or [collect], does not build again. *)
Theorem setup_algo_builds_iff_no_impl (w : W) :
  (C.(algo_impl_is_none) w = false ->
   Forall (fun ev : Ev => is_build ev = false) (calls (_setup_algo C w))) /\
  (C.(algo_impl_is_none) w = true ->
   forall w' evs,
     _setup_algo C w = (Ok tt, w', evs) ->
     exists fits,
       evs = fits ++ [BuildWithEnv (Ok tt)] /\
       Forall (fun ev : Ev => is_build ev = false) fits) /\
  ((forall w0 w1,
      C.(algo_build_with_env) w0 = (Ok tt, w1) ->
      C.(algo_impl_is_none) w1 = false) ->
   forall w' evs,
     _setup_algo C w = (Ok tt, w', evs) ->
     Forall (fun ev : Ev => is_build ev = false) (calls (_setup_algo C w'))).
Proof.
  split; [apply setup_algo_keeps_model|]. split.
  - intros N w' evs H.
    apply setup_algo_inv in H
      as (fits & w1 & F & _ & [(e & E & _) | [(B & _) | (_ & _ & ->)]]);
      [discriminate | congruence |].
    now exists fits.
  - intros HB w' evs H. apply setup_algo_keeps_model.
    apply setup_algo_inv in H
      as (fits & w1 & F & K & [(e & E & _) | [(B & _ & -> & _) | (_ & B & _)]]);
      [discriminate | congruence |].
    eapply HB. exact B.
Qed.
End SetupAlgo.

Lemma setup_algo_builds_iff_no_impl_witness :
  let C0 := Toy.collab [4] (-1) [] in
  let first := _setup_algo C0 Toy.init in
  calls first = [BuildWithEnv (Ok tt)] /\
  (exists fits,
     calls first = fits ++ [BuildWithEnv (Ok tt)] /\
     Forall (fun ev => is_build ev = false) fits) /\
  Forall (fun ev => is_build ev = false)
    (calls (_setup_algo C0 (world_of first))).
Proof.
  intros C0 first.
  assert (HS : C0.(algo_scaler) = true ->
               forall w, C0.(algo_impl_is_none)
                           (snd (C0.(scaler_fit_with_env) w))
                         = C0.(algo_impl_is_none) w)
    by (intros _ w; reflexivity).
  assert (HA : C0.(algo_action_scaler) = true ->
               forall w, C0.(algo_impl_is_none)
                           (snd (C0.(action_scaler_fit_with_env) w))
                         = C0.(algo_impl_is_none) w)
    by (intros _ w; reflexivity).
  destruct (@setup_algo_builds_iff_no_impl _ _ (transition Z)
              (list (transition Z)) C0 HS HA Toy.init) as (_ & B & R).
  eassert (E : _setup_algo C0 Toy.init = (Ok tt, _, _))
    by (vm_compute; reflexivity).
  split; [vm_compute; reflexivity|]. split.
  - exact (B eq_refl _ _ E).
  - refine (R _ _ _ E). intros w0 w1 H. injection H as <-. reflexivity.
Defined.

(* ================================================================== *)
(** * The three ways a training step selects its action *)

Section Selection.
Context {W Obs Trans Batch : Type}.
Variable C : Collab W Obs Trans Batch.
Variable a : train_args W Obs.
Local Abbreviation Ev := (event Obs Trans Batch).

Lemma selection_is_no_step (l : list Ev) u res :
  Forall (fun ev => is_selection_call ev = true) l ->
  ~ In (EnvStep u res) l.
Proof.
  intros F I. rewrite Forall_forall in F. apply F in I. discriminate.
Qed.

Lemma stepped_with_nil (l : list Ev) :
  (forall u res, ~ In (EnvStep u res) l) -> stepped_with l = [].
Proof.
  induction l as [|ev l IH]; intros NS; [reflexivity|].
  destruct ev; simpl;
    try (apply IH; intros u res' I; apply (NS u res'); now right).
  exfalso. eapply NS. left. reflexivity.
Qed.

(** What follows [env.step] in an interaction: one [append] with the
    selected action, and no further [env.step]. *)
Lemma after_env_step_emits total_step (st : locals Obs) obs action unscaled
    (res : step_result Obs) :
  emits (fun ev : Ev =>
           is_env_step ev = false /\ is_selection_call ev = false /\
           match ev with
           | BufferAppend _ t _ =>
               t.(t_action) = action /\ t.(t_observation) = obs
           | _ => True
           end)
    (let '(next_observation, reward, terminal, info) := res in
     let rollout_return := (st.(rollout_return) + reward)%Q in
     let '(clip_episode, terminal) :=
       timelimit_case a.(timelimit_aware) terminal info in
     let t := {| t_observation := obs;
                 t_action := action;
                 t_reward := reward;
                 t_terminal := terminal;
                 t_clip_episode := clip_episode |} in
     call (BufferAppend Primary t) (C.(buffer_append) Primary t) ;;
     st' <- reset_if_terminated C clip_episode next_observation
              rollout_return unscaled ;;
     epoch <- lift (py_floordiv total_step a.(n_steps_per_epoch)) ;;
     ret (st', epoch)).
Proof.
  destruct res as [[[o rw] term] info].
  destruct (timelimit_case _ term info) as [clip terminal].
  unfold reset_if_terminated. repeat emits_step; auto.
Qed.

(** The selection behind an [env.step] of an interaction. *)
Lemma interaction_selected total_step st w r w' (evs : list Ev) u res :
  interaction C a total_step st w = (r, w', evs) ->
  In (EnvStep u res) evs ->
  exists obs fed w1 l1 action w2 l2 rest,
    feed_observation C st.(observation) w = (Ok (obs, fed), w1, l1) /\
    sample_exploration_action C a total_step fed st.(unscaled_action) w1
    = (Ok (action, Some u), w2, l2) /\
    evs = l1 ++ l2 ++ EnvStep u res :: rest /\
    Forall (fun ev => is_selection_call ev = true) (l1 ++ l2) /\
    Forall (fun ev : Ev =>
              is_env_step ev = false /\ is_selection_call ev = false /\
              match ev with
              | BufferAppend _ t _ =>
                  t.(t_action) = action /\ t.(t_observation) = obs
              | _ => True
              end) rest.
Proof.
  intros H I. unfold interaction in H.
  inv_bind H as [obs fed] w1 l1 R1.
  { exfalso. eapply selection_is_no_step; [|exact I].
    eapply emits_at; [apply feed_observation_selects | exact H]. }
  assert (S1 : Forall (fun ev : Ev => is_selection_call ev = true) l1)
    by (eapply emits_at; [apply feed_observation_selects | exact R1]).
  inv_bind H as [action unscaled] w2 l2 R2.
  { exfalso. apply in_app_iff in I as [I | I];
      [now apply selection_is_no_step in I|].
    eapply selection_is_no_step; [|exact I].
    eapply emits_at; [apply sample_exploration_action_selects | exact H]. }
  assert (S2 : Forall (fun ev : Ev => is_selection_call ev = true) l2)
    by (eapply emits_at;
        [apply sample_exploration_action_selects | exact R2]).
  inv_bind H as u' w3 l3 R3.
  { exfalso. apply read_local_inv in H as (_ & -> & _).
    rewrite app_nil_r in I. apply in_app_iff in I as [I | I];
      now apply selection_is_no_step in I. }
  apply read_local_inv in R3 as (-> & -> & Hu).
  destruct unscaled as [u''|]; [|discriminate]. injection Hu as <-.
  simpl in I.
  assert (K : forall res' rest,
             Forall (fun ev : Ev => is_env_step ev = false) rest ->
             In (EnvStep u res) (l1 ++ l2 ++ EnvStep u' res' :: rest) ->
             u' = u /\ res' = res).
  { intros res' rest F I'.
    apply in_app_iff in I' as [I' | I'];
      [now apply selection_is_no_step in I'|].
    apply in_app_iff in I' as [I' | [I' | I']];
      [now apply selection_is_no_step in I' | now injection I' |].
    rewrite Forall_forall in F. apply F in I'. discriminate. }
  inv_bind H as sr w4 l4 R4.
  - inv_call H. destruct (K _ [] (Forall_nil _) I) as [-> <-].
    exists obs, fed, w1, l1, action, w2, l2, [].
    repeat split; try assumption; try constructor.
    now apply Forall_app.
  - inv_call R4.
    match type of H with
    | _ = (_, _, ?rest) =>
        assert (F : Forall
                      (fun ev : Ev =>
                         is_env_step ev = false /\
                         is_selection_call ev = false /\
                         match ev with
                         | BufferAppend _ t _ =>
                             t.(t_action) = action /\
                             t.(t_observation) = obs
                         | _ => True
                         end) rest)
          by (eapply emits_at; [|exact H];
              apply (after_env_step_emits total_step st obs action
                       (Some u') sr));
        assert (F' : Forall (fun ev : Ev => is_env_step ev = false) rest)
          by (eapply Forall_impl; [|exact F]; now intros ev [E _]);
        destruct (K _ rest F' I) as [-> <-];
        exists obs, fed, w1, l1, action, w2, l2, rest
    end.
    repeat split; try assumption. now apply Forall_app.
Qed.

Lemma tail_no_step demo_buffer total_step epoch (st' : locals Obs) :
  emits (fun ev : Ev => is_env_step ev = false /\ is_append ev = false
                        /\ is_selection_call ev = false)
    (update_step C a demo_buffer total_step ;;
     call_callback a epoch total_step ;;
     end_of_epoch C a epoch total_step ;;
     ret st').
Proof. solve_emits; auto. Qed.

(** The calls of a training step are those of its interaction, followed
    by calls that neither select an action, nor step the environment,
    nor append. *)
Lemma train_step_calls demo_buffer total_step st w :
  exists tail,
    calls (train_step C a demo_buffer total_step st w) =
    calls (interaction C a total_step st w) ++ tail /\
    Forall (fun ev : Ev => is_env_step ev = false /\ is_append ev = false
                           /\ is_selection_call ev = false) tail.
Proof.
  unfold train_step. rewrite calls_bind.
  destruct (outcome (interaction C a total_step st w)) as [[st' epoch]|e].
  - eexists. split; [reflexivity|]. apply tail_no_step.
  - exists []. split; [reflexivity | constructor].
Qed.

(** The selection behind an [env.step] of a training step, and the
    action of every transition the step appends. *)
Lemma train_step_selected demo_buffer total_step st w u res :
  In (EnvStep u res) (calls (train_step C a demo_buffer total_step st w)) ->
  exists obs fed w1 l1 action w2 l2,
    feed_observation C st.(observation) w = (Ok (obs, fed), w1, l1) /\
    sample_exploration_action C a total_step fed st.(unscaled_action) w1
    = (Ok (action, Some u), w2, l2) /\
    (forall ev, In ev l2 ->
       In ev (calls (train_step C a demo_buffer total_step st w))) /\
    (forall ev,
       In ev (calls (train_step C a demo_buffer total_step st w)) ->
       is_selection_call ev = true -> In ev (l1 ++ l2)) /\
    (forall b t ra,
       In (BufferAppend b t ra)
         (calls (train_step C a demo_buffer total_step st w)) ->
       t.(t_action) = action).
Proof.
  intros I.
  destruct (train_step_calls demo_buffer total_step st w)
    as (tail & E & F).
  rewrite E in *. rewrite Forall_forall in F.
  apply in_app_iff in I as [I | I]; [|apply F in I; now destruct I].
  pose proof (triple_eta (interaction C a total_step st w)) as T.
  destruct (@interaction_selected _ _ _ _ _ _ _ _ T I)
    as (obs & fed & w1 & l1 & action & w2 & l2 & rest & R1 & R2 & EQ
        & S & FR).
  exists obs, fed, w1, l1, action, w2, l2.
  split; [exact R1|]. split; [exact R2|].
  rewrite EQ. rewrite Forall_forall in FR. split; [|split].
  - intros ev I2. rewrite !in_app_iff. left. right. now left.
  - intros ev I2 Sel. rewrite <- !app_assoc in I2.
    apply in_app_iff in I2 as [I2 | I2];
      [apply in_app_iff; now left|].
    apply in_app_iff in I2 as [I2 | I2];
      [apply in_app_iff; now right|].
    exfalso. destruct I2 as [<- | I2]; [discriminate|].
    apply in_app_iff in I2 as [I2 | I2].
    + apply FR in I2. destruct I2 as (_ & N & _). congruence.
    + apply F in I2. destruct I2 as (_ & _ & N). congruence.
  - intros b t ra IA. rewrite <- !app_assoc in IA.
    rewrite Forall_forall in S.
    apply in_app_iff in IA as [IA | IA];
      [assert (IS : In (BufferAppend b t ra) (l1 ++ l2))
         by (apply in_app_iff; now left);
       apply S in IS; discriminate|].
    apply in_app_iff in IA as [IA | IA];
      [assert (IS : In (BufferAppend b t ra) (l1 ++ l2))
         by (apply in_app_iff; now right);
       apply S in IS; discriminate|].
    destruct IA as [IA | IA]; [discriminate|].
    apply in_app_iff in IA as [IA | IA].
    + apply FR in IA. now destruct IA as (_ & _ & [-> _]).
    + apply F in IA. destruct IA as (_ & N & _). discriminate.
Qed.

(** Exploit mode (no explorer, past the random phase).  Whenever a
    training step calls [env.step], the policy's [sample_action] was
    called on the fed observation and returned a batch whose first row
    is the action; [env.step] receives [unscale_action] of it, and the
    transition the step appends holds the action itself, in the range of
    the policy. *)
Theorem exploit_step_unscales (demo_buffer : option buffer_ref)
    (total_step : Z) (st : locals Obs) (w : W) (u : vec)
    (res : result (step_result Obs)) :
  a.(explorer) = None ->
  a.(random_steps) <= total_step ->
  In (EnvStep u res) (calls (train_step C a demo_buffer total_step st w)) ->
  exists fed actions action,
    In (AlgoSampleAction [fed] (Ok actions))
      (calls (train_step C a demo_buffer total_step st w)) /\
    index0 actions = Ok action /\
    unscale_action C.(env_action_space) action = Ok u /\
    forall b t ra,
      In (BufferAppend b t ra)
        (calls (train_step C a demo_buffer total_step st w)) ->
      t.(t_action) = action.
Proof.
  intros HE HR I.
  destruct (@train_step_selected _ _ _ _ _ _ I)
    as (obs & fed & w1 & l1 & action & w2 & l2 & _ & R2 & I2 & _ & A).
  unfold sample_exploration_action in R2. rewrite HE in R2.
  destruct (Z.ltb_spec total_step a.(random_steps)); [lia|].
  inv_bind R2 as actions w3 l3 R3; [discriminate|]. inv_call R3.
  inv_bind R2 as action' w4 l4 R4; [discriminate|].
  apply lift_inv in R4 as (E4 & -> & ->).
  inv_bind R2 as u' w5 l5 R5; [discriminate|].
  apply lift_inv in R5 as (E5 & -> & ->).
  apply ret_inv in R2 as (E & -> & ->). injection E as <- <-.
  exists fed, actions, action. split; [apply I2; now left|].
  split; [now rewrite E4|]. split; [now rewrite E5 | exact A].
Qed.

(** Random mode ([total_step < random_steps]).  Whenever a training step
    calls [env.step], it passes the action that
    [env.action_space.sample()] returned in that step, unchanged; the
    transition it appends holds [scale_action] of that action; and the
    step has called neither the explorer nor the policy. *)
Theorem random_step_scales (demo_buffer : option buffer_ref)
    (total_step : Z) (st : locals Obs) (w : W) (u : vec)
    (res : result (step_result Obs)) :
  total_step < a.(random_steps) ->
  In (EnvStep u res) (calls (train_step C a demo_buffer total_step st w)) ->
  In (ActionSpaceSample (Ok u))
    (calls (train_step C a demo_buffer total_step st w)) /\
  (forall b t ra,
     In (BufferAppend b t ra)
       (calls (train_step C a demo_buffer total_step st w)) ->
     scale_action C.(env_action_space) u = Ok t.(t_action)) /\
  (forall ev,
     In ev (calls (train_step C a demo_buffer total_step st w)) ->
     match ev with
     | ExplorerSample _ _ _ | AlgoSampleAction _ _ | AlgoPredict _ _ => False
     | _ => True
     end).
Proof.
  intros HR I.
  destruct (@train_step_selected _ _ _ _ _ _ I)
    as (obs & fed & w1 & l1 & action & w2 & l2 & R1 & R2 & I2 & Sel & A).
  unfold sample_exploration_action in R2.
  destruct (Z.ltb_spec total_step a.(random_steps)); [|lia].
  inv_bind R2 as u' w3 l3 R3; [discriminate|]. inv_call R3.
  inv_bind R2 as action' w4 l4 R4; [discriminate|].
  apply lift_inv in R4 as (E4 & -> & ->).
  apply ret_inv in R2 as (E & -> & ->). injection E as <- <-.
  split; [apply I2; now left|]. split.
  - intros b t ra IA. rewrite (A _ _ _ IA). now rewrite E4.
  - intros ev Iev.
    assert (F1 : Forall (fun ev : Ev =>
                           match ev with
                           | ExplorerSample _ _ _ | AlgoSampleAction _ _
                           | AlgoPredict _ _ => False
                           | _ => True
                           end) l1).
    { eapply emits_at; [|exact R1]. solve_emits; exact I. }
    rewrite Forall_forall in F1.
    destruct ev; try exact Logic.I;
      (apply Sel in Iev; [|reflexivity];
       apply in_app_iff in Iev as [Iev | [Iev | []]];
       [exact (F1 _ Iev) | discriminate]).
Qed.

(** A training step that returns has the locals its interaction
    returned. *)
Lemma train_step_returns demo_buffer total_step st w st' w' (evs : list Ev) :
  train_step C a demo_buffer total_step st w = (Ok st', w', evs) ->
  exists epoch w1 l1 l2,
    interaction C a total_step st w = (Ok (st', epoch), w1, l1) /\
    (update_step C a demo_buffer total_step ;;
     call_callback a epoch total_step ;;
     end_of_epoch C a epoch total_step ;;
     ret st') w1 = (Ok st', w', l2) /\
    evs = l1 ++ l2.
Proof.
  intros H. unfold train_step in H.
  inv_bind H as [st1 epoch] w1 l1 R1; [discriminate|].
  assert (E : st1 = st').
  { pose proof H as H'.
    inv_bind H' as [] w2 l2 R2; [discriminate|].
    inv_bind H' as [] w3 l3 R3; [discriminate|].
    inv_bind H' as [] w4 l4 R4; [discriminate|].
    apply ret_inv in H' as (E & _). now injection E. }
  subst st1.
  match type of H with
  | _ = (_, _, ?l) => now exists epoch, w1, l1, l
  end.
Qed.

(** With [unscaled_action] unbound, the Explore branch ends the
    interaction before [env.step]. *)
Lemma explore_interaction_unbound explorer_sample total_step st w r w'
    (evs : list Ev) :
  a.(explorer) = Some explorer_sample ->
  a.(random_steps) <= total_step ->
  st.(unscaled_action) = None ->
  interaction C a total_step st w = (r, w', evs) ->
  exists e,
    r = Raise e /\
    forall x action rest,
      In (ExplorerSample x total_step (Ok (action :: rest))) evs ->
      e = UnboundLocalError "unscaled_action".
Proof.
  intros HE HR HN H. unfold interaction in H.
  inv_bind H as [obs fed] w1 l1 R1.
  { eexists. split; [reflexivity|]. intros xs act rest I. exfalso.
    assert (F1 : Forall (fun ev : Ev =>
                           match ev with
                           | ExplorerSample _ _ _ => False
                           | _ => True
                           end) evs)
      by (eapply emits_at; [|exact H]; solve_emits; exact Logic.I).
    rewrite Forall_forall in F1. exact (F1 _ I). }
  assert (F1 : Forall (fun ev : Ev =>
                         match ev with
                         | ExplorerSample _ _ _ => False
                         | _ => True
                         end) l1)
    by (eapply emits_at; [|exact R1]; solve_emits; exact Logic.I).
  rewrite Forall_forall in F1.
  unfold sample_exploration_action in H. rewrite HE, HN in H.
  destruct (Z.ltb_spec total_step a.(random_steps)); [lia|].
  inv_bind H as [action unscaled] w2 l2 R2.
  { eexists. split; [reflexivity|]. intros xs act rest I. exfalso.
    apply in_app_iff in I as [I | I]; [exact (F1 _ I)|].
    inv_bind H as actions w3 l3 R3.
    - inv_call H. destruct I as [I | []]. discriminate.
    - inv_call R3.
      inv_bind H as action' w4 l4 R4; [|discriminate].
      apply lift_inv in H as (E4 & -> & ->).
      destruct I as [I | []]. injection I as _ ->. discriminate. }
  inv_bind R2 as actions w3 l3 R3; [discriminate|]. inv_call R3.
  inv_bind R2 as action' w4 l4 R4; [discriminate|].
  apply lift_inv in R4 as (E4 & -> & ->).
  apply ret_inv in R2 as (E & -> & ->). injection E as -> ->.
  simpl in H. rewrite bind_lift_raise in H.
  injection H as <- <- <-. eexists. split; reflexivity.
Qed.

(** Explore mode (an explorer is given, past the random phase).  The
    branch binds [action] only, and [env.step] reads [unscaled_action]:
    whenever a training step calls [env.step], the argument is the value
    [unscaled_action] had before the step, while the appended transition
    holds the first row of what [explorer.sample] returned.  With
    [unscaled_action] still unbound the step never reaches [env.step],
    and it ends in [UnboundLocalError] if the explorer returned an
    action.  A step that returns leaves [unscaled_action] as it was, so
    the next step repeats this. *)
Theorem explore_step_uses_stale_action (demo_buffer : option buffer_ref)
    (total_step : Z) (st : locals Obs) (w : W)
    (explorer_sample : list Obs -> Z -> W -> result (list vec) * W) :
  a.(explorer) = Some explorer_sample ->
  a.(random_steps) <= total_step ->
  let run := train_step C a demo_buffer total_step st w in
  (forall u res,
     In (EnvStep u res) (calls run) ->
     st.(unscaled_action) = Some u /\
     exists fed actions action,
       In (ExplorerSample [fed] total_step (Ok actions)) (calls run) /\
       index0 actions = Ok action /\
       forall b t ra,
         In (BufferAppend b t ra) (calls run) -> t.(t_action) = action) /\
  (st.(unscaled_action) = None ->
   stepped_with (calls run) = [] /\
   exists e,
     outcome run = Raise e /\
     forall x action rest,
       In (ExplorerSample x total_step (Ok (action :: rest))) (calls run) ->
       e = UnboundLocalError "unscaled_action") /\
  (forall st', outcome run = Ok st' ->
     st'.(unscaled_action) = st.(unscaled_action)).
Proof.
  intros HE HR run. subst run.
  assert (P1 : forall u res,
             In (EnvStep u res)
               (calls (train_step C a demo_buffer total_step st w)) ->
             st.(unscaled_action) = Some u /\
             exists fed actions action,
               In (ExplorerSample [fed] total_step (Ok actions))
                 (calls (train_step C a demo_buffer total_step st w)) /\
               index0 actions = Ok action /\
               forall b t ra,
                 In (BufferAppend b t ra)
                   (calls (train_step C a demo_buffer total_step st w)) ->
                 t.(t_action) = action).
  { intros u res I.
    destruct (@train_step_selected _ _ _ _ _ _ I)
      as (obs & fed & w1 & l1 & action & w2 & l2 & _ & R2 & I2 & _ & A).
    unfold sample_exploration_action in R2. rewrite HE in R2.
    destruct (Z.ltb_spec total_step a.(random_steps)); [lia|].
    inv_bind R2 as actions w3 l3 R3; [discriminate|]. inv_call R3.
    inv_bind R2 as action' w4 l4 R4; [discriminate|].
    apply lift_inv in R4 as (E4 & -> & ->).
    apply ret_inv in R2 as (E & -> & ->). injection E as <- E.
    split; [now rewrite E|].
    exists fed, actions, action. split; [apply I2; now left|].
    split; [now rewrite E4 | exact A]. }
  split; [exact P1|]. split.
  - intros HN. split.
    { apply stepped_with_nil. intros u res I.
      apply P1 in I as [E _]. congruence. }
    destruct (interaction C a total_step st w) as [[r w1] l1] eqn:T.
    destruct (@explore_interaction_unbound _ _ _ _ _ _ _ HE HR HN T)
      as (e & -> & K).
    exists e. unfold train_step. erewrite bind_raise by exact T.
    split; [reflexivity | exact K].
  - intros st' HO.
    pose proof (triple_eta (train_step C a demo_buffer total_step st w))
      as T.
    rewrite HO in T.
    destruct (@train_step_returns _ _ _ _ _ _ _ T)
      as (epoch & w1 & l1 & l2 & R & _ & EV).
    pose proof R as R'.
    apply interaction_inv in R'
      as (l0 & S0 & [(e & E & _) | [(u & e & E & _) | H]]);
      try discriminate.
    destruct H as (action & u & o & rw & term & info & w3 & ra & w4 & H).
    cbv zeta in H. destruct H as (EA & H).
    destruct ra as [[]|e]; [|now destruct H].
    destruct H as (r5 & l5 & R5 & EL & E).
    destruct r5 as [st''|e]; [|discriminate].
    destruct (py_floordiv _ _); [|discriminate]. injection E as <- <-.
    assert (U : st'.(unscaled_action) = Some u).
    { apply reset_if_terminated_ok in R5.
      destruct (t_clip_episode _).
      - destruct R5 as (o0 & _ & ->). reflexivity.
      - destruct R5 as (_ & _ & ->). reflexivity. }
    rewrite U. symmetry.
    apply (P1 u (Ok (o, rw, term, info))).
    rewrite EV, EL. rewrite !in_app_iff. left. right. left. now left.
Qed.
End Selection.

Lemma exploit_step_unscales_witness :
  let C0 := Toy.collab [4] (-1) [] in
  let run :=
    train_step C0 (Toy.defaults 3) None 1
      {| observation := 0; rollout_return := 0; unscaled_action := None |}
      Toy.init in
  In (EnvStep [400000003 # 400000000] (Ok (1, 1%Q, false, []))) (calls run) /\
  exists fed actions action,
    In (AlgoSampleAction [fed] (Ok actions)) (calls run) /\
    index0 actions = Ok action /\
    unscale_action C0.(env_action_space) action
    = Ok [400000003 # 400000000] /\
    forall b t ra,
      In (BufferAppend b t ra) (calls run) -> t.(t_action) = action.
Proof.
  intros C0 run.
  assert (I : In (EnvStep [400000003 # 400000000] (Ok (1, 1%Q, false, [])))
                (calls run))
    by (vm_compute; auto).
  split; [exact I|].
  eapply (@exploit_step_unscales _ _ _ _ C0 (Toy.defaults 3) None 1);
    [reflexivity | simpl; lia | exact I].
Defined.

Lemma random_step_scales_witness :
  let C0 := Toy.collab [4] (-1) [] in
  let run :=
    train_step C0 (Toy.with_random 3 2) None 1
      {| observation := 0; rollout_return := 0; unscaled_action := None |}
      Toy.init in
  In (EnvStep [1 # 1] (Ok (1, 1%Q, false, []))) (calls run) /\
  In (ActionSpaceSample (Ok [1 # 1])) (calls run) /\
  (forall b t ra,
     In (BufferAppend b t ra) (calls run) ->
     scale_action C0.(env_action_space) [1 # 1] = Ok t.(t_action)).
Proof.
  intros C0 run.
  assert (I : In (EnvStep [1 # 1] (Ok (1, 1%Q, false, []))) (calls run))
    by (vm_compute; auto).
  split; [exact I|].
  assert (R : 1 < (Toy.with_random 3 2).(random_steps)) by (simpl; lia).
  destruct (@random_step_scales _ _ _ _ C0 (Toy.with_random 3 2) None 1 _ _
              _ _ R I) as (S & A & _).
  exact (conj S A).
Defined.

Lemma explore_step_uses_stale_action_witness :
  let C0 := Toy.collab [4] (-1) [] in
  let unbound :=
    train_step C0 (Toy.with_explorer 3 0) None 1
      {| observation := 0; rollout_return := 0; unscaled_action := None |}
      Toy.init in
  let stale :=
    train_step C0 (Toy.with_explorer 3 0) None 1
      {| observation := 0; rollout_return := 0;
         unscaled_action := Some [1 # 1] |}
      Toy.init in
  (stepped_with (calls unbound) = [] /\
   exists e,
     outcome unbound = Raise e /\
     forall x action rest,
       In (ExplorerSample x 1 (Ok (action :: rest))) (calls unbound) ->
       e = UnboundLocalError "unscaled_action") /\
  In (EnvStep [1 # 1] (Ok (1, 1%Q, false, []))) (calls stale) /\
  exists fed actions action,
    In (ExplorerSample [fed] 1 (Ok actions)) (calls stale) /\
    index0 actions = Ok action /\
    forall b t ra,
      In (BufferAppend b t ra) (calls stale) -> t.(t_action) = action.
Proof.
  intros C0 unbound stale.
  assert (R : (Toy.with_explorer 3 0).(random_steps) <= 1) by (simpl; lia).
  destruct (@explore_step_uses_stale_action _ _ _ _ C0 (Toy.with_explorer 3 0)
              None 1
              {| observation := 0; rollout_return := 0;
                 unscaled_action := None |}
              Toy.init Toy.quarter eq_refl R) as (_ & U & _).
  destruct (@explore_step_uses_stale_action _ _ _ _ C0 (Toy.with_explorer 3 0)
              None 1
              {| observation := 0; rollout_return := 0;
                 unscaled_action := Some [1 # 1] |}
              Toy.init Toy.quarter eq_refl R) as (S & _ & _).
  assert (I : In (EnvStep [1 # 1] (Ok (1, 1%Q, false, []))) (calls stale))
    by (vm_compute; auto).
  split; [exact (U eq_refl)|]. split; [exact I|].
  exact (proj2 (S _ _ I)).
Defined.

(* ================================================================== *)
(** * Epochs: callback, evaluation, checkpoint and commit *)

Section EmitsFacts.
Context {W Ev : Type}.
Variable P : Ev -> Prop.

(** The continuation of a pure computation is only run on its value. *)
Lemma emits_bind_lift A B (r : result A) (f : A -> M W Ev B) :
  (forall x, r = Ok x -> emits P (f x)) -> emits P (bind (lift r) f).
Proof.
  intros H. destruct r as [x|e].
  - intros w. rewrite bind_lift_ok. now apply H.
  - intros w. rewrite bind_lift_raise. constructor.
Qed.

(** The continuation is only run on values the first program returned. *)
Lemma emits_bind_run A B (m : M W Ev A) (f : A -> M W Ev B) :
  emits P m ->
  (forall x w w' l, m w = (Ok x, w', l) -> emits P (f x)) ->
  emits P (bind m f).
Proof.
  intros Hm Hf w. rewrite calls_bind. apply Forall_app. split.
  - apply Hm.
  - destruct (m w) as [[[x|e] w1] l1] eqn:E; unfold outcome, world_of; simpl.
    + eapply Hf. exact E.
    + constructor.
Qed.
End EmitsFacts.

Section Epochs.
Context {W Obs Trans Batch : Type}.
Variable C : Collab W Obs Trans Batch.
Variable a : train_args W Obs.
Local Abbreviation Ev := (event Obs Trans Batch).

(** An interaction that returns has computed
    [epoch = total_step // n_steps_per_epoch]. *)
Lemma interaction_epoch total_step st w st' epoch w' (evs : list Ev) :
  interaction C a total_step st w = (Ok (st', epoch), w', evs) ->
  py_floordiv total_step a.(n_steps_per_epoch) = Ok epoch.
Proof.
  intros H.
  apply interaction_inv in H
    as (l0 & S0 & [(e & E & _) | [(u & e & E & _) | H]]);
    try discriminate.
  destruct H as (action & u & o & rw & term & info & w3 & ra & w4 & H).
  cbv zeta in H. destruct H as (EA & H).
  destruct ra as [[]|e]; [|now destruct H].
  destruct H as (r5 & l5 & R5 & _ & E).
  destruct r5 as [st''|e]; [|discriminate].
  destruct (py_floordiv _ _); [|discriminate]. now injection E as _ <-.
Qed.

Lemma floordiv_exact total_step k epoch :
  py_floordiv total_step k = Ok epoch ->
  py_mod total_step k = Ok 0 ->
  total_step = epoch * k.
Proof.
  unfold py_floordiv, py_mod.
  destruct (Z.eqb_spec k 0) as [|N]; [discriminate|].
  intros E M. injection E as <-. injection M as M.
  pose proof (Z.div_mod total_step k N). lia.
Qed.

(** What the arguments of the callback, of [save_model] and of [commit]
    satisfy in the step [total_step]. *)
Lemma train_step_epoch_calls demo_buffer total_step st :
  emits (fun ev : Ev =>
           match ev with
           | Callback epoch t _ =>
               t = total_step /\
               a.(n_steps_per_epoch) <> 0 /\
               epoch = total_step / a.(n_steps_per_epoch)
           | Commit epoch t _ =>
               t = total_step /\ 0 < epoch /\
               total_step = epoch * a.(n_steps_per_epoch)
           | SaveModel t _ =>
               t = total_step /\
               exists epoch,
                 0 < epoch /\
                 total_step = epoch * a.(n_steps_per_epoch) /\
                 a.(save_interval) <> 0 /\
                 epoch mod a.(save_interval) = 0
           | _ => True
           end)
    (train_step C a demo_buffer total_step st).
Proof.
  unfold train_step. apply emits_bind_run.
  { solve_emits; exact I. }
  intros [st' epoch] w w' l R. apply interaction_epoch in R.
  apply emits_bind; [solve_emits; exact I|]. intros _.
  apply emits_bind.
  { unfold call_callback. destruct a.(callback); [|apply emits_ret].
    apply emits_call. intros r. unfold py_floordiv in R.
    destruct (Z.eqb_spec a.(n_steps_per_epoch) 0); [discriminate|].
    injection R as <-. auto. }
  intros _. apply emits_bind; [|intros; apply emits_ret].
  unfold end_of_epoch.
  destruct (Z.gtb_spec epoch 0) as [Hpos|]; [|apply emits_ret].
  apply emits_bind_lift. intros m Hm.
  destruct (Z.eqb_spec m 0) as [->|]; [|apply emits_ret].
  pose proof (@floordiv_exact _ _ _ R Hm) as Hexact.
  apply emits_bind.
  { destruct a.(eval_env); repeat emits_step; exact I. }
  intros _. apply emits_bind_lift. intros s Hs.
  apply emits_bind.
  - destruct (Z.eqb_spec s 0) as [->|]; [|apply emits_ret].
    apply emits_call. intros r. split; [reflexivity|].
    exists epoch. split; [lia|]. split; [exact Hexact|].
    unfold py_mod in Hs.
    destruct (Z.eqb_spec a.(save_interval) 0); [discriminate|].
    injection Hs as Hs. auto.
  - intros _. apply emits_call. intros r. split; [reflexivity|].
    split; [lia | exact Hexact].
Qed.

Lemma load_demos_emits (P : Ev -> Prop) :
  (forall path r, P (NpLoad path r)) ->
  (forall n r, P (ReplayBufferNew n r)) ->
  (forall b t r, P (BufferAppend b t r)) ->
  emits P (load_demos C a).
Proof. intros H1 H2 H3. solve_emits; auto. Qed.

(** Every [callback(algo, epoch, total_step)] of a run receives a step
    number of the loop and
    [epoch = total_step // n_steps_per_epoch].  [logger.commit(epoch,
    total_step)] is only called at the end of a full epoch:
    [epoch > 0] and [total_step = epoch * n_steps_per_epoch]; and
    [logger.save_model(total_step, algo)] only at those ends whose epoch
    is a multiple of [save_interval]. *)
Theorem epoch_boundary_calls (w : W) :
  Forall (fun ev : Ev =>
            match ev with
            | Callback epoch total_step _ =>
                1 <= total_step <= a.(n_steps) /\
                a.(n_steps_per_epoch) <> 0 /\
                epoch = total_step / a.(n_steps_per_epoch)
            | Commit epoch total_step _ =>
                1 <= total_step <= a.(n_steps) /\
                0 < epoch /\
                total_step = epoch * a.(n_steps_per_epoch)
            | SaveModel total_step _ =>
                1 <= total_step <= a.(n_steps) /\
                exists epoch,
                  0 < epoch /\
                  total_step = epoch * a.(n_steps_per_epoch) /\
                  a.(save_interval) <> 0 /\
                  epoch mod a.(save_interval) = 0
            | _ => True
            end)
    (calls (train_single_env C a w)).
Proof.
  revert w. unfold train_single_env, train_run.
  apply emits_bind; [|intros; unfold train_shutdown; repeat emits_step;
                      exact I].
  apply emits_bind; [unfold train_setup, _setup_algo; repeat emits_step;
                     exact I|].
  intros _. apply emits_bind; [apply load_demos_emits; intros; exact I|].
  intros demo_buffer.
  apply emits_bind; [|intros; apply emits_ret].
  unfold training_loop.
  apply emits_bind; [apply emits_call; intros; exact I|].
  intros o. apply emits_for_each. intros total_step In_range st w.
  apply in_py_range in In_range.
  eapply Forall_impl; [|apply train_step_epoch_calls].
  intros ev. destruct ev; auto.
  - intros (-> & H). split; [lia | exact H].
  - intros (-> & H). split; [lia | exact H].
  - intros (-> & H). split; [lia | exact H].
Qed.

(** The steps [t] of [1..m] at which an epoch ends: [t // k > 0] and
    [t % k == 0]. *)
Lemma count_epoch_ends (k : Z) (m : nat) :
  0 < k ->
  list_sum
    (map (fun t => if (t / k >? 0) && (t mod k =? 0) then 1%nat else 0%nat)
       (map (fun i => 1 + Z.of_nat i) (seq 0 m))) =
  Z.to_nat (Z.of_nat m / k).
Proof.
  intros Hk. induction m as [|m IH]; [reflexivity|].
  rewrite seq_S, !map_app, list_sum_app, IH. cbn [map Nat.add].
  unfold list_sum; cbn [fold_right].
  replace (Z.of_nat (S m)) with (1 + Z.of_nat m) by lia.
  pose proof (Z.div_mod (1 + Z.of_nat m) k) as D1.
  pose proof (Z.mod_pos_bound (1 + Z.of_nat m) k Hk) as B1.
  pose proof (Z.div_mod (Z.of_nat m) k) as D0.
  pose proof (Z.mod_pos_bound (Z.of_nat m) k Hk) as B0.
  assert (Q0 : 0 <= Z.of_nat m / k) by (apply Z.div_pos; lia).
  destruct (Z.gtb_spec ((1 + Z.of_nat m) / k) 0) as [G|G];
    destruct (Z.eqb_spec ((1 + Z.of_nat m) mod k) 0) as [E|E];
    cbn [andb]; nia.
Qed.

Lemma end_of_epoch_commits total_step epoch w w' (l : list Ev) :
  py_floordiv total_step a.(n_steps_per_epoch) = Ok epoch ->
  end_of_epoch C a epoch total_step w = (Ok tt, w', l) ->
  count is_commit l =
  if (total_step / a.(n_steps_per_epoch) >? 0)
     && (total_step mod a.(n_steps_per_epoch) =? 0)
  then 1%nat else 0%nat.
Proof.
  intros R H. unfold py_floordiv in R.
  destruct (Z.eqb_spec a.(n_steps_per_epoch) 0) as [|N]; [discriminate|].
  injection R as <-. unfold end_of_epoch in H.
  destruct (total_step / a.(n_steps_per_epoch) >? 0);
    [|now apply ret_inv in H as (_ & _ & ->)].
  inv_bind H as m w1 l1 R1; [discriminate|].
  apply lift_inv in R1 as (E1 & -> & ->). unfold py_mod in E1.
  destruct (Z.eqb_spec a.(n_steps_per_epoch) 0); [contradiction|].
  injection E1 as ->. simpl.
  destruct (total_step mod a.(n_steps_per_epoch) =? 0);
    [|now apply ret_inv in H as (_ & _ & ->)].
  inv_bind H as [] w2 l2 R2; [discriminate|].
  assert (F2 : count is_commit l2 = 0%nat).
  { apply count_none. eapply emits_at; [|exact R2].
    destruct a.(eval_env); repeat emits_step; reflexivity. }
  inv_bind H as s w3 l3 R3; [discriminate|].
  apply lift_inv in R3 as (_ & -> & ->).
  inv_bind H as [] w4 l4 R4; [discriminate|].
  assert (F4 : count is_commit l4 = 0%nat).
  { apply count_none. eapply emits_at; [|exact R4].
    repeat emits_step; reflexivity. }
  inv_call H. rewrite !count_app, F2, F4. reflexivity.
Qed.

Lemma train_step_commits demo_buffer total_step st w st' w' (l : list Ev) :
  train_step C a demo_buffer total_step st w = (Ok st', w', l) ->
  count is_commit l =
  if (total_step / a.(n_steps_per_epoch) >? 0)
     && (total_step mod a.(n_steps_per_epoch) =? 0)
  then 1%nat else 0%nat.
Proof.
  intros H.
  destruct (@train_step_returns _ _ _ _ C a _ _ _ _ _ _ _ H)
    as (epoch & w1 & l1 & l2 & R & T & ->).
  assert (F1 : count is_commit l1 = 0%nat).
  { apply count_none. eapply emits_at; [|exact R]. solve_emits. }
  apply interaction_epoch in R.
  inv_bind T as [] w2 l3 R2; [discriminate|].
  assert (F3 : count is_commit l3 = 0%nat).
  { apply count_none. eapply emits_at; [|exact R2]. solve_emits. }
  inv_bind T as [] w3 l4 R3; [discriminate|].
  assert (F4 : count is_commit l4 = 0%nat).
  { apply count_none. eapply emits_at; [|exact R3]. solve_emits. }
  inv_bind T as [] w4 l5 R4; [discriminate|].
  apply ret_inv in T as (_ & -> & ->).
  rewrite !count_app, F1, F3, F4, (end_of_epoch_commits _ _ R R4).
  change (count is_commit (@nil Ev)) with 0%nat. lia.
Qed.

(** A training loop with a positive epoch length that completes has
    committed the metrics [n_steps // n_steps_per_epoch] times: once for
    every full epoch, and not for a last, shorter one. *)
Theorem completed_loop_commits (demo_buffer : option buffer_ref) (w w' : W)
    (st' : locals Obs) (evs : list Ev) :
  0 < a.(n_steps_per_epoch) ->
  training_loop C a demo_buffer w = (Ok st', w', evs) ->
  count is_commit evs = Z.to_nat (a.(n_steps) / a.(n_steps_per_epoch)).
Proof.
  intros Hk H. unfold training_loop in H.
  inv_bind H as o w1 l1 R1; [discriminate|]. inv_call R1.
  rewrite count_app.
  rewrite (for_each_count is_commit
             (fun t => if (t / a.(n_steps_per_epoch) >? 0)
                          && (t mod a.(n_steps_per_epoch) =? 0)
                       then 1%nat else 0%nat)
             (train_step C a demo_buffer)
             (@train_step_commits demo_buffer) _ _ _ H).
  unfold py_range. rewrite (count_epoch_ends _ Hk).
  unfold count. simpl.
  destruct (Z.le_gt_cases 0 a.(n_steps)) as [Hn|Hn].
  - now replace (Z.of_nat (Z.to_nat (a.(n_steps) + 1 - 1))) with a.(n_steps)
      by lia.
  - replace (Z.to_nat (a.(n_steps) + 1 - 1)) with 0%nat by lia. simpl.
    assert (a.(n_steps) / a.(n_steps_per_epoch) < 0)
      by (apply Z.div_lt_upper_bound; lia).
    lia.
Qed.
End Epochs.

Lemma completed_loop_commits_witness :
  let C0 := Toy.collab [4] (-1) [] in
  let a0 := Scenario.args 7 3 1 1 false None false in
  let run := training_loop C0 a0 None Toy.init in
  0 < a0.(n_steps_per_epoch) /\
  is_ok (outcome run) = true /\
  count is_commit (calls run) = 2%nat.
Proof.
  intros C0 a0 run.
  assert (Hk : 0 < a0.(n_steps_per_epoch)) by (simpl; lia).
  eassert (E : training_loop C0 a0 None Toy.init = (Ok _, _, _))
    by (vm_compute; reflexivity).
  split; [exact Hk|]. split; [vm_compute; reflexivity|].
  exact (@completed_loop_commits _ _ _ _ C0 a0 None _ _ _ _ Hk E).
Defined.

(* ================================================================== *)
(** * How often a completed loop steps, stores and calls back *)

Section Measures.
Context {W Obs Trans Batch : Type}.
Local Abbreviation Ev := (event Obs Trans Batch).

(** A quantity that adds up over the calls of a loop. *)
Lemma for_each_measure S (mu : list Ev -> nat) (g : Z -> nat)
    (body : Z -> S -> M W Ev S) :
  mu [] = 0%nat ->
  (forall l1 l2, mu (l1 ++ l2) = (mu l1 + mu l2)%nat) ->
  (forall x s w s' w' l, body x s w = (Ok s', w', l) -> mu l = g x) ->
  forall xs s w s' w' l,
    for_each xs body s w = (Ok s', w', l) ->
    mu l = list_sum (map g xs).
Proof.
  intros Hnil Happ Hbody. induction xs as [|x xs IH]; intros s w s' w' l H;
    simpl in H.
  - now apply ret_inv in H as (_ & _ & ->).
  - inv_bind H as s1 w1 l1 R1; [discriminate|].
    rewrite Happ, (Hbody _ _ _ _ _ _ R1), (IH _ _ _ _ _ H).
    reflexivity.
Qed.

Lemma list_sum_const (c : nat) (xs : list Z) :
  list_sum (map (fun _ => c) xs) = (c * List.length xs)%nat.
Proof. induction xs as [|x xs IH]; simpl; lia. Qed.

Lemma length_py_range lo hi : List.length (py_range lo hi) = Z.to_nat (hi - lo).
Proof. unfold py_range. now rewrite length_map, length_seq. Qed.

Lemma appended_none b (l : list Ev) :
  Forall (fun ev => is_append ev = false) l -> appended b l = [].
Proof.
  induction 1 as [|ev l H _ IH]; [reflexivity|].
  destruct ev; try discriminate; exact IH.
Qed.

Lemma selection_no_step (l : list Ev) :
  Forall (fun ev => is_selection_call ev = true) l ->
  Forall (fun ev => is_env_step ev = false /\ is_append ev = false /\
                    is_callback ev = false) l.
Proof.
  intros F. eapply Forall_impl; [|exact F].
  intros ev. destruct ev; simpl; auto; discriminate.
Qed.
End Measures.

Section LoopCounts.
Context {W Obs Trans Batch : Type}.
Variable C : Collab W Obs Trans Batch.
Variable a : train_args W Obs.
Local Abbreviation Ev := (event Obs Trans Batch).

Lemma reset_if_terminated_quiet clip o rr un :
  emits (fun ev : Ev => is_env_step ev = false /\ is_append ev = false /\
                        is_callback ev = false)
    (reset_if_terminated C clip o rr un).
Proof. solve_emits; auto. Qed.

(** The calls of an interaction that returns. *)
Lemma interaction_returns total_step st w st' epoch w' (evs : list Ev) :
  interaction C a total_step st w = (Ok (st', epoch), w', evs) ->
  exists l0 u sr t l5,
    evs = l0 ++ [EnvStep u (Ok sr); BufferAppend Primary t (Ok tt)] ++ l5 /\
    Forall (fun ev => is_env_step ev = false /\ is_append ev = false /\
                      is_callback ev = false) l0 /\
    Forall (fun ev => is_env_step ev = false /\ is_append ev = false /\
                      is_callback ev = false) l5.
Proof.
  intros H.
  apply interaction_inv in H
    as (l0 & S0 & [(e & E & _) | [(u & e & E & _) | H]]);
    try discriminate.
  destruct H as (action & u & o & rw & term & info & w3 & ra & w4 & H).
  cbv zeta in H. destruct H as (EA & H).
  destruct ra as [[]|e]; [|now destruct H].
  destruct H as (r5 & l5 & R5 & -> & E).
  exists l0, u, (o, rw, term, info). eexists. exists l5.
  split; [reflexivity|]. split; [now apply selection_no_step|].
  eapply emits_at; [apply reset_if_terminated_quiet | exact R5].
Qed.

Lemma tail_callbacks demo_buffer total_step epoch (st' : locals Obs) w r w'
    (l : list Ev) :
  (update_step C a demo_buffer total_step ;;
   call_callback a epoch total_step ;;
   end_of_epoch C a epoch total_step ;;
   ret st') w = (Ok r, w', l) ->
  count is_callback l =
  match a.(callback) with Some _ => 1%nat | None => 0%nat end.
Proof.
  intros T.
  inv_bind T as [] w2 l3 R2; [discriminate|].
  assert (F3 : count is_callback l3 = 0%nat).
  { apply count_none. eapply emits_at; [|exact R2]. solve_emits. }
  inv_bind T as [] w3 l4 R3; [discriminate|].
  inv_bind T as [] w4 l5 R4; [discriminate|].
  assert (F5 : count is_callback l5 = 0%nat).
  { apply count_none. eapply emits_at; [|exact R4]. solve_emits. }
  apply ret_inv in T as (_ & -> & ->).
  rewrite !count_app, F3, F5. change (count is_callback (@nil Ev)) with 0%nat.
  unfold call_callback in R3. destruct a.(callback).
  - inv_call R3. reflexivity.
  - now apply ret_inv in R3 as (_ & _ & ->).
Qed.

(** What one training step that returns adds to the record. *)
Lemma train_step_counts demo_buffer total_step st w st' w' (l : list Ev) :
  train_step C a demo_buffer total_step st w = (Ok st', w', l) ->
  count is_env_step l = 1%nat /\
  List.length (appended Primary l) = 1%nat /\
  List.length (appended Demo l) = 0%nat /\
  count is_callback l =
  match a.(callback) with Some _ => 1%nat | None => 0%nat end.
Proof.
  intros H.
  destruct (@train_step_returns _ _ _ _ C a _ _ _ _ _ _ _ H)
    as (epoch & w1 & l1 & l2 & R & T & ->).
  apply interaction_returns in R
    as (l0 & u & sr & t & l5 & -> & F0 & F5).
  assert (F2 : Forall (fun ev : Ev =>
                         is_env_step ev = false /\ is_append ev = false /\
                         is_selection_call ev = false) l2)
    by (eapply emits_at; [apply tail_no_step | exact T]).
  assert (N : forall l : list Ev,
             Forall (fun ev => is_env_step ev = false /\
                               is_append ev = false /\
                               is_callback ev = false) l ->
             count is_env_step l = 0%nat /\ count is_callback l = 0%nat /\
             appended Primary l = [] /\ appended Demo l = []).
  { intros l F. repeat split.
    - apply count_none. eapply Forall_impl; [|exact F]. now intros ev (E & _).
    - apply count_none. eapply Forall_impl; [|exact F].
      now intros ev (_ & _ & E).
    - apply appended_none. eapply Forall_impl; [|exact F].
      now intros ev (_ & E & _).
    - apply appended_none. eapply Forall_impl; [|exact F].
      now intros ev (_ & E & _). }
  destruct (N _ F0) as (S0 & C0 & P0 & D0).
  destruct (N _ F5) as (S5 & C5 & P5 & D5).
  assert (S2 : count is_env_step l2 = 0%nat)
    by (apply count_none; eapply Forall_impl; [|exact F2];
        now intros ev (E & _)).
  assert (A2 : forall b, appended b l2 = [])
    by (intros b; apply appended_none; eapply Forall_impl; [|exact F2];
        now intros ev (_ & E & _)).
  rewrite !count_app, !appended_app, S0, C0, P0, D0, S5, C5, P5, D5, S2,
    !A2, (@tail_callbacks _ _ _ _ _ _ _ _ T).
  repeat split.
Qed.

(** A training loop that completes has called [env.step] in each of its
    [n_steps] steps, once, has appended one transition per step to the
    buffer and none to the demonstration buffer, and has called the
    callback, if one is given, once per step.  With [n_steps <= 0] the
    loop body never runs: the only call is the initial [env.reset()]. *)
Theorem completed_loop_counts (demo_buffer : option buffer_ref) (w w' : W)
    (st' : locals Obs) (evs : list Ev) :
  training_loop C a demo_buffer w = (Ok st', w', evs) ->
  count is_env_step evs = Z.to_nat a.(n_steps) /\
  List.length (appended Primary evs) = Z.to_nat a.(n_steps) /\
  appended Demo evs = [] /\
  count is_callback evs =
  match a.(callback) with
  | Some _ => Z.to_nat a.(n_steps)
  | None => 0%nat
  end /\
  (a.(n_steps) <= 0 -> evs = [EnvReset (Ok st'.(observation))]).
Proof.
  intros H. unfold training_loop in H.
  inv_bind H as o w1 l1 R1; [discriminate|]. inv_call R1.
  assert (L : List.length (py_range 1 (a.(n_steps) + 1))
              = Z.to_nat a.(n_steps))
    by (rewrite length_py_range; f_equal; lia).
  assert (K1 := for_each_measure (count is_env_step) (fun _ => 1%nat)
                  (train_step C a demo_buffer) eq_refl
                  (@count_app _ _ _ is_env_step)
                  (fun x s w s' w' l E =>
                     proj1 (@train_step_counts demo_buffer x s w s' w' l E))
                  _ _ _ H).
  assert (K2 := for_each_measure
                  (fun l => List.length (appended Primary l))
                  (fun _ => 1%nat)
                  (train_step C a demo_buffer) eq_refl
                  (fun l1 l2 =>
                     eq_trans
                       (f_equal (@List.length _) (appended_app Primary l1 l2))
                       (length_app _ _))
                  (fun x s w s' w' l E =>
                     proj1 (proj2
                       (@train_step_counts demo_buffer x s w s' w' l E)))
                  _ _ _ H).
  assert (K3 := for_each_measure
                  (fun l => List.length (appended Demo l))
                  (fun _ => 0%nat)
                  (train_step C a demo_buffer) eq_refl
                  (fun l1 l2 =>
                     eq_trans
                       (f_equal (@List.length _) (appended_app Demo l1 l2))
                       (length_app _ _))
                  (fun x s w s' w' l E =>
                     proj1 (proj2 (proj2
                       (@train_step_counts demo_buffer x s w s' w' l E))))
                  _ _ _ H).
  assert (K4 := for_each_measure (count is_callback)
                  (fun _ => match a.(callback) with
                            | Some _ => 1%nat
                            | None => 0%nat
                            end)
                  (train_step C a demo_buffer) eq_refl
                  (@count_app _ _ _ is_callback)
                  (fun x s w s' w' l E =>
                     proj2 (proj2 (proj2
                       (@train_step_counts demo_buffer x s w s' w' l E))))
                  _ _ _ H).
  rewrite list_sum_const, L in K1, K2, K3, K4.
  split; [|split; [|split; [|split]]].
  - rewrite count_app, K1.
    change (count is_env_step [EnvReset (Ok o)]) with 0%nat. lia.
  - rewrite appended_app, length_app, K2. simpl. lia.
  - rewrite appended_app. simpl. apply length_zero_iff_nil. lia.
  - rewrite count_app, K4.
    change (count is_callback [EnvReset (Ok o)]) with 0%nat.
    destruct a.(callback); lia.
  - intros Hn.
    assert (E : py_range 1 (a.(n_steps) + 1) = []).
    { unfold py_range.
      replace (Z.to_nat (a.(n_steps) + 1 - 1)) with 0%nat by lia.
      reflexivity. }
    rewrite E in H. simpl in H. apply ret_inv in H as (E' & _ & ->).
    injection E' as ->. reflexivity.
Qed.
End LoopCounts.

Lemma completed_loop_counts_witness :
  let C0 := Toy.collab [4] (-1) [] in
  let a0 := Scenario.args 7 3 1 1 true None false in
  let run := training_loop C0 a0 None Toy.init in
  is_ok (outcome run) = true /\
  count is_env_step (calls run) = 7%nat /\
  List.length (appended Primary (calls run)) = 7%nat /\
  appended Demo (calls run) = [] /\
  count is_callback (calls run) = 7%nat.
Proof.
  intros C0 a0 run.
  eassert (E : training_loop C0 a0 None Toy.init = (Ok _, _, _))
    by (vm_compute; reflexivity).
  destruct (@completed_loop_counts _ _ _ _ C0 a0 None _ _ _ _ E)
    as (K1 & K2 & K3 & K4 & _).
  split; [vm_compute; reflexivity|].
  split; [exact K1|]. split; [exact K2|]. split; [exact K3 | exact K4].
Defined.

(* ================================================================== *)
(** * Zero divisors: epoch length and the two intervals *)

Section NeverReturns.
Context {W Ev : Type}.

Lemma bind_raises_first A B (m : M W Ev A) (f : A -> M W Ev B) w :
  (exists e, outcome (m w) = Raise e) ->
  exists e, outcome (bind m f w) = Raise e.
Proof.
  intros (e & H). exists e. unfold bind, outcome in *.
  destruct (m w) as [[r w1] l1]. simpl in H. now subst r.
Qed.

Lemma bind_raises_second A B (m : M W Ev A) (f : A -> M W Ev B) w :
  (forall x w1, exists e, outcome (f x w1) = Raise e) ->
  exists e, outcome (bind m f w) = Raise e.
Proof.
  intros H. unfold bind, outcome in *.
  destruct (m w) as [[[x|e] w1] l1]; [|now exists e].
  destruct (H x w1) as (e & E). exists e.
  destruct (f x w1) as [[r w2] l2]. exact E.
Qed.
End NeverReturns.

Section ZeroDivisors.
Context {W Obs Trans Batch : Type}.
Variable C : Collab W Obs Trans Batch.
Variable a : train_args W Obs.
Local Abbreviation Ev := (event Obs Trans Batch).

Lemma py_range_cons lo hi :
  lo < hi -> py_range lo hi = lo :: py_range (lo + 1) hi.
Proof.
  intros H. unfold py_range.
  replace (Z.to_nat (hi - lo)) with (S (Z.to_nat (hi - (lo + 1)))) by lia.
  cbn [seq map]. rewrite <- seq_shift, map_map. f_equal; [lia|].
  apply map_ext. intros i. lia.
Qed.

(** With [n_steps_per_epoch = 0] no interaction returns; it has stepped
    the environment at most once, and after an append that returned for
    a transition without [clip_episode] it ends in
    [ZeroDivisionError]. *)
Lemma interaction_zero_epoch_length total_step st w r w' (evs : list Ev) :
  a.(n_steps_per_epoch) = 0 ->
  interaction C a total_step st w = (r, w', evs) ->
  (count is_env_step evs <= 1)%nat /\
  exists e,
    r = Raise e /\
    forall t,
      In (BufferAppend Primary t (Ok tt)) evs ->
      t.(t_clip_episode) = false ->
      e = ZeroDivisionError.
Proof.
  intros Hz H.
  assert (Z0 : forall l0 : list Ev,
             Forall (fun ev => is_selection_call ev = true) l0 ->
             count is_env_step l0 = 0%nat).
  { intros l0 S0. apply count_none. eapply Forall_impl; [|exact S0].
    intros ev. destruct ev; simpl; auto; discriminate. }
  apply interaction_inv in H
    as (l0 & S0 & [(e & -> & ->) | [(u & e & -> & ->) | H]]).
  - split; [rewrite (Z0 _ S0); lia|]. exists e. split; [reflexivity|].
    intros t I. now apply selection_is_no_append in I.
  - split; [rewrite count_app, (Z0 _ S0); unfold count; simpl; lia|].
    exists e. split; [reflexivity|].
    intros t I. apply in_app_iff in I as [I | [I | []]];
      [now apply selection_is_no_append in I | discriminate].
  - destruct H as (action & u & o & rw & term & info & w3 & ra & w4 & H).
    cbv zeta in H. destruct H as (EA & H).
    destruct ra as [[]|e].
    + destruct H as (r5 & l5 & R5 & -> & ->).
      assert (F5 : Forall (fun ev : Ev =>
                             is_env_step ev = false /\ is_append ev = false /\
                             is_callback ev = false) l5)
        by (eapply emits_at; [apply reset_if_terminated_quiet | exact R5]).
      unfold py_floordiv. rewrite Hz. simpl.
      split.
      * rewrite !count_app, (Z0 _ S0).
        assert (count is_env_step l5 = 0%nat)
          by (apply count_none; eapply Forall_impl; [|exact F5];
              now intros ev (E & _)).
        unfold count in *. simpl. lia.
      * exists (match r5 with Ok _ => ZeroDivisionError | Raise e => e end).
        split; [now destruct r5|].
        intros t I Hclip.
        apply in_app_iff in I as [I | I];
          [now apply selection_is_no_append in I|].
        destruct I as [I | [I | I]]; [discriminate | |].
        -- injection I as <-. rewrite Hclip in R5.
           unfold reset_if_terminated in R5.
           apply ret_inv in R5 as (-> & _). reflexivity.
        -- exfalso. rewrite Forall_forall in F5. apply F5 in I.
           now destruct I as (_ & N & _).
    + destruct H as (-> & -> & ->).
      split; [rewrite count_app, (Z0 _ S0); unfold count; simpl; lia|].
      exists e. split; [reflexivity|].
      intros t I. apply in_app_iff in I as [I | [I | [I | []]]];
        [now apply selection_is_no_append in I | discriminate
        | discriminate].
Qed.

(** [n_steps_per_epoch = 0] with at least one step.  The pseudo epoch
    count [total_step // n_steps_per_epoch] of the first step divides by
    zero: no run of [train_single_env] returns.  The step loop has
    stepped the environment at most once when it ends, and when the
    first transition was appended and did not end an episode, it ends in
    [ZeroDivisionError], with that transition in the buffer. *)
Theorem zero_steps_per_epoch (w : W) :
  a.(n_steps_per_epoch) = 0 ->
  1 <= a.(n_steps) ->
  (exists e, outcome (train_single_env C a w) = Raise e) /\
  forall demo_buffer w0,
    let loop := training_loop C a demo_buffer w0 in
    (count is_env_step (calls loop) <= 1)%nat /\
    (forall t,
       In (BufferAppend Primary t (Ok tt)) (calls loop) ->
       t.(t_clip_episode) = false ->
       outcome loop = Raise ZeroDivisionError).
Proof.
  intros Hz Hn.
  assert (E : py_range 1 (a.(n_steps) + 1)
              = 1 :: py_range (1 + 1) (a.(n_steps) + 1))
    by (apply py_range_cons; lia).
  assert (L : forall demo_buffer w0,
             (exists e, outcome (training_loop C a demo_buffer w0) = Raise e)
             /\ (count is_env_step
                   (calls (training_loop C a demo_buffer w0)) <= 1)%nat
             /\ (forall t,
                   In (BufferAppend Primary t (Ok tt))
                     (calls (training_loop C a demo_buffer w0)) ->
                   t.(t_clip_episode) = false ->
                   outcome (training_loop C a demo_buffer w0)
                   = Raise ZeroDivisionError)).
  { intros demo_buffer w0. unfold training_loop. rewrite E. simpl for_each.
    destruct (call (EnvReset (Trans := Trans) (Batch := Batch))
                C.(env_reset) w0) as [[[o|e] w1] l1] eqn:R0.
    2:{ erewrite bind_raise by exact R0. inv_call R0.
        unfold outcome, calls. simpl. split; [eauto|].
        split; [unfold count; simpl; lia|].
        intros t [I | []]. discriminate. }
    erewrite bind_ok by exact R0. inv_call R0.
    unfold train_step.
    destruct (interaction C a 1
                {| observation := o; rollout_return := 0;
                   unscaled_action := None |} w1) as [[r w2] l2] eqn:R.
    destruct (@interaction_zero_epoch_length _ _ _ _ _ _ Hz R)
      as (K1 & e & -> & K2).
    erewrite !bind_raise by (erewrite bind_raise by exact R; reflexivity).
    unfold outcome, calls. simpl.
    split; [eauto|]. split.
    - change (EnvReset (Ok o) :: l2) with ([EnvReset (Ok o)] ++ l2).
      rewrite count_app. change (count is_env_step [EnvReset (Ok o)])
        with 0%nat. exact K1.
    - intros t [I | I] Hclip; [discriminate|].
      f_equal. eapply K2; eassumption. }
  split.
  - unfold train_single_env. apply bind_raises_first.
    unfold train_run. apply bind_raises_second. intros _ w1.
    apply bind_raises_second. intros demo_buffer w2.
    apply bind_raises_first. apply L.
  - intros demo_buffer w0 loop. subst loop.
    destruct (L demo_buffer w0) as (_ & K1 & K2). auto.
Qed.

(** Calls that satisfy a property [P] of all calls outside the update
    and outside the end of an epoch. *)
Lemma train_single_env_emits (P : Ev -> Prop) :
  (forall ev : Ev, is_update ev = false -> is_checkpoint ev = false -> P ev) ->
  (forall demo_buffer total_step,
     (exists w w' l, load_demos C a w = (Ok demo_buffer, w', l)) ->
     emits P (update_step C a demo_buffer total_step)) ->
  (forall epoch total_step, emits P (end_of_epoch C a epoch total_step)) ->
  emits P (train_single_env C a).
Proof.
  intros H1 H2 H3.
  unfold train_single_env, train_run.
  apply emits_bind;
    [|intros; unfold train_shutdown; repeat emits_step; now apply H1].
  apply emits_bind;
    [unfold train_setup, _setup_algo; repeat emits_step; now apply H1|].
  intros _. apply emits_bind_run;
    [apply load_demos_emits; intros; now apply H1|].
  intros demo_buffer w w' l R.
  apply emits_bind; [|intros; apply emits_ret].
  unfold training_loop.
  apply emits_bind; [apply emits_call; intros; now apply H1|].
  intros o. apply emits_for_each. intros total_step _ st.
  unfold train_step.
  apply emits_bind; [solve_emits; now apply H1|].
  intros [st' epoch].
  apply emits_bind; [apply H2; eauto|]. intros _.
  apply emits_bind; [solve_emits; now apply H1|]. intros _.
  apply emits_bind; [apply H3 | intros; apply emits_ret].
Qed.

(** [update_interval = 0].  The modulo of the update trigger is only
    evaluated once the two other conditions hold; from then on it raises
    [ZeroDivisionError], before a batch is sampled.  So no run of
    [train_single_env] ever calls [algo.update]. *)
Theorem zero_update_interval (w : W) :
  a.(update_interval) = 0 ->
  Forall (fun ev : Ev => is_update ev = false)
    (calls (train_single_env C a w)) /\
  (forall demo_buffer total_step w0,
     total_step > a.(update_start_step) ->
     C.(buffer_len) Primary w0 > C.(algo_batch_size) ->
     update_step C a demo_buffer total_step w0
     = (Raise ZeroDivisionError, w0, [])) /\
  (forall demo_buffer total_step w0,
     total_step <= a.(update_start_step) \/
     C.(buffer_len) Primary w0 <= C.(algo_batch_size) ->
     update_step C a demo_buffer total_step w0 = (Ok tt, w0, [])).
Proof.
  intros Hz. split; [|split].
  - revert w. apply train_single_env_emits.
    + auto.
    + intros demo_buffer total_step _. unfold update_step.
      apply emits_bind; [apply emits_reads|]. intros len.
      destruct (_ && _); [|apply emits_ret].
      apply emits_bind_lift. intros m Hm.
      unfold py_mod in Hm. rewrite Hz in Hm. discriminate.
    + intros epoch total_step. solve_emits.
  - intros demo_buffer total_step w0 H1 H2. unfold update_step.
    rewrite bind_reads.
    assert (E : (total_step >? a.(update_start_step))
                && (C.(buffer_len) Primary w0 >? C.(algo_batch_size)) = true)
      by (apply andb_true_iff; lia).
    rewrite E. unfold py_mod. rewrite Hz. reflexivity.
  - intros demo_buffer total_step w0 H.
    now apply update_step_short_circuit.
Qed.

(** [save_interval = 0].  [epoch % save_interval] is evaluated at the
    end of the first full epoch, after the evaluation and before
    [save_model] and [commit]: no run of [train_single_env] saves a
    model or commits metrics, and the end of an epoch never returns. *)
Theorem zero_save_interval (w : W) :
  a.(save_interval) = 0 ->
  Forall (fun ev : Ev => is_checkpoint ev = false)
    (calls (train_single_env C a w)) /\
  (forall epoch total_step w0,
     0 < epoch ->
     py_mod total_step a.(n_steps_per_epoch) = Ok 0 ->
     (exists e, outcome (end_of_epoch C a epoch total_step w0) = Raise e) /\
     (a.(eval_env) = None ->
      end_of_epoch C a epoch total_step w0
      = (Raise ZeroDivisionError, w0, []))).
Proof.
  intros Hz. split.
  - revert w. apply train_single_env_emits.
    + auto.
    + intros demo_buffer total_step _. solve_emits.
    + intros epoch total_step. unfold end_of_epoch.
      destruct (epoch >? 0); [|apply emits_ret].
      apply emits_bind; [apply emits_lift|]. intros m.
      destruct (m =? 0); [|apply emits_ret].
      apply emits_bind; [destruct a.(eval_env); repeat emits_step;
                         reflexivity|].
      intros _. apply emits_bind_lift. intros s Hs.
      unfold py_mod in Hs. rewrite Hz in Hs. discriminate.
  - intros epoch total_step w0 Hpos Hm. unfold end_of_epoch.
    destruct (Z.gtb_spec epoch 0); [|lia].
    rewrite Hm, bind_lift_ok. simpl. split.
    + apply bind_raises_second. intros _ w1.
      unfold py_mod. rewrite Hz. simpl. rewrite bind_lift_raise.
      now exists ZeroDivisionError.
    + intros ->. rewrite bind_ret. unfold py_mod. rewrite Hz. reflexivity.
Qed.
End ZeroDivisors.

Lemma zero_steps_per_epoch_witness :
  let C0 := Toy.collab [4] (-1) [] in
  let a0 := Scenario.args 5 0 1 1 false None false in
  let loop := training_loop C0 a0 None Toy.init in
  (exists e, outcome (train_single_env C0 a0 Toy.init) = Raise e) /\
  (count is_env_step (calls loop) <= 1)%nat /\
  outcome loop = Raise ZeroDivisionError /\
  List.length (appended Primary (calls loop)) = 1%nat.
Proof.
  intros C0 a0 loop.
  assert (Hz : a0.(n_steps_per_epoch) = 0) by reflexivity.
  assert (Hn : 1 <= a0.(n_steps)) by (simpl; lia).
  destruct (@zero_steps_per_epoch _ _ _ _ C0 a0 Toy.init Hz Hn) as (R & L).
  destruct (L None Toy.init) as (K1 & K2).
  split; [exact R|]. split; [exact K1|]. split.
  - apply (K2 {| t_observation := 0; t_action := [1 # 2]; t_reward := 1;
                 t_terminal := false; t_clip_episode := false |});
      [|reflexivity].
    vm_compute. do 3 right. left. reflexivity.
  - vm_compute. reflexivity.
Defined.

Lemma zero_update_interval_witness :
  let C0 := Toy.collab [4] (-1) [] in
  let a0 := Scenario.args 5 3 0 1 false None false in
  let run := train_single_env C0 a0 Toy.init in
  Forall (fun ev => is_update ev = false) (calls run) /\
  outcome run = Raise ZeroDivisionError /\
  count is_env_step (calls run) = 2%nat.
Proof.
  intros C0 a0 run.
  assert (Hz : a0.(update_interval) = 0) by reflexivity.
  destruct (@zero_update_interval _ _ _ _ C0 a0 Toy.init Hz) as (F & _).
  split; [exact F|]. split; vm_compute; reflexivity.
Defined.

Lemma zero_save_interval_witness :
  let C0 := Toy.collab [4] (-1) [] in
  let a0 := Scenario.args 5 3 1 0 false None false in
  let run := train_single_env C0 a0 Toy.init in
  Forall (fun ev => is_checkpoint ev = false) (calls run) /\
  outcome run = Raise ZeroDivisionError /\
  count is_env_step (calls run) = 3%nat.
Proof.
  intros C0 a0 run.
  assert (Hz : a0.(save_interval) = 0) by reflexivity.
  destruct (@zero_save_interval _ _ _ _ C0 a0 Toy.init Hz) as (F & _).
  split; [exact F|]. split; vm_compute; reflexivity.
Defined.

(* ================================================================== *)
(** * Demonstrations without behaviour cloning, and the plain update *)

Section DemoMerge.
Context {W Obs Trans Batch : Type}.
Variable C : Collab W Obs Trans Batch.
Variable a : train_args W Obs.
Local Abbreviation Ev := (event Obs Trans Batch).

Lemma append_demos_primary_only (demos : list (demo Obs)) :
  emits (fun ev : Ev => on_demo_buffer ev = false /\ is_append ev = true)
    (append_demos C Primary demos).
Proof. unfold_train; repeat emits_step; auto. Qed.

(** Demonstrations without [bc_loss] are merged into the buffer.  A load
    that returns has read the file once and then only appended: every
    demonstration step, in the order of the file, to the buffer of the
    run; no second buffer is created, the demonstration buffer is never
    touched, and the local [demo_buffer] stays unbound.  Without
    [load_demo] nothing is called at all. *)
Theorem demo_merge_mode (w : W) :
  (a.(load_demo) = None -> load_demos C a w = (Ok None, w, [])) /\
  (forall path db w' evs,
     a.(bc_loss) = false ->
     a.(load_demo) = Some path ->
     load_demos C a w = (Ok db, w', evs) ->
     db = None /\
     exists demos appends,
       evs = NpLoad path (Ok demos) :: appends /\
       Forall (fun ev => on_demo_buffer ev = false /\ is_append ev = true)
         appends /\
       map Ok (appended Primary appends) =
       flat_map (fun d => map (demo_transition C d)
                            (seq 0 (List.length d.(demo_obs)))) demos).
Proof.
  split.
  - intros H. unfold load_demos. now rewrite H.
  - intros path db w' evs Hbc Hpath H. unfold load_demos in H.
    rewrite Hpath, Hbc in H.
    inv_bind H as demos w1 l1 R1; [discriminate|]. inv_call R1.
    inv_bind H as [] w2 l2 R2; [discriminate|].
    apply ret_inv in H as (E & -> & ->). injection E as <-.
    split; [reflexivity|]. exists demos, l2. rewrite app_nil_r.
    split; [reflexivity|]. split.
    + eapply emits_at; [apply append_demos_primary_only | exact R2].
    + eapply append_demos_steps; exact R2.
Qed.

Lemma sample_batch_unbound w r w' (evs : list Ev) :
  a.(bc_loss) = true ->
  sample_batch C a None w = (r, w', evs) ->
  exists rs,
    C.(buffer_sample_trainsitions) Primary C.(algo_batch_size) (algo_args C) w
    = (rs, w') /\
    evs = [BufferSampleTransitions Primary C.(algo_batch_size) (algo_args C)
             rs] /\
    r = match rs with
        | Ok _ => Raise (UnboundLocalError "demo_buffer")
        | Raise e => Raise e
        end.
Proof.
  intros Hbc H. unfold sample_batch in H. rewrite Hbc in H.
  inv_bind H as buffer_t w1 l1 R1.
  - inv_call H. eexists. split; [exact H|]. split; reflexivity.
  - inv_call R1. simpl in H. rewrite bind_lift_raise in H.
    injection H as <- <- <-. eexists. split; [exact R1|].
    split; reflexivity.
Qed.

(** [bc_loss] without a demonstration file.  The local [demo_buffer] is
    only bound while demonstrations are loaded, so the first update that
    is due samples the buffer and then raises [UnboundLocalError]: no
    batch is ever built and no run of [train_single_env] calls
    [algo.update]. *)
Theorem bc_loss_needs_demonstrations (w : W) :
  a.(bc_loss) = true ->
  a.(load_demo) = None ->
  Forall (fun ev : Ev => is_update ev = false)
    (calls (train_single_env C a w)) /\
  forall w0 r w1 evs,
    sample_batch C a None w0 = (r, w1, evs) ->
    exists rs,
      evs = [BufferSampleTransitions Primary C.(algo_batch_size) (algo_args C)
               rs] /\
      r = match rs with
          | Ok _ => Raise (UnboundLocalError "demo_buffer")
          | Raise e => Raise e
          end.
Proof.
  intros Hbc Hdemo. split.
  - revert w. apply train_single_env_emits.
    + auto.
    + intros demo_buffer total_step (w0 & w1 & l & L).
      unfold load_demos in L. rewrite Hdemo in L.
      apply ret_inv in L as (E & _). injection E as ->.
      unfold update_step.
      apply emits_bind; [apply emits_reads|]. intros len.
      destruct (_ && _); [|apply emits_ret].
      apply emits_bind; [apply emits_lift|]. intros m.
      destruct (m =? 0); [|apply emits_ret].
      unfold update_parameters. apply emits_bind_run.
      * apply sample_batch_no_update.
      * intros x w2 w3 l2 R.
        apply sample_batch_unbound in R; [|exact Hbc].
        destruct R as (rs & _ & _ & E). destruct rs; discriminate.
    + intros epoch total_step. solve_emits.
  - intros w0 r w1 evs H.
    apply sample_batch_unbound in H; [|exact Hbc].
    destruct H as (rs & _ & E1 & E2). eauto.
Qed.

Lemma log_metrics_inv (loss : dict Q) w w' (l : list Ev) :
  for_each loss
    (fun '(name, val) _ =>
       call (AddMetric name val) (C.(logger_add_metric) name val))
    tt w = (Ok tt, w', l) ->
  l = map metric_logged loss.
Proof.
  revert w l. induction loss as [|[name val] loss IH]; intros w l H;
    simpl in H.
  - now apply ret_inv in H as (_ & _ & ->).
  - inv_bind H as [] w1 l1 R1; [discriminate|]. inv_call R1.
    simpl. f_equal. eapply IH. exact H.
Qed.

(** The update without [bc_loss].  An update that returns has made
    these calls, in this order: one [buffer.sample] of [algo.batch_size]
    with the algorithm's [n_frames], [n_steps] and [gamma];
    [algo.update] on that batch, with [demo_batch=None] and the [utd]
    argument; and one [logger.add_metric] per entry of the returned loss
    dictionary, in the order of the dictionary.  The demonstration
    buffer is not touched, whatever [demo_buffer] is. *)
Theorem plain_update_logs_losses (demo_buffer : option buffer_ref)
    (w w' : W) (evs : list Ev) :
  a.(bc_loss) = false ->
  update_parameters C a demo_buffer w = (Ok tt, w', evs) ->
  exists batch loss,
    evs =
    [BufferSample Primary C.(algo_batch_size) (algo_args C) (Ok batch);
     AlgoUpdate batch None a.(utd) (Ok loss)]
    ++ map metric_logged loss.
Proof.
  intros Hbc H. unfold update_parameters, sample_batch in H.
  rewrite Hbc in H.
  inv_bind H as [batch db] w1 l1 R1; [discriminate|].
  inv_bind R1 as batch' w2 l2 R2; [discriminate|]. inv_call R2.
  apply ret_inv in R1 as (E & -> & ->). injection E as <- <-.
  inv_bind H as loss w3 l3 R3; [discriminate|]. inv_call R3.
  apply log_metrics_inv in H. subst.
  exists batch, loss. reflexivity.
Qed.
End DemoMerge.

Lemma demo_merge_mode_witness :
  let C0 := Toy.collab [4] (-1) Toy.two_episodes in
  let a0 := Scenario.args 3 10 1 1 false (Some "demo.npy"%string) false in
  let loaded := load_demos C0 a0 Toy.init in
  outcome loaded = Ok None /\
  List.length (appended Primary (calls loaded)) = 6%nat /\
  exists demos appends,
    calls loaded = NpLoad "demo.npy" (Ok demos) :: appends /\
    Forall (fun ev => on_demo_buffer ev = false /\ is_append ev = true)
      appends /\
    map Ok (appended Primary appends) =
    flat_map (fun d => map (demo_transition C0 d)
                         (seq 0 (List.length d.(demo_obs)))) demos.
Proof.
  intros C0 a0 loaded.
  destruct (@demo_merge_mode _ _ _ _ C0 a0 Toy.init) as (_ & M).
  eassert (E : load_demos C0 a0 Toy.init = (Ok _, _, _))
    by (vm_compute; reflexivity).
  destruct (M "demo.npy"%string _ _ _ eq_refl eq_refl E) as (_ & K).
  split; [vm_compute; reflexivity|].
  split; [vm_compute; reflexivity|].
  exact K.
Defined.

Lemma bc_loss_needs_demonstrations_witness :
  let C0 := Toy.collab [4] (-1) [] in
  let a0 := Scenario.args 5 10 1 1 false None true in
  let run := train_single_env C0 a0 Toy.init in
  Forall (fun ev => is_update ev = false) (calls run) /\
  outcome run = Raise (UnboundLocalError "demo_buffer") /\
  count is_env_step (calls run) = 2%nat.
Proof.
  intros C0 a0 run.
  destruct (@bc_loss_needs_demonstrations _ _ _ _ C0 a0 Toy.init
              eq_refl eq_refl) as (F & _).
  split; [exact F|]. split; vm_compute; reflexivity.
Defined.

Lemma plain_update_logs_losses_witness :
  let C0 := Toy.collab [4] (-1) [] in
  let a0 := Toy.defaults 5 in
  let t := {| t_observation := 0; t_action := [1 # 2]; t_reward := 1;
              t_terminal := false; t_clip_episode := false |} in
  let w2 := Toy.push Primary t (Toy.push Primary t Toy.init) in
  exists batch loss,
    calls (update_parameters C0 a0 None w2) =
    [BufferSample Primary C0.(algo_batch_size) (algo_args C0) (Ok batch);
     AlgoUpdate batch None a0.(utd) (Ok loss)]
    ++ map metric_logged loss.
Proof.
  intros C0 a0 t w2.
  eassert (E : update_parameters C0 a0 None w2 = (Ok tt, _, _))
    by (vm_compute; reflexivity).
  destruct (@plain_update_logs_losses _ _ _ _ C0 a0 None _ _ _ eq_refl E)
    as (batch & loss & K).
  exists batch, loss. rewrite E. exact K.
Defined.

(* ================================================================== *)
(** * [collect]: what it calls, and how often *)

Section CollectRuns.
Context {W Obs Trans Batch : Type}.
Variable C : Collab W Obs Trans Batch.
Variable ca : collect_args W Obs.
Local Abbreviation Ev := (event Obs Trans Batch).

Ltac unfold_collect :=
  unfold collect, collect_step, collect_action, feed_observation,
    _setup_algo, timelimit_case.

(** [collect] only gathers data.  No run of it calls the logger, loads
    demonstrations, creates a buffer, draws a batch, updates the
    algorithm, evaluates it or calls a callback, and it never touches a
    demonstration buffer. *)
Theorem collect_never_learns (w : W) :
  Forall (fun ev : Ev =>
            is_logging ev = false /\ is_learning_call ev = false /\
            on_demo_buffer ev = false)
    (calls (collect C ca w)).
Proof.
  revert w.
  change (emits (fun ev : Ev =>
                   is_logging ev = false /\ is_learning_call ev = false /\
                   on_demo_buffer ev = false) (collect C ca)).
  unfold_collect. repeat emits_step; auto.
Qed.

Lemma collect_loop_no_cleanup observation :
  emits (fun ev : Ev => is_cleanup ev = false)
    (for_each (py_range 1 (ca.(c_n_steps) + 1)) (collect_step C ca)
       observation).
Proof. unfold_collect. repeat emits_step; reflexivity. Qed.

(** The shutdown of [collect] is the plain continuation of its loop.
    Every run consists of calls other than [clip_episode], followed
    either by nothing, when an exception left the setup or the loop, or
    by one [buffer.clip_episode()], whose outcome is the outcome of the
    run. *)
Theorem collect_clips_on_completion (w : W) :
  exists evs,
    Forall (fun ev : Ev => is_cleanup ev = false) evs /\
    ((calls (collect C ca w) = evs /\
      exists e, outcome (collect C ca w) = Raise e) \/
     calls (collect C ca w) =
     evs ++ [BufferClipEpisode Primary (outcome (collect C ca w))]).
Proof.
  pose proof (triple_eta (collect C ca w)) as T.
  destruct (collect C ca w) as [[r w'] evs] eqn:E. clear T.
  unfold outcome, calls. simpl. unfold collect in E.
  inv_bind E as [] w1 l1 R1.
  { exists evs. split; [|left; eauto].
    eapply emits_at; [|exact E]. unfold _setup_algo.
    repeat emits_step; reflexivity. }
  assert (F1 : Forall (fun ev : Ev => is_cleanup ev = false) l1)
    by (eapply emits_at; [|exact R1]; unfold _setup_algo;
        repeat emits_step; reflexivity).
  inv_bind E as [] w2 l2 R2.
  { eexists. split; [|left; eauto].
    apply Forall_app. split; [exact F1|].
    eapply emits_at; [|exact E]. repeat emits_step; reflexivity. }
  assert (F2 : Forall (fun ev : Ev => is_cleanup ev = false) l2)
    by (eapply emits_at; [|exact R2]; repeat emits_step; reflexivity).
  inv_bind E as o w3 l3 R3.
  { eexists. split; [|left; eauto].
    apply Forall_app. split; [exact F1|].
    apply Forall_app. split; [exact F2|].
    eapply emits_at; [|exact E]. repeat emits_step; reflexivity. }
  assert (F3 : Forall (fun ev : Ev => is_cleanup ev = false) l3)
    by (eapply emits_at; [|exact R3]; repeat emits_step; reflexivity).
  inv_bind E as o' w4 l4 R4.
  { eexists. split; [|left; eauto].
    apply Forall_app. split; [exact F1|].
    apply Forall_app. split; [exact F2|].
    apply Forall_app. split; [exact F3|].
    eapply emits_at; [apply collect_loop_no_cleanup | exact E]. }
  assert (F4 : Forall (fun ev : Ev => is_cleanup ev = false) l4)
    by (eapply emits_at; [apply collect_loop_no_cleanup | exact R4]).
  inv_call E. exists (l1 ++ l2 ++ l3 ++ l4). split.
  - repeat (apply Forall_app; split); assumption.
  - right. now rewrite <- !app_assoc.
Qed.

Lemma collect_action_selects total_step fed :
  emits (fun ev : Ev => is_selection_call ev = true)
    (collect_action C ca total_step fed).
Proof. unfold collect_action. repeat emits_step; reflexivity. Qed.

(** The calls of a collection step that returns, up to the append. *)
Lemma collect_step_inv total_step obs o' w w' (evs : list Ev) :
  collect_step C ca total_step obs w = (Ok o', w', evs) ->
  exists sel action o rw term info rest,
    let kept := if is_image C then obs else C.(astype_f4) obs in
    let t := stored ca.(c_timelimit_aware) kept action rw term info in
    Forall (fun ev => is_selection_call ev = true) sel /\
    evs = sel
          ++ [EnvStep action (Ok (o, rw, term, info));
              BufferAppend Primary t (Ok tt)]
          ++ rest /\
    Forall (fun ev : Ev =>
              is_env_step ev = false /\ is_append ev = false) rest.
Proof.
  intros H. unfold collect_step in H.
  inv_bind H as [kept fed] w1 l1 R1; [discriminate|].
  assert (S1 : Forall (fun ev : Ev => is_selection_call ev = true) l1)
    by (eapply emits_at; [apply feed_observation_selects | exact R1]).
  apply feed_observation_stored in R1. subst kept.
  inv_bind H as action w2 l2 R2; [discriminate|].
  assert (S2 : Forall (fun ev : Ev => is_selection_call ev = true) l2)
    by (eapply emits_at; [apply collect_action_selects | exact R2]).
  inv_bind H as [[[o rw] term] info] w3 l3 R3; [discriminate|].
  inv_call R3.
  destruct (timelimit_case _ term info) as [clip terminal] eqn:TL.
  inv_bind H as [] w4 l4 R4; [discriminate|]. inv_call R4.
  match type of H with
  | _ = (_, _, ?rest) =>
      exists (l1 ++ l2), action, o, rw, term, info, rest
  end.
  cbv zeta. unfold stored. rewrite TL. simpl.
  split; [now apply Forall_app|]. split.
  - rewrite <- !app_assoc. reflexivity.
  - eapply emits_at; [|exact H]. repeat emits_step; auto.
Qed.

(** A collection step that returns.  Its calls are those of the action
    selection, [env.step] on the selected action itself, the [append] of
    the transition [stored] from what [env.step] returned, and, when
    that transition ends an episode, [env.reset()] followed by
    [stacked_frame.clear()] for image observations; no metric is
    logged.  The next observation is the one of [env.reset()] in that
    case, and the one of [env.step] otherwise. *)
Theorem collect_step_returns (total_step : Z) (obs o' : Obs) (w w' : W)
    (evs : list Ev) :
  collect_step C ca total_step obs w = (Ok o', w', evs) ->
  exists sel action o rw term info,
    let kept := if is_image C then obs else C.(astype_f4) obs in
    let t := stored ca.(c_timelimit_aware) kept action rw term info in
    Forall (fun ev => is_selection_call ev = true) sel /\
    evs = sel
          ++ [EnvStep action (Ok (o, rw, term, info));
              BufferAppend Primary t (Ok tt)]
          ++ (if t.(t_clip_episode)
              then EnvReset (Ok o')
                   :: (if is_image C then [StackClear (Ok tt)] else [])
              else []) /\
    (t.(t_clip_episode) = false -> o' = o).
Proof.
  intros H. unfold collect_step in H.
  inv_bind H as [kept fed] w1 l1 R1; [discriminate|].
  assert (S1 : Forall (fun ev : Ev => is_selection_call ev = true) l1)
    by (eapply emits_at; [apply feed_observation_selects | exact R1]).
  apply feed_observation_stored in R1. subst kept.
  inv_bind H as action w2 l2 R2; [discriminate|].
  assert (S2 : Forall (fun ev : Ev => is_selection_call ev = true) l2)
    by (eapply emits_at; [apply collect_action_selects | exact R2]).
  inv_bind H as [[[o rw] term] info] w3 l3 R3; [discriminate|].
  inv_call R3.
  exists (l1 ++ l2), action, o, rw, term, info. cbv zeta.
  split; [now apply Forall_app|].
  unfold stored. destruct (timelimit_case _ term info) as [clip terminal].
  simpl.
  inv_bind H as [] w4 l4 R4; [discriminate|]. inv_call R4.
  destruct clip.
  - inv_bind H as o0 w5 l5 R5; [discriminate|]. inv_call R5.
    inv_bind H as [] w6 l6 R6; [discriminate|].
    apply ret_inv in H as (E & -> & ->). injection E as ->.
    split; [|discriminate].
    rewrite <- !app_assoc. simpl. do 4 f_equal.
    destruct (is_image C).
    + inv_call R6. reflexivity.
    + now apply ret_inv in R6 as (_ & _ & ->).
  - apply ret_inv in H as (E & -> & ->). injection E as ->.
    split; [|reflexivity]. rewrite <- !app_assoc. reflexivity.
Qed.

Lemma stepped_with_app (l1 l2 : list Ev) :
  stepped_with (l1 ++ l2) = stepped_with l1 ++ stepped_with l2.
Proof.
  induction l1 as [|ev l1 IH]; simpl; [reflexivity|].
  destruct ev; simpl; try apply IH. now rewrite IH.
Qed.

Lemma selection_quiet (l : list Ev) :
  Forall (fun ev => is_selection_call ev = true) l ->
  stepped_with l = [] /\ appended Primary l = [].
Proof.
  induction 1 as [|ev l H _ [IH1 IH2]]; [split; reflexivity|].
  destruct ev; try discriminate; split; assumption.
Qed.

Lemma setup_quiet (l : list Ev) :
  Forall (fun ev : Ev =>
            is_env_step ev = false /\ is_append ev = false) l ->
  stepped_with l = [] /\ appended Primary l = [].
Proof.
  induction 1 as [|ev l [H1 H2] _ [IH1 IH2]]; [split; reflexivity|].
  destruct ev; try discriminate; split; assumption.
Qed.

(** What one collection step that returns adds to the record. *)
Lemma collect_step_adds total_step obs w o' w' (evs : list Ev) :
  collect_step C ca total_step obs w = (Ok o', w', evs) ->
  exists t,
    appended Primary evs = [t] /\
    stepped_with evs = [t.(t_action)] /\
    (t.(t_terminal) = true -> t.(t_clip_episode) = true).
Proof.
  intros H. apply collect_step_inv in H
    as (sel & action & o & rw & term & info & rest & H).
  cbv zeta in H. destruct H as (S & -> & F).
  destruct (selection_quiet S) as [Q1 Q2].
  destruct (setup_quiet F) as [Q3 Q4].
  exists (stored ca.(c_timelimit_aware)
            (if is_image C then obs else C.(astype_f4) obs)
            action rw term info).
  rewrite !appended_app, !stepped_with_app, Q1, Q2, Q3, Q4.
  unfold stored, timelimit_case.
  destruct (ca.(c_timelimit_aware) && dict_contains _ info); simpl; auto.
Qed.

(** An invariant of the calls of every step holds for those of a loop
    that returns. *)
Lemma for_each_invariant S (Q : list Ev -> Prop)
    (body : Z -> S -> M W Ev S) :
  Q [] ->
  (forall l1 l2, Q l1 -> Q l2 -> Q (l1 ++ l2)) ->
  (forall x s w s' w' l, body x s w = (Ok s', w', l) -> Q l) ->
  forall xs s w s' w' l,
    for_each xs body s w = (Ok s', w', l) -> Q l.
Proof.
  intros Hnil Happ Hbody. induction xs as [|x xs IH]; intros s w s' w' l H;
    simpl in H.
  - now apply ret_inv in H as (_ & _ & ->).
  - inv_bind H as s1 w1 l1 R1; [discriminate|].
    apply Happ; [eapply Hbody; exact R1 | eapply IH; exact H].
Qed.

(** A [collect] run that returns has stepped the environment once in
    each of its [n_steps] steps and appended one transition per step.
    The actions passed to [env.step] are, in order, exactly the actions
    of the appended transitions: nothing is rescaled in between.  Every
    appended transition that is terminal also ends its episode. *)
Theorem completed_collect_counts (w w' : W) (evs : list Ev) :
  collect C ca w = (Ok tt, w', evs) ->
  List.length (stepped_with evs) = Z.to_nat ca.(c_n_steps) /\
  stepped_with evs = map (@t_action Obs) (appended Primary evs) /\
  Forall (fun t => t.(t_terminal) = true -> t.(t_clip_episode) = true)
    (appended Primary evs).
Proof.
  intros H. unfold collect in H.
  inv_bind H as [] w1 l1 R1; [discriminate|].
  inv_bind H as [] w2 l2 R2; [discriminate|].
  inv_bind H as o w3 l3 R3; [discriminate|].
  inv_bind H as o' w4 l4 R4; [discriminate|].
  inv_call H.
  assert (Q1 : stepped_with l1 = [] /\ appended Primary l1 = []).
  { apply setup_quiet. eapply emits_at; [|exact R1].
    unfold _setup_algo. repeat emits_step; auto. }
  assert (Q2 : stepped_with l2 = [] /\ appended Primary l2 = []).
  { apply setup_quiet. eapply emits_at; [|exact R2].
    repeat emits_step; auto. }
  assert (Q3 : stepped_with l3 = [] /\ appended Primary l3 = []).
  { apply setup_quiet. eapply emits_at; [|exact R3].
    repeat emits_step; auto. }
  destruct Q1 as [A1 B1], Q2 as [A2 B2], Q3 as [A3 B3].
  rewrite !stepped_with_app, !appended_app, A1, A2, A3, B1, B2, B3.
  simpl. rewrite !app_nil_r.
  assert (K1 := for_each_measure
                  (fun l => List.length (stepped_with l))
                  (fun _ => 1%nat)
                  (collect_step C ca) eq_refl
                  (fun l1 l2 =>
                     eq_trans
                       (f_equal (@List.length _) (stepped_with_app l1 l2))
                       (length_app _ _))
                  (fun x s w s' w' l E =>
                     match @collect_step_adds x s w s' w' l E with
                     | ex_intro _ t (conj _ (conj E2 _)) =>
                         f_equal (@List.length _) E2
                     end)
                  _ _ _ R4).
  rewrite list_sum_const, length_py_range in K1.
  split; [rewrite K1; f_equal; lia|].
  eapply (@for_each_invariant _
            (fun l => stepped_with l = map (@t_action Obs) (appended Primary l)
                      /\ Forall (fun t => t.(t_terminal) = true ->
                                          t.(t_clip_episode) = true)
                           (appended Primary l))
            (collect_step C ca)); [| | |exact R4].
  - split; [reflexivity | constructor].
  - intros k1 k2 [E1 F1] [E2 F2].
    rewrite stepped_with_app, appended_app, map_app, E1, E2.
    split; [reflexivity | now apply Forall_app].
  - intros x s w0 s' w0' l E.
    apply collect_step_adds in E as (t & -> & -> & Ht).
    split; [reflexivity | now constructor].
Qed.
End CollectRuns.

Lemma collect_step_returns_witness :
  let C0 := Toy.collab [4; 4; 4] (-1) [] in
  let ca0 := Toy.collect_defaults 9 in
  let w3 := Toy.set_time 3 Toy.init in
  calls (collect_step C0 ca0 4 3 w3) =
  [StackAppend 3 (Ok tt); StackEval (Ok 3);
   AlgoSampleAction [3] (Ok [[1 # 2]]);
   EnvStep [1 # 2] (Ok (4, 1%Q, false, [("TimeLimit.truncated"%string, true)]));
   BufferAppend Primary
     {| t_observation := 3; t_action := [1 # 2]; t_reward := 1;
        t_terminal := false; t_clip_episode := true |} (Ok tt);
   EnvReset (Ok 0); StackClear (Ok tt)] /\
  exists sel action o rw term info,
    let t := stored ca0.(c_timelimit_aware) 3 action rw term info in
    Forall (fun ev => is_selection_call ev = true) sel /\
    calls (collect_step C0 ca0 4 3 w3) =
    sel
    ++ [EnvStep action (Ok (o, rw, term, info));
        BufferAppend Primary t (Ok tt)]
    ++ (if t.(t_clip_episode)
        then [EnvReset (Ok 0); StackClear (Ok tt)]
        else []) /\
    (t.(t_clip_episode) = false -> 0 = o).
Proof.
  intros C0 ca0 w3.
  eassert (E : collect_step C0 ca0 4 3 w3 = (Ok 0, _, _))
    by (vm_compute; reflexivity).
  split; [vm_compute; reflexivity|].
  destruct (@collect_step_returns _ _ _ _ C0 ca0 4 3 0 _ _ _ E)
    as (sel & action & o & rw & term & info & K).
  exists sel, action, o, rw, term, info. rewrite E. exact K.
Defined.

Lemma completed_collect_counts_witness :
  let C0 := Toy.collab [4] (-1) [] in
  let run := collect C0 (Toy.collect_defaults 5) Toy.init in
  outcome run = Ok tt /\
  List.length (stepped_with (calls run)) = 5%nat /\
  stepped_with (calls run)
  = map (@t_action Z) (appended Primary (calls run)) /\
  Forall (fun t => t.(t_terminal) = true -> t.(t_clip_episode) = true)
    (appended Primary (calls run)).
Proof.
  intros C0 run.
  eassert (E : collect C0 (Toy.collect_defaults 5) Toy.init = (Ok tt, _, _))
    by (vm_compute; reflexivity).
  split; [vm_compute; reflexivity|].
  unfold run. rewrite E.
  exact (@completed_collect_counts _ _ _ _ C0 (Toy.collect_defaults 5)
           _ _ _ E).
Defined.

(* ================================================================== *)
(** * The observation that is fed and the one that is stored *)

Section FedObservation.
Context {W Obs Trans Batch : Type}.
Variable C : Collab W Obs Trans Batch.
Variable a : train_args W Obs.
Local Abbreviation Ev := (event Obs Trans Batch).

Lemma feed_observation_inv o w obs fed w1 (l1 : list Ev) :
  feed_observation C o w = (Ok (obs, fed), w1, l1) ->
  if is_image C
  then l1 = [StackAppend o (Ok tt); StackEval (Ok fed)] /\ obs = o
  else l1 = [] /\ obs = C.(astype_f4) o /\ fed = C.(astype_f4) o.
Proof.
  unfold feed_observation. destruct (is_image C); intros H.
  - inv_bind H as [] w2 l2 R2; [discriminate|]. inv_call R2.
    inv_bind H as fed' w3 l3 R3; [discriminate|]. inv_call R3.
    apply ret_inv in H as (E & -> & ->). injection E as -> ->.
    split; reflexivity.
  - apply ret_inv in H as (E & -> & ->). injection E as -> ->.
    repeat split.
Qed.

Lemma feed_observation_asks_nobody o :
  emits (fun ev : Ev =>
           match ev with
           | AlgoSampleAction _ _ | ExplorerSample _ _ _ => False
           | _ => True
           end)
    (feed_observation C o).
Proof. solve_emits; exact I. Qed.

Lemma sample_exploration_action_input total_step fed un :
  emits (fun ev : Ev =>
           match ev with
           | AlgoSampleAction x _ | ExplorerSample x _ _ => x = [fed]
           | _ => True
           end)
    (sample_exploration_action C a total_step fed un).
Proof. solve_emits; auto. Qed.

Lemma after_selection_emits total_step (st : locals Obs) obs action unscaled :
  emits (fun ev : Ev => is_selection_call ev = false)
    (unscaled_action <- read_local "unscaled_action" unscaled ;;
     '(next_observation, reward, terminal, info) <-
       call (EnvStep unscaled_action) (C.(env_step) unscaled_action) ;;
     let rollout_return := (st.(rollout_return) + reward)%Q in
     let '(clip_episode, terminal) :=
       timelimit_case a.(timelimit_aware) terminal info in
     let t := {| t_observation := obs;
                 t_action := action;
                 t_reward := reward;
                 t_terminal := terminal;
                 t_clip_episode := clip_episode |} in
     call (BufferAppend Primary t) (C.(buffer_append) Primary t) ;;
     st' <- reset_if_terminated C clip_episode next_observation
              rollout_return unscaled ;;
     epoch <- lift (py_floordiv total_step a.(n_steps_per_epoch)) ;;
     ret (st', epoch)).
Proof. solve_emits. Qed.

(** The observation argument of every call on the policy or the
    explorer in a training step is the fed observation of that step. *)
Lemma train_step_policy_input demo_buffer total_step st w (ev : Ev) x :
  In ev (calls (train_step C a demo_buffer total_step st w)) ->
  (exists r, ev = AlgoSampleAction x r) \/
  (exists t r, ev = ExplorerSample x t r) ->
  exists obs fed w1 l1,
    feed_observation C st.(observation) w = (Ok (obs, fed), w1, l1) /\
    x = [fed] /\
    forall ev', In ev' l1 ->
      In ev' (calls (train_step C a demo_buffer total_step st w)).
Proof.
  intros I Hev.
  assert (Sel : is_selection_call ev = true)
    by (destruct Hev as [(r & ->) | (t & r & ->)]; reflexivity).
  destruct (@train_step_calls _ _ _ _ C a demo_buffer total_step st w)
    as (tail & E & F).
  rewrite E in *. rewrite Forall_forall in F.
  apply in_app_iff in I as [I | I];
    [|apply F in I; destruct I as (_ & _ & N); congruence].
  destruct (interaction C a total_step st w) as [[r w'] evs] eqn:T.
  unfold calls in I |- *. simpl in I |- *.
  unfold interaction in T.
  inv_bind T as [obs fed] w1 l1 R1.
  { exfalso.
    pose proof (@emits_at _ _ _ _ _ _ _ _ _
                  (feed_observation_asks_nobody _) T) as F1.
    rewrite Forall_forall in F1. apply F1 in I.
    destruct Hev as [(r' & ->) | (t & r' & ->)]; exact I. }
  exists obs, fed, w1, l1. split; [exact R1|]. split.
  - apply in_app_iff in I as [I | I].
    { exfalso.
      pose proof (@emits_at _ _ _ _ _ _ _ _ _
                    (feed_observation_asks_nobody _) R1) as F1.
      rewrite Forall_forall in F1. apply F1 in I.
      destruct Hev as [(r' & ->) | (t & r' & ->)]; exact I. }
    inv_bind T as [action unscaled] w2 l2 R2.
    + pose proof (@emits_at _ _ _ _ _ _ _ _ _
                    (sample_exploration_action_input total_step fed
                       st.(unscaled_action)) T) as F2.
      rewrite Forall_forall in F2. apply F2 in I.
      destruct Hev as [(r' & ->) | (t & r' & ->)]; exact I.
    + apply in_app_iff in I as [I | I].
      * pose proof (@emits_at _ _ _ _ _ _ _ _ _
                      (sample_exploration_action_input total_step fed
                         st.(unscaled_action)) R2) as F2.
        rewrite Forall_forall in F2. apply F2 in I.
        destruct Hev as [(r' & ->) | (t & r' & ->)]; exact I.
      * exfalso.
        pose proof (@emits_at _ _ _ _ _ _ _ _ _
                      (after_selection_emits total_step st obs action
                         unscaled) T) as F3.
        rewrite Forall_forall in F3. apply F3 in I. congruence.
  - intros ev' I'. apply in_app_iff. left. apply in_app_iff. now left.
Qed.

(** What the policy sees and what the buffer keeps.  For image
    observations (three dimensions) the step pushes the current
    observation on the frame stack, and the policy or the explorer is
    called on the stacked frames that [stacked_frame.eval()] returned,
    while the appended transition holds the single observation.
    Otherwise both the call and the transition get
    [observation.astype("f4")] and the frame stack is not used. *)
Theorem fed_and_stored_observation (demo_buffer : option buffer_ref)
    (total_step : Z) (st : locals Obs) (w : W) :
  let run := train_step C a demo_buffer total_step st w in
  (forall ev x,
     In ev (calls run) ->
     (exists r, ev = AlgoSampleAction x r) \/
     (exists t r, ev = ExplorerSample x t r) ->
     if is_image C
     then exists fed,
            x = [fed] /\
            In (StackAppend st.(observation) (Ok tt)) (calls run) /\
            In (StackEval (Ok fed)) (calls run)
     else x = [C.(astype_f4) st.(observation)]) /\
  (forall b t ra,
     In (BufferAppend b t ra) (calls run) ->
     t.(t_observation) =
     if is_image C then st.(observation)
     else C.(astype_f4) st.(observation)).
Proof.
  intros run. subst run. split.
  - intros ev x I Hev.
    destruct (train_step_policy_input _ _ _ _ I Hev)
      as (obs & fed & w1 & l1 & R1 & -> & Sub).
    apply feed_observation_inv in R1. destruct (is_image C).
    + destruct R1 as (-> & _). exists fed. split; [reflexivity|].
      split; apply Sub; simpl; auto.
    + now destruct R1 as (_ & _ & ->).
  - intros b t ra I.
    destruct (@train_step_calls _ _ _ _ C a demo_buffer total_step st w)
      as (tail & E & F).
    rewrite E in I. rewrite Forall_forall in F.
    apply in_app_iff in I as [I | I];
      [|apply F in I; destruct I as (_ & N & _); discriminate].
    apply interaction_append in I as (_ & action & u & o & rw & term & info
                                      & _ & ->).
    reflexivity.
Qed.
End FedObservation.

(* ================================================================== *)
(** * How many updates a run can make *)

Section UpdateBudget.
Context {W Obs Trans Batch : Type}.
Variable C : Collab W Obs Trans Batch.
Variable a : train_args W Obs.
Local Abbreviation Ev := (event Obs Trans Batch).

(** A bound on a count that holds for every step bounds the count of
    the loop, whether it completes or not. *)
Lemma for_each_count_le S (p : Ev -> bool) (g : Z -> nat)
    (body : Z -> S -> M W Ev S) :
  (forall x s w, (count p (calls (body x s w)) <= g x)%nat) ->
  forall xs s w,
    (count p (calls (for_each xs body s w)) <= list_sum (map g xs))%nat.
Proof.
  intros Hbody. induction xs as [|x xs IH]; intros s w; simpl.
  - unfold count. simpl. lia.
  - rewrite calls_bind, count_app. specialize (Hbody x s w).
    destruct (outcome (body x s w)) as [s1|e].
    + specialize (IH s1 (world_of (body x s w))). lia.
    + change (count p (@nil Ev)) with 0%nat. lia.
Qed.

(** The steps [t] of [1..m] with [t > s] and [t % k == 0]. *)
Lemma count_due_steps (k s : Z) (m : nat) :
  0 < k -> 0 <= s ->
  list_sum
    (map (fun t => if (t >? s) && (t mod k =? 0) then 1%nat else 0%nat)
       (map (fun i => 1 + Z.of_nat i) (seq 0 m))) =
  Z.to_nat (Z.of_nat m / k - s / k).
Proof.
  intros Hk Hs. induction m as [|m IH].
  - assert (0 <= s / k) by (apply Z.div_pos; lia).
    change (Z.of_nat 0) with 0. rewrite Z.div_0_l by lia.
    cbn [seq map list_sum fold_right]. lia.
  - rewrite seq_S, !map_app, list_sum_app, IH. cbn [map Nat.add].
    unfold list_sum; cbn [fold_right].
    replace (Z.of_nat (S m)) with (1 + Z.of_nat m) by lia.
    pose proof (Z.div_mod (1 + Z.of_nat m) k) as D1.
    pose proof (Z.mod_pos_bound (1 + Z.of_nat m) k Hk) as B1.
    pose proof (Z.div_mod (Z.of_nat m) k) as D0.
    pose proof (Z.mod_pos_bound (Z.of_nat m) k Hk) as B0.
    pose proof (Z.div_mod s k) as Ds.
    pose proof (Z.mod_pos_bound s k Hk) as Bs.
    destruct (Z.gtb_spec (1 + Z.of_nat m) s) as [G|G];
      destruct (Z.eqb_spec ((1 + Z.of_nat m) mod k) 0) as [E|E];
      cbn [andb]; nia.
Qed.

Lemma update_step_budget demo_buffer total_step w :
  a.(update_interval) <> 0 ->
  (count is_update (calls (update_step C a demo_buffer total_step w)) <=
   if ((total_step >? a.(update_start_step))
       && (total_step mod a.(update_interval) =? 0))%Z
   then 1 else 0)%nat.
Proof.
  intros Hz.
  destruct (update_due a.(update_start_step) a.(update_interval)
              C.(algo_batch_size) total_step (C.(buffer_len) Primary w))
    eqn:Due.
  - rewrite update_step_fires by assumption.
    rewrite update_parameters_count. unfold update_due in Due.
    apply andb_true_iff in Due as [Due ->].
    apply andb_true_iff in Due as [-> _]. simpl.
    destruct (is_ok _); lia.
  - rewrite update_step_skipped by assumption.
    unfold calls, count. simpl. destruct (_ && _); lia.
Qed.

Lemma train_step_budget demo_buffer total_step st w :
  a.(update_interval) <> 0 ->
  (count is_update (calls (train_step C a demo_buffer total_step st w)) <=
   if ((total_step >? a.(update_start_step))
       && (total_step mod a.(update_interval) =? 0))%Z
   then 1 else 0)%nat.
Proof.
  intros Hz. unfold train_step.
  rewrite count_bind_head by apply interaction_no_update.
  destruct (outcome (interaction C a total_step st w)) as [[st' epoch]|e];
    [|lia].
  rewrite count_bind_tail by (intros; solve_emits).
  now apply update_step_budget.
Qed.

(** With a positive [update_interval] and a non-negative
    [update_start_step], no run of [train_single_env], completed or not,
    calls [algo.update] more often than there are steps [t] in
    [1..n_steps] with [t > update_start_step] and
    [t % update_interval == 0], that is
    [n_steps // update_interval - update_start_step // update_interval]
    times. *)
Theorem updates_bounded (w : W) :
  0 < a.(update_interval) ->
  0 <= a.(update_start_step) ->
  (count is_update (calls (train_single_env C a w)) <=
   Z.to_nat (a.(n_steps) / a.(update_interval)
             - a.(update_start_step) / a.(update_interval))%Z)%nat.
Proof.
  intros Hk Hs.
  assert (Hz : a.(update_interval) <> 0) by lia.
  unfold train_single_env.
  rewrite count_bind_tail
    by (intros; unfold train_shutdown; repeat emits_step; reflexivity).
  unfold train_run.
  rewrite count_bind_head
    by (unfold train_setup, _setup_algo; repeat emits_step; reflexivity).
  destruct (outcome (train_setup C a w)) as [[]|e]; [|lia].
  rewrite count_bind_head by (apply load_demos_emits; reflexivity).
  destruct (outcome (load_demos C a _)) as [demo_buffer|e]; [|lia].
  rewrite count_bind_tail by (intros; apply emits_ret).
  unfold training_loop.
  rewrite count_bind_head by (apply emits_call; reflexivity).
  destruct (outcome (call EnvReset _ _)) as [o|e]; [|lia].
  eapply Nat.le_trans.
  { apply (for_each_count_le is_update
             (fun t => if (t >? a.(update_start_step))
                          && (t mod a.(update_interval) =? 0)
                       then 1%nat else 0%nat)).
    intros x s w0. now apply train_step_budget. }
  unfold py_range. rewrite (count_due_steps _ Hk Hs).
  destruct (Z.le_gt_cases 0 a.(n_steps)) as [Hn|Hn].
  - replace (Z.of_nat (Z.to_nat (a.(n_steps) + 1 - 1))) with a.(n_steps)
      by lia.
    lia.
  - replace (Z.to_nat (a.(n_steps) + 1 - 1)) with 0%nat by lia.
    change (Z.of_nat 0) with 0. rewrite Z.div_0_l by lia.
    assert (0 <= a.(update_start_step) / a.(update_interval))
      by (apply Z.div_pos; lia).
    lia.
Qed.
End UpdateBudget.

Lemma updates_bounded_witness :
  let C0 := Toy.collab [4] (-1) [] in
  let a0 := Scenario.args 9 100 2 1 false None false in
  let run := train_single_env C0 a0 Toy.init in
  outcome run = Ok tt /\
  count is_update (calls run) = 4%nat /\
  (count is_update (calls run) <= 4)%nat.
Proof.
  intros C0 a0 run.
  assert (Hk : 0 < a0.(update_interval)) by (simpl; lia).
  assert (Hs : 0 <= a0.(update_start_step)) by (simpl; lia).
  split; [vm_compute; reflexivity|]. split; [vm_compute; reflexivity|].
  exact (@updates_bounded _ _ _ _ C0 a0 Toy.init Hk Hs).
Defined.
